(** * ChangeNotifier: a publish/subscribe state container

    Shallow embedding of the two [ChangeNotifier] classes of the repository:

    - [Sliced]: [src/state.ts], the registry keyed by event name and slice
      name (event -> slice -> state, event -> slice -> callbacks);
    - [Flat]: the revision of the same class without slices, keyed by event
      name only (event -> state, event -> callbacks);
    and of the hook of [src/useNotifier.ts].

    What the model covers.
    - JavaScript values are the inductive type [value].  Numbers are the
      integer-valued ones plus NaN (only their truthiness is inspected).  A
      string is a sequence of UTF-16 code units; the strings modelled have
      units below 256, one for each character of the Rocq string.  Symbols,
      BigInts and the built-in objects are not values of the model.
    - The two [Record<string, _>] fields of a registry are plain objects.
      Their own properties are a finite map; a property read that finds no
      own property goes on to [Object.prototype], whose property names are
      [objectPrototype].  What the code does once such a read has found an
      inherited property is not modelled: the run ends with [Beyond].
      [Object.prototype] is taken to be as the language defines it.
    - A listener is a function reference, compared by identity.  What it
      does when called is the parameter [behave] of the methods: any
      computation on the registry, which may throw.  Iterating a set while
      listeners change it follows the language ([forEach]); the number of
      steps is bounded by the parameter [fuel], and a run that needs more
      ends with [Beyond OutOfFuel].
    - Every method is a computation in the monad [M]: it reads and writes
      the registry, appends to the trace of calls and console output, and
      either returns or throws.  Event names and callbacks, which the
      methods check at run time, are values of any type; slice names and
      callers are strings, as their parameters are typed. *)

From stdpp Require Import gmap strings list fin_maps pretty.

Local Open Scope string_scope.
Local Open Scope list_scope.

(** ** JavaScript values *)

Set Warnings "-register-all,-clear-no-such-hyp".

(** A function object, by identity: one created in the realm of the class
    ([f instanceof Function] holds), or one of another realm (an iframe, a
    worker), for which [typeof f] is still ['function']. *)
Inductive ListenerCallback :=
  | Fn (id : nat)
  | ForeignFn (id : nat).

#[global] Instance ListenerCallback_eq_dec : EqDecision ListenerCallback.
Proof. solve_decision. Defined.

Inductive value :=
  | VUndefined
  | VNull
  | VBool (b : bool)
  | VNum (n : Z)
  | VNaN
  | VStr (s : string)
  | VArr (items : list value)
  | VObj (fields : gmap string value)                   (* prototype: Object.prototype *)
  | VInst (class : string) (fields : gmap string value) (* an instance of a class *)
  | VFun (f : ListenerCallback).

(** The names of the properties of [Object.prototype]. *)
Definition objectPrototype : list string :=
  ["constructor"; "__defineGetter__"; "__defineSetter__"; "hasOwnProperty";
   "__lookupGetter__"; "__lookupSetter__"; "isPrototypeOf"; "propertyIsEnumerable";
   "toString"; "valueOf"; "__proto__"; "toLocaleString"].

(** Whether a plain object without an own property [name] inherits one. *)
Definition inherited (name : string) : bool := bool_decide (name ∈ objectPrototype).

(** [typeof value] *)
Definition typeof (v : value) : string :=
  match v with
  | VUndefined => "undefined"
  | VNull => "object"
  | VBool _ => "boolean"
  | VNum _ | VNaN => "number"
  | VStr _ => "string"
  | VArr _ | VObj _ | VInst _ _ => "object"
  | VFun _ => "function"
  end.

(** [Boolean(value)]: the falsy values are undefined, null, false, 0, NaN
    and the empty string. *)
Definition truthy (v : value) : bool :=
  match v with
  | VUndefined | VNull | VNaN => false
  | VBool b => b
  | VNum n => negb (n =? 0)%Z
  | VStr s => negb (String.eqb s "")
  | VArr _ | VObj _ | VInst _ _ | VFun _ => true
  end.

(** [value !== null] *)
Definition notNull (v : value) : bool :=
  match v with VNull => false | _ => true end.

(** [Array.isArray(value)] *)
Definition isArray (v : value) : bool :=
  match v with VArr _ => true | _ => false end.

(** [!x] where [x] is the result of a property read that yields an object
    (always truthy) or undefined. *)
Definition absent {A} (o : option A) : bool :=
  match o with None => true | Some _ => false end.

(** [value.constructor === Object], for a non-null object.  An object whose
    prototype is [Object.prototype] inherits [Object] as its constructor
    unless it has an own property of that name; no value of the model is
    [Object] itself, so an own property never compares equal. *)
Definition constructorIsObject (v : value) : bool :=
  match v with VObj fields => absent (fields !! "constructor") | _ => false end.

(** [value instanceof Function] *)
Definition instanceofFunction (v : value) : bool :=
  match v with VFun (Fn _) => true | _ => false end.

(** [a || b] on values. *)
Definition or_else (a b : value) : value := if truthy a then a else b.

(** The own enumerable properties an object spread [...v] copies: the fields
    of an object, the indexed elements of an array, the indexed code units
    of a string, nothing for the other primitives (and for null and
    undefined). *)
Definition indexed {A} (f : A → value) (l : list A) : gmap string value :=
  list_to_map (imap (λ i x, (pretty i, f x)) l).

Definition chars (s : string) : list string :=
  (λ c, String c EmptyString) <$> String.list_ascii_of_string s.

Definition ownProps (v : value) : gmap string value :=
  match v with
  | VObj m | VInst _ m => m
  | VArr l => indexed id l
  | VStr s => indexed VStr (chars s)
  | _ => ∅
  end.

(** [{ ...a, ...b }]: a fresh plain object; the properties of [b] are
    written after those of [a] and so win on a shared key. *)
Definition spread2 (a b : value) : value := VObj (ownProps b ∪ ownProps a).

(** [checkValidObject] (the same in both revisions). *)
Definition checkValidObject (v : value) : bool :=
  String.eqb (typeof v) "object" && notNull v && negb (isArray v) && constructorIsObject v.

(** Whether [`${v}`] yields a string without running code of the program:
    primitives and functions do; an object does through
    [Object.prototype.toString] when it has no own [toString] or [valueOf];
    an array does when its elements do.  For the others (an own [toString]
    or [valueOf], a class instance, whose class may define them) the
    conversion may call a function of the program or throw a TypeError. *)
Fixpoint interpolates (v : value) : bool :=
  match v with
  | VObj fields => absent (fields !! "toString") && absent (fields !! "valueOf")
  | VInst _ _ => false
  | VArr items => forallb interpolates items
  | _ => true
  end.

(** ** Errors and trace *)

(** Where a run leaves the model. *)
Inductive beyond :=
  | Inherits (name : string)   (* a read found a property of Object.prototype *)
  | Unprintable                (* an error message needs a conversion that runs code *)
  | OutOfFuel.                 (* [forEach] needs more steps than [fuel] *)

(** Both classes throw [new Error(message)]; the three message templates are
    kept apart, each with the event name it interpolates.  [TypeError] is the
    runtime's own error for reading or writing a property of [undefined];
    [Thrown] is whatever a listener throws. *)
Inductive error :=
  | InvalidEventName (eventName : value)      (* `Invalid event name: '${eventName}'` *)
  | InvalidParameters (eventName : value)     (* `Invalid parameters for event: '${eventName}'` *)
  | NoListenersToUnsubscribe (eventName : value)
      (* `No listeners found for event: '${eventName}' to unsubscribe.` *)
  | TypeError
  | Thrown (listener : ListenerCallback)
  | Beyond (why : beyond).

Inductive effect :=
  | Call (cb : ListenerCallback) (arg : value)           (* cb(arg) *)
  | WarnNoListeners (eventName caller : string)
  | WarnNoSliceListeners (sliceName eventName caller : string)
  | WarnCannotUnsubscribe (eventName : string)
  | LogNotify (eventName caller : string) (data : value)
  | LogState (notifierState : gmap string (gmap string value)).

(** ** The method monad: state, trace and exceptions *)

Record run (S A : Type) := Run {
  result : error + A;
  store : S;
  trace : list effect
}.
Arguments Run {S A}.
Arguments result {S A}.
Arguments store {S A}.
Arguments trace {S A}.

Definition M (S A : Type) := S → run S A.

Definition ret {S A} (a : A) : M S A := λ s, Run (inr a) s [].

Definition bind {S A B} (m : M S A) (k : A → M S B) : M S B := λ s,
  match m s with
  | Run (inl e) s' t => Run (inl e) s' t
  | Run (inr a) s' t =>
      match k a s' with
      | Run r s'' t' => Run r s'' (t ++ t')
      end
  end.

Definition throw {S A} (e : error) : M S A := λ s, Run (inl e) s [].
Definition get {S} : M S S := λ s, Run (inr s) s [].
Definition put {S} (s : S) : M S unit := λ _, Run (inr tt) s [].
Definition emit {S} (e : effect) : M S unit := λ s, Run (inr tt) s [e].

(** The monad operations, so that the methods read in stdpp's notation:
    [x ← m; k] and [m ;; k]. *)
#[global] Instance M_ret {S} : MRet (M S) := λ A, ret.
#[global] Instance M_bind {S} : MBind (M S) := λ A B k m, bind m k.

(** [throw new Error(`... '${eventName}' ...`)] *)
Definition raise {S A} (message : value → error) (eventName : value) : M S A :=
  if interpolates eventName then throw (message eventName) else throw (Beyond Unprintable).

(** [object[name]] on a plain object with the own properties [own]. *)
Definition prop {S A} (own : gmap string A) (name : string) : M S (option A) :=
  match own !! name with
  | Some x => ret (Some x)
  | None => if inherited name then throw (Beyond (Inherits name)) else ret None
  end.

(** [object[name] = x] on such an object: the new own properties.  On a name
    the object only inherits, the assignment is left to [Beyond] as well
    ([__proto__] is a setter). *)
Definition setProp {S A} (own : gmap string A) (name : string) (x : A)
  : M S (gmap string A) :=
  if inherited name && absent (own !! name) then throw (Beyond (Inherits name))
  else ret (<[name := x]> own).

(** The invocations in a trace, in order. *)
Definition calls (t : list effect) : list (ListenerCallback * value) :=
  omap (λ e, match e with Call cb v => Some (cb, v) | _ => None end) t.

Definition invoked (t : list effect) : list ListenerCallback := fst <$> calls t.

(** ** [Set<ListenerCallback>]

    The entries of a set in insertion order; [delete] empties the entry it
    removes and leaves the place in the list, which is what lets an
    iteration go on while the set changes. *)

Definition members (entries : list (option ListenerCallback)) : list ListenerCallback :=
  omap id entries.

Definition set_add (cb : ListenerCallback) (entries : list (option ListenerCallback))
  : list (option ListenerCallback) :=
  if decide (Some cb ∈ entries) then entries else entries ++ [Some cb].

(** [set.delete(cb)]: whether [cb] was present, and the entries without it. *)
Definition set_delete (cb : ListenerCallback) (entries : list (option ListenerCallback))
  : bool * list (option ListenerCallback) :=
  (bool_decide (Some cb ∈ entries),
   (λ entry, if decide (entry = Some cb) then None else entry) <$> entries).

(** [add] and [delete] at an argument of any type.  [listen] lets only
    functions through to [add]; a set of functions holds no other value, so
    deleting one finds nothing. *)
Definition add (callback : value) (entries : list (option ListenerCallback))
  : list (option ListenerCallback) :=
  match callback with VFun f => set_add f entries | _ => entries end.

Definition delete_ (callback : value) (entries : list (option ListenerCallback))
  : bool * list (option ListenerCallback) :=
  match callback with VFun f => set_delete f entries | _ => (false, entries) end.

(** [set.forEach((cb) => cb(v))], the set being the one [entriesOf] finds in
    the registry: the entries are read again at every step, an emptied entry
    is skipped, an entry appended meanwhile is visited.  A listener that
    throws ends the iteration. *)
Fixpoint forEach {R} (fuel : nat) (behave : ListenerCallback → value → M R unit)
    (entriesOf : R → list (option ListenerCallback)) (v : value) (index : nat)
  : M R unit :=
  match fuel with
  | 0 => throw (Beyond OutOfFuel)
  | S fuel' =>
      this ← get;
      match entriesOf this !! index with
      | None => ret tt
      | Some None => forEach fuel' behave entriesOf v (S index)
      | Some (Some cb) =>
          emit (Call cb v) ;;
          behave cb v ;;
          forEach fuel' behave entriesOf v (S index)
      end
  end.

(** A listener that returns without touching the registry, and a world of
    such listeners. *)
Definition quiet {S} : ListenerCallback → value → M S unit := λ _ _, ret tt.

Definition inert {S} (behave : ListenerCallback → value → M S unit) : Prop :=
  ∀ f v this, behave f v this = Run (inr tt) this [].

(** [validateEvent] (the same in both revisions):
    [Boolean(eventName && typeof eventName === 'string')]. *)
Definition validateEvent (eventName : value) : bool :=
  truthy eventName && String.eqb (typeof eventName) "string".

(** The property key a validated event name indexes the maps with. *)
Definition key (eventName : value) : string :=
  match eventName with VStr s => s | _ => "" end.

(** A default parameter [p = d]: an undefined (or omitted) argument takes
    the default. *)
Definition defaultParam (arg d : value) : value :=
  match arg with VUndefined => d | _ => arg end.

(** The value [notify] computes, stores and hands to the listeners:
    [checkValidObject(data) ? { ...(prior || {}), ...data } : data]. *)
Definition stateData (prior data : value) : value :=
  if checkValidObject data then spread2 (or_else prior (VObj ∅)) data else data.

(** [Object.keys(value)]: an array, hence truthy even when empty. *)
Definition objectKeys (v : value) : value :=
  VArr (VStr <$> (map_to_list (ownProps v)).*1).

(** A name that no plain object inherits. *)
Definition plain (name : string) : bool := negb (inherited name).

(** ** The sliced registry ([src/state.ts]) *)

Module Sliced.

Record ChangeNotifier := {
  listeners : gmap string (gmap string (list (option ListenerCallback)));
  notifierState : gmap string (gmap string value)
}.

(** [new ChangeNotifier()] *)
Definition init : ChangeNotifier := {| listeners := ∅; notifierState := ∅ |}.

Definition checkValidFunction (v : value) : bool :=
  instanceofFunction v && String.eqb (typeof v) "function".

(** [this.listeners[e][s]] and [this.notifierState[e][s]]: reading a
    property of an event that has no inner object is a TypeError. *)
Definition readListeners (e s : string)
  : M ChangeNotifier (option (list (option ListenerCallback))) :=
  this ← get;
  inner ← prop (listeners this) e;
  match inner with
  | None => throw TypeError
  | Some inner => prop inner s
  end.

Definition readState (e s : string) : M ChangeNotifier value :=
  this ← get;
  inner ← prop (notifierState this) e;
  match inner with
  | None => throw TypeError
  | Some inner => x ← prop inner s; ret (default VUndefined x)
  end.

(** [this.listeners[e][s] = x] and [this.notifierState[e][s] = x] *)
Definition writeListeners (e s : string) (x : list (option ListenerCallback))
  : M ChangeNotifier unit :=
  this ← get;
  inner ← prop (listeners this) e;
  match inner with
  | None => throw TypeError
  | Some inner =>
      inner' ← setProp inner s x;
      put {| listeners := <[e := inner']> (listeners this);
             notifierState := notifierState this |}
  end.

Definition writeState (e s : string) (x : value) : M ChangeNotifier unit :=
  this ← get;
  inner ← prop (notifierState this) e;
  match inner with
  | None => throw TypeError
  | Some inner =>
      inner' ← setProp inner s x;
      put {| listeners := listeners this;
             notifierState := <[e := inner']> (notifierState this) |}
  end.

(** The callback set and the state entry of an (event, slice) pair: own
    properties only. *)
Definition callbacksAt (this : ChangeNotifier) (e s : string)
  : option (list (option ListenerCallback)) :=
  listeners this !! e ≫= (.!! s).

Definition stateAt (this : ChangeNotifier) (e s : string) : option value :=
  notifierState this !! e ≫= (.!! s).

(** The entries of the set [sliceListeners] of a running [notify]. *)
Definition entriesAt (e s : string) (this : ChangeNotifier) : list (option ListenerCallback) :=
  default [] (callbacksAt this e s).

Section methods.

Variable fuel : nat.
Variable behave : ListenerCallback → value → M ChangeNotifier unit.

Definition notify (eventName data : value) (sliceName caller : string) : M ChangeNotifier unit :=
  if negb (validateEvent eventName) then raise InvalidEventName eventName
  else
    let e := key eventName in
    this ← get;
    eventListeners ← prop (listeners this) e;
    if absent eventListeners then emit (WarnNoListeners e caller)
    else
      sliceListeners ← readListeners e sliceName;
      match sliceListeners with
      | None => emit (WarnNoSliceListeners sliceName e caller)
      | Some _ =>
          stateData ←
            (if checkValidObject data
             then prior ← readState e sliceName;
                  ret (spread2 (or_else prior (VObj ∅)) data)
             else ret data);
          writeState e sliceName stateData ;;
          forEach fuel behave (entriesAt e sliceName) stateData 0 ;;
          emit (LogNotify e caller data) ;;
          this ← get;
          emit (LogState (notifierState this))
      end.

Definition listen (eventName callback initialState : value) (sliceName : string)
  : M ChangeNotifier unit :=
  let initialState := defaultParam initialState (VObj ∅) in
  if negb (validateEvent eventName) || negb (checkValidFunction callback)
  then raise InvalidParameters eventName
  else
    let e := key eventName in
    this ← get;
    eventListeners ← prop (listeners this) e;
    eventState ← (if absent eventListeners then ret None else prop (notifierState this) e);
    (if absent eventListeners || absent eventState
     then put {| listeners := <[e := ∅]> (listeners this);
                 notifierState := <[e := ∅]> (notifierState this) |}
     else ret tt) ;;
    sliceListeners ← readListeners e sliceName;
    (if absent sliceListeners
     then writeListeners e sliceName [] ;;
          writeState e sliceName initialState
     else ret tt) ;;
    sliceListeners ← readListeners e sliceName;
    match sliceListeners with
    | None => throw TypeError
    | Some set => writeListeners e sliceName (add callback set)
    end.

Definition unsubscribe (eventName callback : value) (sliceName : string)
  : M ChangeNotifier unit :=
  if negb (validateEvent eventName) then raise NoListenersToUnsubscribe eventName
  else
    let e := key eventName in
    this ← get;
    eventListeners ← prop (listeners this) e;
    if absent eventListeners then raise NoListenersToUnsubscribe eventName
    else
      sliceListeners ← readListeners e sliceName;
      match sliceListeners with
      | None => emit (WarnCannotUnsubscribe e)
      | Some set =>
          let (found, set') := delete_ callback set in
          writeListeners e sliceName set' ;;
          if found then ret tt else emit (WarnCannotUnsubscribe e)
      end.

(** [this.notifierState[eventName]?.[sliceName]] *)
Definition getState (eventName sliceName : string) : M ChangeNotifier value :=
  this ← get;
  eventState ← prop (notifierState this) eventName;
  match eventState with
  | None => ret VUndefined
  | Some inner => x ← prop inner sliceName; ret (default VUndefined x)
  end.

(** Histories: the method calls made on the singleton since its creation.
    A call that throws leaves the registry as it was when it threw. *)
Inductive call :=
  | Notify (eventName data : value) (sliceName caller : string)
  | Listen (eventName callback initialState : value) (sliceName : string)
  | Unsubscribe (eventName callback : value) (sliceName : string)
  | GetState (eventName sliceName : string).

Definition exec (this : ChangeNotifier) (c : call) : ChangeNotifier :=
  match c with
  | Notify ev d s caller => store (notify ev d s caller this)
  | Listen ev cb i s => store (listen ev cb i s this)
  | Unsubscribe ev cb s => store (unsubscribe ev cb s this)
  | GetState e s => store (getState e s this)
  end.

Definition after (h : list call) : ChangeNotifier := foldl exec init h.

End methods.

(** A plain call: its event name is one that a template literal prints
    without running code of the program (every string is one), and its event
    and slice names are names that no object inherits. *)
Definition plainCall (c : call) : bool :=
  match c with
  | Notify ev _ s _ | Listen ev _ _ s | Unsubscribe ev _ s =>
      interpolates ev && plain (key ev) && plain s
  | GetState e s => plain e && plain s
  end.

(** A [listen] call that passes the argument check, for the pair (e, s). *)
Definition listensTo (e s : string) (c : call) : Prop :=
  match c with
  | Listen ev cb _ s' =>
      validateEvent ev = true ∧ checkValidFunction cb = true ∧ key ev = e ∧ s' = s
  | _ => False
  end.

(** The registry invariant; [n] bounds the number of entries of a set. *)
Record wf (n : nat) (this : ChangeNotifier) : Prop := {
  wf_events : ∀ e, is_Some (listeners this !! e) ↔ is_Some (notifierState this !! e);
  wf_slices : ∀ e s, is_Some (callbacksAt this e s) ↔ is_Some (stateAt this e s);
  wf_sets : ∀ e s set, callbacksAt this e s = Some set → NoDup (members set);
  wf_short : ∀ e s set, callbacksAt this e s = Some set → (List.length set ≤ n)%nat
}.

End Sliced.

(** ** The flat registry ([unnamed/part_000]) *)

Module Flat.

Record ChangeNotifier := {
  listeners : gmap string (list (option ListenerCallback));
  notifierState : gmap string value
}.

Definition init : ChangeNotifier := {| listeners := ∅; notifierState := ∅ |}.

Definition checkValidFunction (v : value) : bool :=
  String.eqb (typeof v) "function".

(** [this.notifierState[e]] *)
Definition readState (e : string) : M ChangeNotifier value :=
  this ← get;
  x ← prop (notifierState this) e;
  ret (default VUndefined x).

(** [this.listeners[e] = x] and [this.notifierState[e] = x] *)
Definition writeListeners (e : string) (x : list (option ListenerCallback))
  : M ChangeNotifier unit :=
  this ← get;
  listeners' ← setProp (listeners this) e x;
  put {| listeners := listeners'; notifierState := notifierState this |}.

Definition writeState (e : string) (x : value) : M ChangeNotifier unit :=
  this ← get;
  notifierState' ← setProp (notifierState this) e x;
  put {| listeners := listeners this; notifierState := notifierState' |}.

(** The own state entry of an event, [undefined] when there is none. *)
Definition stateOf (this : ChangeNotifier) (e : string) : value :=
  default VUndefined (notifierState this !! e).

(** The entries of the set [callbacks] of a running [notify]. *)
Definition entriesAt (e : string) (this : ChangeNotifier) : list (option ListenerCallback) :=
  default [] (listeners this !! e).

Section methods.

Variable fuel : nat.
Variable behave : ListenerCallback → value → M ChangeNotifier unit.

Definition notify (eventName data : value) (caller : string) : M ChangeNotifier unit :=
  if negb (validateEvent eventName) then raise InvalidEventName eventName
  else
    let e := key eventName in
    this ← get;
    callbacks ← prop (listeners this) e;
    match callbacks with
    | None => emit (WarnNoListeners e caller)
    | Some _ =>
        stateData ←
          (if checkValidObject data
           then prior ← readState e;
                ret (spread2 (or_else prior (VObj ∅)) data)
           else ret data);
        writeState e stateData ;;
        forEach fuel behave (entriesAt e) stateData 0 ;;
        emit (LogNotify e caller data)
    end.

Definition listen (eventName callback initialState : value) : M ChangeNotifier unit :=
  let initialState := defaultParam initialState (VObj ∅) in
  if negb (validateEvent eventName) || negb (checkValidFunction callback)
  then raise InvalidParameters eventName
  else
    let e := key eventName in
    this ← get;
    callbacks ← prop (listeners this) e;
    (if absent callbacks
     then writeListeners e [] ;;
          writeState e initialState
     else ret tt) ;;
    this ← get;
    callbacks ← prop (listeners this) e;
    match callbacks with
    | None => throw TypeError
    | Some set => writeListeners e (add callback set)
    end ;;
    state ← readState e;
    if notNull state || (checkValidObject state && truthy (objectKeys state))
    then state ← readState e;
         notify eventName state "notifier_default"
    else ret tt.

Definition unsubscribe (eventName callback : value) : M ChangeNotifier unit :=
  if negb (validateEvent eventName) then raise NoListenersToUnsubscribe eventName
  else
    let e := key eventName in
    this ← get;
    callbacks ← prop (listeners this) e;
    match callbacks with
    | None => raise NoListenersToUnsubscribe eventName
    | Some _ =>
        this ← get;
        callbacks ← prop (listeners this) e;
        match callbacks with
        | None => throw TypeError
        | Some set =>
            let (found, set') := delete_ callback set in
            writeListeners e set' ;;
            if found then ret tt else emit (WarnCannotUnsubscribe e)
        end
    end.

Inductive call :=
  | Notify (eventName data : value) (caller : string)
  | Listen (eventName callback initialState : value)
  | Unsubscribe (eventName callback : value).

Definition exec (this : ChangeNotifier) (c : call) : ChangeNotifier :=
  match c with
  | Notify ev d caller => store (notify ev d caller this)
  | Listen ev cb i => store (listen ev cb i this)
  | Unsubscribe ev cb => store (unsubscribe ev cb this)
  end.

Definition after (h : list call) : ChangeNotifier := foldl exec init h.

End methods.

(** A plain call, as for the sliced registry. *)
Definition plainCall (c : call) : bool :=
  match c with
  | Notify ev _ _ | Listen ev _ _ | Unsubscribe ev _ => interpolates ev && plain (key ev)
  end.

Definition listensTo (e : string) (c : call) : Prop :=
  match c with
  | Listen ev cb _ =>
      validateEvent ev = true ∧ checkValidFunction cb = true ∧ key ev = e
  | _ => False
  end.

Record wf (n : nat) (this : ChangeNotifier) : Prop := {
  wf_events : ∀ e, is_Some (listeners this !! e) ↔ is_Some (notifierState this !! e);
  wf_sets : ∀ e set, listeners this !! e = Some set → NoDup (members set);
  wf_short : ∀ e set, listeners this !! e = Some set → (List.length set ≤ n)%nat
}.

End Flat.

(** ** Kinds of errors

    The classes define no error types of their own: every throw is a plain
    [Error], told apart by its message.  The specification speaks of two
    kinds, InvalidArgument (a rejected event name or callback) and NotFound
    (a "no listeners for this event" error).  [kindOf] gives each message
    the kind whose description it carries; a fault of the runtime or of a
    listener is neither, and a run that left the model has no kind. *)
Inductive errorKind := InvalidArgument | NotFound | RuntimeFault | Unmodelled.

Definition kindOf (e : error) : errorKind :=
  match e with
  | InvalidEventName _ | InvalidParameters _ => InvalidArgument
  | NoListenersToUnsubscribe _ => NotFound
  | TypeError | Thrown _ => RuntimeFault
  | Beyond _ => Unmodelled
  end.

(** ** The singleton ([getInstance])

    Both classes keep their one instance in a static field, [undefined]
    until the first [getInstance()].  The program state is that field; a
    method call [ChangeNotifier.getInstance().m(...)] runs [m] on the object
    the field holds. *)

Module Singleton.

Definition getInstance {R} (new : R) : M (option R) unit :=
  instance ← get;
  if absent instance then put (Some new) else ret tt.

(** [m] on the object a field holds ([undefined.m(...)] is a TypeError). *)
Definition call {R A} (m : M R A) : M (option R) A := λ instance,
  match instance with
  | None => Run (inl TypeError) instance []
  | Some this => match m this with Run r this' t => Run r (Some this') t end
  end.

Definition onInstance {R A} (new : R) (m : M R A) : M (option R) A :=
  getInstance new ;; call m.

End Singleton.

(** ** The React hook ([src/useNotifier.ts])

    The hook works on the sliced registry.  React's part is its contract:
    [useState(x)] takes [x] on the first render only, [useCallback(f, [])]
    keeps one function for the life of the component, the effect runs
    after the first render, its cleanup on unmount and before the effect
    runs again, and [setState(data)] makes [data] the state of the next
    render. *)

Module UseNotifier.


(** One use of the hook in a mounted component: its arguments and its
    [handleUpdate] function. *)
Record hook := {
  eventName : string;
  initialState : value;
  sliceName : string;
  caller : string;
  handleUpdate : ListenerCallback
}.


(** The effect handed to [useEffect], and the cleanup it returns. *)
Definition useEffect (k : hook) : M Sliced.ChangeNotifier unit :=
  Sliced.listen (VStr (eventName k)) (VFun (handleUpdate k)) (initialState k) (sliceName k).

Definition cleanup (k : hook) : M Sliced.ChangeNotifier unit :=
  Sliced.unsubscribe (VStr (eventName k)) (VFun (handleUpdate k)) (sliceName k).

(** The [notify] the hook returns: the event name is its own parameter, the
    slice and the caller are the hook's. *)
Definition notify (fuel : nat) (behave : ListenerCallback → value → M Sliced.ChangeNotifier unit)
    (k : hook) (eventName data : value) : M Sliced.ChangeNotifier unit :=
  Sliced.notify fuel behave eventName data (sliceName k) (caller k).


End UseNotifier.

(** ** Reading a history of the sliced registry

    What a history of calls says about one key (e, s), call by call: the
    state entry it leaves, and whether it leaves a function [f] subscribed. *)

Definition forKey (e s : string) (ev : value) (s' : string) : bool :=
  validateEvent ev && bool_decide (key ev = e ∧ s' = s).

Definition isCallback (f : ListenerCallback) (callback : value) : bool :=
  match callback with VFun g => bool_decide (g = f) | _ => false end.

Definition stateStep (e s : string) (st : option value) (c : Sliced.call) : option value :=
  match c with
  | Sliced.Listen ev cb i s' =>
      if forKey e s ev s' && Sliced.checkValidFunction cb
      then Some (default (defaultParam i (VObj ∅)) st)
      else st
  | Sliced.Notify ev d s' _ =>
      if forKey e s ev s' then (λ prior, stateData prior d) <$> st else st
  | _ => st
  end.

Definition stateAfter (e s : string) (h : list Sliced.call) : option value :=
  foldl (stateStep e s) None h.

Definition subscribedStep (e s : string) (f : ListenerCallback) (b : bool) (c : Sliced.call)
  : bool :=
  match c with
  | Sliced.Listen ev cb _ s' =>
      if forKey e s ev s' && Sliced.checkValidFunction cb && isCallback f cb then true else b
  | Sliced.Unsubscribe ev cb s' => if forKey e s ev s' && isCallback f cb then false else b
  | _ => b
  end.

Definition subscribedAfter (e s : string) (f : ListenerCallback) (h : list Sliced.call) : bool :=
  foldl (subscribedStep e s f) false h.

(** The same reading of the state for the flat registry, one event [e]. *)
Definition flatStateStep (e : string) (st : option value) (c : Flat.call) : option value :=
  match c with
  | Flat.Listen ev cb i =>
      if validateEvent ev && bool_decide (key ev = e) && Flat.checkValidFunction cb
      then Some (default (defaultParam i (VObj ∅)) st)
      else st
  | Flat.Notify ev d _ =>
      if validateEvent ev && bool_decide (key ev = e)
      then (λ prior, stateData prior d) <$> st
      else st
  | _ => st
  end.

Definition flatStateAfter (e : string) (h : list Flat.call) : option value :=
  foldl (flatStateStep e) None h.

(** ** Sample values, listeners and histories *)

Definition count (n : Z) : value := VObj {["count" := VNum n]}.

Definition sliced_listening : list Sliced.call :=
  [Sliced.Listen (VStr "evt") (VFun (Fn 1)) (count 0) "sliceA"].

Definition flat_listening : list Flat.call :=
  [Flat.Listen (VStr "evt") (VFun (Fn 1)) (count 0)].

(** A world in which the listener [Fn 1] throws and every other listener
    returns. *)
Definition first_throws {S} : ListenerCallback → value → M S unit := λ f _,
  match f with Fn 1 => throw (Thrown f) | _ => ret tt end.

(** A world in which the listener [Fn 2] of the flat registry, handed a
    record whose [count] is not 7, notifies the event "evt" with
    [{ count: 7 }], and every other listener returns.  [depth] bounds the
    nesting of the calls. *)
Fixpoint normalises (fuel depth : nat) : ListenerCallback → value → M Flat.ChangeNotifier unit :=
  match depth with
  | 0 => λ _ _, throw (Beyond OutOfFuel)
  | S depth' => λ f data,
      match f, data with
      | Fn 2, VObj fields =>
          match fields !! "count" with
          | Some (VNum 7) => ret tt
          | _ => Flat.notify fuel (normalises fuel depth') (VStr "evt") (count 7) "normalise"
          end
      | _, _ => ret tt
      end
  end.

(** A world in which the listener [Fn 1] of the sliced registry, when
    called, unsubscribes [Fn 2] from the pair ("evt", "sliceA") and
    subscribes [Fn 3] to it, and every other listener returns. *)
Definition swaps : ListenerCallback → value → M Sliced.ChangeNotifier unit := λ f _,
  match f with
  | Fn 1 =>
      Sliced.unsubscribe (VStr "evt") (VFun (Fn 2)) "sliceA" ;;
      Sliced.listen (VStr "evt") (VFun (Fn 3)) VUndefined "sliceA"
  | _ => ret tt
  end.

(** A computation that leaves no trace. *)
Definition silent {S A} (m : M S A) : Prop := ∀ s, trace (m s) = [].

(** * Properties *)

(** ** The monad, property reads and the sets *)

Ltac unfold_m :=
  unfold mbind, mret, M_bind, M_ret, bind, ret, get, put, throw, emit in *.

(** Run a method on a registry whose relevant lookups are hypotheses. *)
Ltac run_m :=
  repeat (progress (simpl;
                    rewrite ?lookup_insert_eq, ?lookup_empty;
                    repeat match goal with
                           | H : ?x = _ |- context [?x] => rewrite H
                           end)).

Lemma plain_not_inherited (name : string) : plain name = true → inherited name = false.
Proof. unfold plain. by intros ?%negb_true_iff. Qed.

Lemma prop_plain {S A} (own : gmap string A) (name : string) (this : S) :
  plain name = true → prop own name this = Run (inr (own !! name)) this [].
Proof.
  intros H%plain_not_inherited. unfold prop. rewrite H. by destruct (own !! name).
Qed.

Lemma setProp_plain {S A} (own : gmap string A) (name : string) (x : A) (this : S) :
  plain name = true → setProp own name x this = Run (inr (<[name := x]> own)) this [].
Proof. intros H%plain_not_inherited. unfold setProp. by rewrite H. Qed.

Lemma raise_printable {S A} (message : value → error) (ev : value) (this : S) :
  interpolates ev = true →
  raise (A := A) message ev this = Run (inl (message ev)) this [].
Proof. intros H. unfold raise. by rewrite H. Qed.

Lemma calls_app (t1 t2 : list effect) : calls (t1 ++ t2) = calls t1 ++ calls t2.
Proof. unfold calls. by rewrite omap_app. Qed.

Lemma calls_Call (l : list ListenerCallback) (v : value) :
  calls ((λ cb, Call cb v) <$> l) = (λ cb, (cb, v)) <$> l.
Proof. unfold calls. induction l as [|cb l IH]; simpl in *; [done|]. by f_equal. Qed.

Lemma invoked_Call (l : list ListenerCallback) (v : value) :
  invoked ((λ cb, Call cb v) <$> l) = l.
Proof.
  unfold invoked. rewrite calls_Call, <- list_fmap_compose.
  induction l as [|cb l IH]; simpl in *; [done|]. by f_equal.
Qed.

(** With listeners that return and leave the registry alone, and fuel for
    every entry, [forEach] calls the members of the set in order. *)
Lemma forEach_inert {R} (fuel : nat) (behave : ListenerCallback → value → M R unit)
    (entriesOf : R → list (option ListenerCallback)) (v : value) (index : nat) (this : R) :
  inert behave → (List.length (entriesOf this) - index < fuel)%nat →
  forEach fuel behave entriesOf v index this
  = Run (inr tt) this ((λ cb, Call cb v) <$> members (drop index (entriesOf this))).
Proof.
  intros Hb. revert index. induction fuel as [|fuel IH]; intros index Hlen; [lia|].
  simpl. unfold_m. simpl.
  destruct (entriesOf this !! index) as [[cb|]|] eqn:Hi.
  - pose proof (lookup_lt_Some _ _ _ Hi).
    rewrite (drop_S _ _ _ Hi). simpl. rewrite Hb. simpl.
    rewrite IH by lia. done.
  - pose proof (lookup_lt_Some _ _ _ Hi).
    rewrite (drop_S _ _ _ Hi). simpl. rewrite IH by lia. done.
  - apply lookup_ge_None in Hi. by rewrite drop_ge.
Qed.

Lemma forEach_all {R} (fuel : nat) (behave : ListenerCallback → value → M R unit)
    (entriesOf : R → list (option ListenerCallback)) (v : value) (this : R) :
  inert behave → (List.length (entriesOf this) < fuel)%nat →
  forEach fuel behave entriesOf v 0 this
  = Run (inr tt) this ((λ cb, Call cb v) <$> members (entriesOf this)).
Proof. intros Hb Hlen. rewrite forEach_inert by (done || lia). done. Qed.

Lemma quiet_inert {S} : inert (S := S) quiet.
Proof. done. Qed.

(** *** Sets *)

Lemma members_elem (f : ListenerCallback) (set : list (option ListenerCallback)) :
  f ∈ members set ↔ Some f ∈ set.
Proof.
  unfold members. rewrite list_elem_of_omap. split.
  - intros ([g|] & Hin & Heq); simplify_eq/=. done.
  - intros Hin. exists (Some f). done.
Qed.

Lemma members_app (l k : list (option ListenerCallback)) :
  members (l ++ k) = members l ++ members k.
Proof. unfold members. by rewrite omap_app. Qed.

Lemma members_set_add (f : ListenerCallback) (set : list (option ListenerCallback)) :
  members (set_add f set)
  = if decide (f ∈ members set) then members set else members set ++ [f].
Proof.
  unfold set_add. case_decide as Hin.
  - rewrite decide_True by by apply members_elem. done.
  - rewrite decide_False by by rewrite members_elem. by rewrite members_app.
Qed.

Lemma set_add_NoDup (f : ListenerCallback) (set : list (option ListenerCallback)) :
  NoDup (members set) → NoDup (members (set_add f set)).
Proof.
  intros H. rewrite members_set_add. case_decide; [done|].
  apply NoDup_app. split_and!; [done| |apply NoDup_singleton].
  intros x Hx ->%list_elem_of_singleton. done.
Qed.

Lemma set_add_elem (f g : ListenerCallback) (set : list (option ListenerCallback)) :
  g ∈ members (set_add f set) ↔ g = f ∨ g ∈ members set.
Proof.
  rewrite members_set_add. case_decide.
  - naive_solver.
  - rewrite elem_of_app, list_elem_of_singleton. naive_solver.
Qed.

Lemma set_add_idemp (f : ListenerCallback) (set : list (option ListenerCallback)) :
  set_add f (set_add f set) = set_add f set.
Proof.
  unfold set_add at 1. rewrite decide_True; [done|].
  apply members_elem, set_add_elem. by left.
Qed.

Lemma set_add_length (f : ListenerCallback) (set : list (option ListenerCallback)) :
  (List.length (set_add f set) ≤ S (List.length set))%nat.
Proof. unfold set_add. case_decide; [lia|]. rewrite length_app. simpl. lia. Qed.

Lemma add_length (callback : value) (set : list (option ListenerCallback)) :
  (List.length (add callback set) ≤ S (List.length set))%nat.
Proof. destruct callback; simpl; try lia. apply set_add_length. Qed.

Lemma members_set_delete (f : ListenerCallback) (set : list (option ListenerCallback)) :
  members (set_delete f set).2 = filter (λ g, g ≠ f) (members set).
Proof.
  unfold set_delete, members. simpl. induction set as [|[g|] set IH]; simpl; [done| |done].
  case_decide as Heq.
  - simplify_eq. rewrite filter_cons_False by naive_solver. done.
  - rewrite filter_cons_True by naive_solver. simpl. by f_equal.
Qed.

Lemma members_fmap_delete (f : ListenerCallback) (set : list (option ListenerCallback)) :
  members ((λ entry, if decide (entry = Some f) then None else entry) <$> set)
  = filter (λ g, g ≠ f) (members set).
Proof. apply members_set_delete. Qed.

Lemma set_delete_found (f : ListenerCallback) (set : list (option ListenerCallback)) :
  (set_delete f set).1 = bool_decide (f ∈ members set).
Proof. unfold set_delete. simpl. apply bool_decide_ext. by rewrite members_elem. Qed.

Lemma set_delete_absent (f : ListenerCallback) (set : list (option ListenerCallback)) :
  f ∉ members set → set_delete f set = (false, set).
Proof.
  intros Hf. unfold set_delete. f_equal.
  - apply bool_decide_eq_false. by rewrite <- members_elem.
  - rewrite <- (list_fmap_id set) at 2. apply list_fmap_ext. intros i x Hx. simpl.
    case_decide; [|done]. subst. destruct Hf. apply members_elem.
    by eapply list_elem_of_lookup_2.
Qed.

Lemma delete_length (callback : value) (set : list (option ListenerCallback)) :
  List.length (delete_ callback set).2 = List.length set.
Proof. destruct callback; simpl; try done. by rewrite length_fmap. Qed.

Lemma delete_NoDup (callback : value) (set : list (option ListenerCallback)) :
  NoDup (members set) → NoDup (members (delete_ callback set).2).
Proof.
  intros H. destruct callback; try done. unfold delete_.
  rewrite members_set_delete. by apply NoDup_filter.
Qed.

Lemma filter_absent (f : ListenerCallback) (set : list ListenerCallback) :
  f ∉ set → filter (λ x, x ≠ f) set = set.
Proof.
  induction set as [|g set IH]; [done|]. intros Hf.
  apply not_elem_of_cons in Hf as [Hne Hf].
  rewrite filter_cons_True by done. by rewrite IH.
Qed.

(** *** Two-level maps *)

Lemma lookup2_insert {A} (m : gmap string (gmap string A)) (inner : gmap string A)
    (e s e' s' : string) (x : A) :
  default ∅ (m !! e) = inner →
  <[e := <[s := x]> inner]> m !! e' ≫= (.!! s')
  = if decide (e' = e ∧ s' = s) then Some x else m !! e' ≫= (.!! s').
Proof.
  intros Hin. destruct (decide (e' = e)) as [->|Hne].
  - rewrite lookup_insert_eq. simpl. destruct (decide (s' = s)) as [->|Hs].
    + rewrite lookup_insert_eq. by rewrite decide_True.
    + rewrite lookup_insert_ne by done. rewrite decide_False by naive_solver.
      subst inner. by destruct (m !! e) as [inner'|].
  - rewrite lookup_insert_ne by done. by rewrite decide_False by naive_solver.
Qed.

Lemma is_Some_insert_present {A} (m : gmap string A) (e e' : string) (x : A) :
  is_Some (m !! e) → (is_Some (<[e := x]> m !! e') ↔ is_Some (m !! e')).
Proof.
  intros He. destruct (decide (e' = e)) as [->|Hne].
  - rewrite lookup_insert_eq. split; eauto.
  - by rewrite lookup_insert_ne.
Qed.

Lemma is_Some_insert_any {A} (m : gmap string A) (e e' : string) (x : A) :
  is_Some (<[e := x]> m !! e') ↔ e' = e ∨ is_Some (m !! e').
Proof.
  destruct (decide (e' = e)) as [->|Hne].
  - rewrite lookup_insert_eq. split; eauto.
  - rewrite lookup_insert_ne by done. naive_solver.
Qed.

(** *** Arguments *)

Lemma valid_event ev :
  validateEvent ev = true → ev = VStr (key ev) ∧ key ev ≠ "".
Proof.
  destruct ev; unfold validateEvent; simpl; rewrite ?andb_false_r; try discriminate.
  rewrite andb_true_r. intros H%negb_true_iff%String.eqb_neq. done.
Qed.

Lemma invalid_event ev :
  validateEvent ev = false ↔ ev = VStr "" ∨ typeof ev ≠ "string".
Proof.
  destruct ev; unfold validateEvent; simpl; rewrite ?andb_false_r;
    try (split; [by right|done]).
  rewrite andb_true_r, negb_false_iff, String.eqb_eq. split.
  - intros ->. by left.
  - intros [[=]|]; done.
Qed.

Lemma valid_event_printable ev : validateEvent ev = true → interpolates ev = true.
Proof. intros [-> _]%valid_event. done. Qed.

(** The value [notify] stores. *)
Lemma stateData_record (prior : value) (d : gmap string value) :
  d !! "constructor" = None → stateData prior (VObj d) = VObj (d ∪ ownProps (or_else prior (VObj ∅))).
Proof. intros H. unfold stateData, checkValidObject, constructorIsObject. simpl. by rewrite H. Qed.

Lemma stateData_records (p d : gmap string value) :
  d !! "constructor" = None → stateData (VObj p) (VObj d) = VObj (d ∪ p).
Proof. intros H. by rewrite stateData_record. Qed.

Lemma stateData_other (prior data : value) :
  (∀ d, data ≠ VObj d) → stateData prior data = data.
Proof. intros H. destruct data; try done. by destruct (H fields). Qed.

Lemma stateData_self (v : value) : stateData v v = v.
Proof.
  unfold stateData. destruct (checkValidObject v) eqn:Hv; [|done].
  destruct v; try done. unfold spread2, or_else. simpl. by rewrite (idemp_L (∪)).
Qed.

(** The guard of the replay in [Flat.listen] holds exactly when the state is
    not [null]: its second disjunct needs a plain object, which is not null. *)
Lemma replay_guard (v : value) :
  notNull v || (checkValidObject v && truthy (objectKeys v)) = notNull v.
Proof. by destruct v. Qed.

(** ** The sliced registry, method by method

    The equations of this section hold for names that no object inherits,
    for listeners that return and leave the registry alone, and with fuel
    for every entry of the set. *)

Ltac plain_m :=
  repeat (progress (simpl;
                    rewrite ?prop_plain, ?setProp_plain by assumption;
                    rewrite ?lookup_insert_eq, ?lookup_empty;
                    repeat match goal with
                           | H : ?x = _ |- context [?x] => rewrite H
                           end)).

Section sliced_methods.
Import Sliced.
Variable fuel : nat.
Variable behave : ListenerCallback → value → M ChangeNotifier unit.
Hypothesis behave_inert : inert behave.
Implicit Types (this : ChangeNotifier) (ev data callback : value) (e s caller : string).

Lemma sliced_notify_invalid this ev data s caller :
  validateEvent ev = false → interpolates ev = true →
  notify fuel behave ev data s caller this = Run (inl (InvalidEventName ev)) this [].
Proof. intros H Hp. unfold notify. rewrite H. simpl. by apply raise_printable. Qed.

Lemma sliced_notify_invalid_store this ev data s caller :
  validateEvent ev = false →
  store (notify fuel behave ev data s caller this) = this.
Proof. intros H. unfold notify, raise. rewrite H. simpl. by destruct (interpolates ev). Qed.

Lemma sliced_notify_no_event this ev data s caller :
  validateEvent ev = true → plain (key ev) = true →
  listeners this !! key ev = None →
  notify fuel behave ev data s caller this
  = Run (inr tt) this [WarnNoListeners (key ev) caller].
Proof. intros H1 Hp H2. unfold notify. rewrite H1. unfold_m. by plain_m. Qed.

Lemma sliced_notify_no_slice this ev data s caller ls :
  validateEvent ev = true → plain (key ev) = true → plain s = true →
  listeners this !! key ev = Some ls → ls !! s = None →
  notify fuel behave ev data s caller this
  = Run (inr tt) this [WarnNoSliceListeners s (key ev) caller].
Proof.
  intros H1 Hp Hq H2 H3. unfold notify, readListeners. rewrite H1. unfold_m. by plain_m.
Qed.

Lemma sliced_notify_hit this ev data s caller ls set st :
  validateEvent ev = true → plain (key ev) = true → plain s = true →
  listeners this !! key ev = Some ls → ls !! s = Some set →
  notifierState this !! key ev = Some st →
  (List.length set < fuel)%nat →
  notify fuel behave ev data s caller this
  = let v := stateData (default VUndefined (st !! s)) data in
    let ns := <[key ev := <[s := v]> st]> (notifierState this) in
    Run (inr tt) {| listeners := listeners this; notifierState := ns |}
        (((λ cb, Call cb v) <$> members set) ++ [LogNotify (key ev) caller data; LogState ns]).
Proof.
  intros H1 Hp Hq H2 H3 H4 Hlen.
  unfold notify, readListeners, readState, writeState, stateData.
  rewrite H1. unfold mbind, mret, M_bind, M_ret, bind, ret, get, put, throw.
  destruct (checkValidObject data); plain_m;
    (rewrite forEach_all; [|done|unfold entriesAt, callbacksAt; simpl; by rewrite H2; simpl; rewrite H3]);
    unfold entriesAt, callbacksAt; simpl; rewrite H2; simpl; rewrite H3; simpl; done.
Qed.

Lemma sliced_listen_invalid this ev callback i s :
  validateEvent ev = false ∨ checkValidFunction callback = false →
  interpolates ev = true →
  listen ev callback i s this = Run (inl (InvalidParameters ev)) this [].
Proof.
  intros H Hp. unfold listen.
  assert (negb (validateEvent ev) || negb (checkValidFunction callback) = true) as ->
    by (destruct H as [-> | ->]; [done|by rewrite orb_true_r]).
  by apply raise_printable.
Qed.

Lemma sliced_listen_invalid_store this ev callback i s :
  validateEvent ev = false ∨ checkValidFunction callback = false →
  store (listen ev callback i s this) = this.
Proof.
  intros H. unfold listen, raise.
  assert (negb (validateEvent ev) || negb (checkValidFunction callback) = true) as ->
    by (destruct H as [-> | ->]; [done|by rewrite orb_true_r]).
  by destruct (interpolates ev).
Qed.

Lemma sliced_listen_new_event this ev f i s :
  validateEvent ev = true → checkValidFunction (VFun f) = true →
  plain (key ev) = true → plain s = true →
  listeners this !! key ev = None ∨ notifierState this !! key ev = None →
  listen ev (VFun f) i s this
  = Run (inr tt)
        {| listeners := <[key ev := {[s := [Some f]]}]> (listeners this);
           notifierState :=
             <[key ev := {[s := defaultParam i (VObj ∅)]}]> (notifierState this) |} [].
Proof.
  intros H1 Hf Hp Hq H2. unfold listen, readListeners, writeListeners, writeState.
  rewrite H1, Hf. unfold_m. simpl. rewrite prop_plain by done. simpl.
  destruct (listeners this !! key ev) as [ls|] eqn:Hl.
  - destruct H2 as [[=]|H2]. plain_m. by rewrite !insert_insert_eq.
  - plain_m. by rewrite !insert_insert_eq.
Qed.

Lemma sliced_listen_new_slice this ev f i s ls st :
  validateEvent ev = true → checkValidFunction (VFun f) = true →
  plain (key ev) = true → plain s = true →
  listeners this !! key ev = Some ls → notifierState this !! key ev = Some st →
  ls !! s = None →
  listen ev (VFun f) i s this
  = Run (inr tt)
        {| listeners := <[key ev := <[s := [Some f]]> ls]> (listeners this);
           notifierState :=
             <[key ev := <[s := defaultParam i (VObj ∅)]> st]> (notifierState this) |} [].
Proof.
  intros H1 Hf Hp Hq H2 H3 H4. unfold listen, readListeners, writeListeners, writeState.
  rewrite H1, Hf. unfold_m. plain_m. by rewrite !insert_insert_eq.
Qed.

Lemma sliced_listen_old_slice this ev f i s ls st set :
  validateEvent ev = true → checkValidFunction (VFun f) = true →
  plain (key ev) = true → plain s = true →
  listeners this !! key ev = Some ls → notifierState this !! key ev = Some st →
  ls !! s = Some set →
  listen ev (VFun f) i s this
  = Run (inr tt)
        {| listeners := <[key ev := <[s := set_add f set]> ls]> (listeners this);
           notifierState := notifierState this |} [].
Proof.
  intros H1 Hf Hp Hq H2 H3 H4. unfold listen, readListeners, writeListeners, writeState.
  rewrite H1, Hf. unfold_m. by plain_m.
Qed.

Lemma sliced_unsubscribe_invalid this ev callback s :
  validateEvent ev = false ∨ (plain (key ev) = true ∧ listeners this !! key ev = None) →
  interpolates ev = true →
  unsubscribe ev callback s this = Run (inl (NoListenersToUnsubscribe ev)) this [].
Proof.
  intros [H|[Hp H]] Hi; unfold unsubscribe; unfold_m; simpl.
  - rewrite H. simpl. by rewrite raise_printable.
  - destruct (validateEvent ev); simpl; [|by rewrite raise_printable].
    rewrite prop_plain by done. simpl. rewrite H. simpl. by rewrite raise_printable.
Qed.

Lemma sliced_unsubscribe_invalid_store this ev callback s :
  validateEvent ev = false ∨ (plain (key ev) = true ∧ listeners this !! key ev = None) →
  store (unsubscribe ev callback s this) = this.
Proof.
  intros [H|[Hp H]]; unfold unsubscribe, raise; unfold_m; simpl.
  - rewrite H. simpl. by destruct (interpolates ev).
  - destruct (validateEvent ev); simpl; [|by destruct (interpolates ev)].
    rewrite prop_plain by done. simpl. rewrite H. simpl. by destruct (interpolates ev).
Qed.

Lemma sliced_unsubscribe_no_slice this ev callback s ls :
  validateEvent ev = true → plain (key ev) = true → plain s = true →
  listeners this !! key ev = Some ls → ls !! s = None →
  unsubscribe ev callback s this = Run (inr tt) this [WarnCannotUnsubscribe (key ev)].
Proof.
  intros H1 Hp Hq H2 H3. unfold unsubscribe, readListeners. unfold_m. by plain_m.
Qed.

Lemma sliced_unsubscribe_slice this ev callback s ls set :
  validateEvent ev = true → plain (key ev) = true → plain s = true →
  listeners this !! key ev = Some ls → ls !! s = Some set →
  unsubscribe ev callback s this
  = Run (inr tt)
        {| listeners := <[key ev := <[s := (delete_ callback set).2]> ls]> (listeners this);
           notifierState := notifierState this |}
        (if (delete_ callback set).1 then [] else [WarnCannotUnsubscribe (key ev)]).
Proof.
  intros H1 Hp Hq H2 H3. unfold unsubscribe, readListeners, writeListeners. unfold_m.
  plain_m. destruct (delete_ callback set) as [[] set']; by plain_m.
Qed.

Lemma sliced_getState_eq this e s :
  plain e = true → plain s = true →
  getState e s this = Run (inr (default VUndefined (stateAt this e s))) this [].
Proof.
  intros Hp Hq. unfold getState, stateAt. unfold_m. plain_m.
  destruct (notifierState this !! e) as [inner|]; plain_m; done.
Qed.

End sliced_methods.

(** ** What each sliced method does to a well-formed registry *)

Section sliced_effects.
Import Sliced.
Variable fuel : nat.
Variable behave : ListenerCallback → value → M ChangeNotifier unit.
Hypothesis behave_inert : inert behave.
Implicit Types (this : ChangeNotifier) (ev data callback : value) (e s caller : string).
Implicit Types (n : nat).

Lemma wf_init : wf 0 init.
Proof.
  split; intros *; unfold callbacksAt, stateAt; simpl; rewrite ?lookup_empty; simpl.
  - done.
  - done.
  - intros [=].
  - intros [=].
Qed.

Lemma wf_mono n m this : wf n this → (n ≤ m)%nat → wf m this.
Proof.
  intros [H1 H2 H3 H4] Hle. split; [done..|].
  intros e s set Hset. specialize (H4 e s set Hset). lia.
Qed.

Lemma wf_both n this e :
  wf n this →
  (listeners this !! e = None ∧ notifierState this !! e = None)
  ∨ (∃ ls st, listeners this !! e = Some ls ∧ notifierState this !! e = Some st).
Proof.
  intros [Hev _ _ _]. specialize (Hev e).
  destruct (listeners this !! e) as [ls|], (notifierState this !! e) as [st|]; eauto.
  - destruct Hev as [[? [=]] _]; eauto.
  - destruct Hev as [_ [? [=]]]; eauto.
Qed.

(** An accepted [listen]. *)
Lemma sliced_listen_accepted n this ev f i s :
  wf n this → validateEvent ev = true → checkValidFunction (VFun f) = true →
  plain (key ev) = true → plain s = true →
  ∃ r', listen ev (VFun f) i s this = Run (inr tt) r' []
    ∧ (∀ e', is_Some (listeners r' !! e') ↔ e' = key ev ∨ is_Some (listeners this !! e'))
    ∧ (∀ e', is_Some (notifierState r' !! e')
             ↔ e' = key ev ∨ is_Some (notifierState this !! e'))
    ∧ (∀ e' s', callbacksAt r' e' s'
                = if decide (e' = key ev ∧ s' = s)
                  then Some (set_add f (default [] (callbacksAt this (key ev) s)))
                  else callbacksAt this e' s')
    ∧ (∀ e' s', stateAt r' e' s'
                = if decide (e' = key ev ∧ s' = s)
                  then Some (default (defaultParam i (VObj ∅)) (stateAt this (key ev) s))
                  else stateAt this e' s').
Proof.
  intros Hwf Hev Hf Hp Hq.
  destruct (wf_both n this (key ev) Hwf) as [[Hl Hn]|(ls & st & Hl & Hn)].
  - eexists. split; [apply sliced_listen_new_event; auto|].
    unfold callbacksAt, stateAt. simpl. rewrite Hl, Hn. simpl.
    split_and!; intros *.
    + apply is_Some_insert_any.
    + apply is_Some_insert_any.
    + unfold singletonM, map_singleton. rewrite lookup2_insert by by rewrite Hl. done.
    + unfold singletonM, map_singleton. rewrite lookup2_insert by by rewrite Hn. done.
  - pose proof (wf_slices _ _ Hwf (key ev) s) as Hsl. unfold callbacksAt, stateAt in Hsl.
    rewrite Hl, Hn in Hsl. simpl in Hsl.
    destruct (ls !! s) as [set|] eqn:Hs.
    + destruct Hsl as [[v Hv] _]; [eauto|].
      eexists. split; [eapply sliced_listen_old_slice; eauto|].
      unfold callbacksAt, stateAt. simpl. rewrite Hl, Hn. simpl. rewrite Hs, Hv. simpl.
      split_and!; intros *.
      * apply is_Some_insert_any.
      * split; [auto|]. intros [->|]; [rewrite Hn; eauto|done].
      * rewrite lookup2_insert by by rewrite Hl. done.
      * case_decide as Hd; [|done]. destruct Hd as [-> ->]. rewrite Hn. simpl. done.
    + assert (st !! s = None) as Hv.
      { destruct (st !! s) eqn:E; [|done]. destruct Hsl as [_ [? [=]]]; eauto. }
      eexists. split; [eapply sliced_listen_new_slice; eauto|].
      unfold callbacksAt, stateAt. simpl. rewrite Hl, Hn. simpl. rewrite Hs, Hv. simpl.
      split_and!; intros *.
      * apply is_Some_insert_any.
      * apply is_Some_insert_any.
      * rewrite lookup2_insert by by rewrite Hl. done.
      * rewrite lookup2_insert by by rewrite Hn. done.
Qed.

(** A [notify] with a valid event name. *)
Lemma sliced_notify_accepted n this ev data s caller :
  wf n this → (n < fuel)%nat → validateEvent ev = true →
  plain (key ev) = true → plain s = true →
  ∃ r' t, notify fuel behave ev data s caller this = Run (inr tt) r' t
    ∧ listeners r' = listeners this
    ∧ (∀ e', is_Some (notifierState r' !! e') ↔ is_Some (notifierState this !! e'))
    ∧ match callbacksAt this (key ev) s with
      | None => r' = this ∧ calls t = []
      | Some set =>
          let v := stateData (default VUndefined (stateAt this (key ev) s)) data in
          calls t = (λ cb, (cb, v)) <$> members set
          ∧ ∀ e' s', stateAt r' e' s'
                     = if decide (e' = key ev ∧ s' = s) then Some v else stateAt this e' s'
      end.
Proof.
  intros Hwf Hfuel Hev Hp Hq.
  destruct (wf_both n this (key ev) Hwf) as [[Hl Hn]|(ls & st & Hl & Hn)].
  - do 2 eexists. split; [apply sliced_notify_no_event; auto|].
    unfold callbacksAt. rewrite Hl. simpl. done.
  - destruct (ls !! s) as [set|] eqn:Hs.
    + do 2 eexists. split; [eapply sliced_notify_hit; eauto|].
      { pose proof (wf_short _ _ Hwf (key ev) s set) as Hlen.
        unfold callbacksAt in Hlen. rewrite Hl in Hlen. simpl in Hlen.
        specialize (Hlen Hs). lia. }
      unfold callbacksAt, stateAt. simpl. rewrite Hl, Hn. simpl. rewrite Hs.
      split_and!; [done| | |].
      * intros e'. apply is_Some_insert_present. eauto.
      * rewrite calls_app, calls_Call. simpl. by rewrite app_nil_r.
      * intros e' s'. rewrite lookup2_insert by by rewrite Hn. done.
    + do 2 eexists. split; [eapply sliced_notify_no_slice; eauto|].
      unfold callbacksAt. rewrite Hl. simpl. rewrite Hs. done.
Qed.

(** An [unsubscribe] on a registered event. *)
Lemma sliced_unsubscribe_accepted this ev callback s :
  validateEvent ev = true → plain (key ev) = true → plain s = true →
  is_Some (listeners this !! key ev) →
  ∃ r' t, unsubscribe ev callback s this = Run (inr tt) r' t
    ∧ notifierState r' = notifierState this
    ∧ calls t = []
    ∧ (∀ e', is_Some (listeners r' !! e') ↔ is_Some (listeners this !! e'))
    ∧ (∀ e' s', callbacksAt r' e' s'
                = if decide (e' = key ev ∧ s' = s)
                  then (λ set, (delete_ callback set).2) <$> callbacksAt this (key ev) s
                  else callbacksAt this e' s').
Proof.
  intros Hev Hp Hq [ls Hl]. destruct (ls !! s) as [set|] eqn:Hs.
  - do 2 eexists. split; [eapply sliced_unsubscribe_slice; eauto|].
    unfold callbacksAt. simpl. rewrite Hl. simpl. rewrite Hs. simpl.
    split_and!; [done| | |].
    + by destruct (delete_ callback set).1.
    + intros e'. apply is_Some_insert_present. eauto.
    + intros e' s'. rewrite lookup2_insert by by rewrite Hl. done.
  - do 2 eexists. split; [eapply sliced_unsubscribe_no_slice; eauto|].
    unfold callbacksAt. rewrite Hl. simpl. rewrite Hs. simpl.
    split_and!; [done..|].
    intros e' s'. case_decide as Hd; [|done]. destruct Hd as [-> ->].
    rewrite Hl. simpl. done.
Qed.

Lemma valid_function callback :
  checkValidFunction callback = true → ∃ f, callback = VFun f.
Proof. destruct callback; try discriminate. eauto. Qed.

Lemma plainCall_names ev s :
  interpolates ev && plain (key ev) && plain s = true →
  interpolates ev = true ∧ plain (key ev) = true ∧ plain s = true.
Proof. intros [[??]%andb_true_iff ?]%andb_true_iff. done. Qed.

(** The invariant is kept by every call; a call adds at most one entry to
    a set. *)
Lemma wf_exec n this c :
  wf n this → (n < fuel)%nat → plainCall c = true → wf (S n) (exec fuel behave this c).
Proof.
  intros Hwf Hfuel Hc.
  assert (wf (S n) this) as Hwf' by (eapply wf_mono; [done|lia]).
  destruct c as [ev d s caller|ev cb i s|ev cb s|e s]; simpl in *.
  - apply plainCall_names in Hc as (Hi & Hp & Hq).
    destruct (validateEvent ev) eqn:Hev; [|by rewrite sliced_notify_invalid_store].
    destruct (sliced_notify_accepted n this ev d s caller Hwf Hfuel Hev Hp Hq)
      as (r' & t & -> & Hl & Hn & Hcase). simpl.
    split.
    + intros e. rewrite Hl, Hn. apply Hwf.
    + intros e s'. unfold callbacksAt at 1. rewrite Hl. fold (callbacksAt this e s').
      destruct (callbacksAt this (key ev) s) as [set|] eqn:Hc.
      * destruct Hcase as [_ ->]. case_decide as Hd; [|apply Hwf].
        destruct Hd as [-> ->]. rewrite Hc. split; eauto.
      * destruct Hcase as [-> _]. apply Hwf.
    + intros e s' set. unfold callbacksAt. rewrite Hl. apply Hwf.
    + intros e s' set. unfold callbacksAt. rewrite Hl. apply Hwf'.
  - apply plainCall_names in Hc as (Hi & Hp & Hq).
    destruct (validateEvent ev) eqn:Hev; [|by rewrite sliced_listen_invalid_store by auto].
    destruct (checkValidFunction cb) eqn:Hcb;
      [|by rewrite sliced_listen_invalid_store by auto].
    destruct (valid_function _ Hcb) as [f ->].
    destruct (sliced_listen_accepted n this ev f i s Hwf Hev Hcb Hp Hq)
      as (r' & -> & Hl & Hn & Hc & Hs). simpl.
    split.
    + intros e. rewrite Hl, Hn. pose proof (wf_events _ _ Hwf e). naive_solver.
    + intros e s'. rewrite Hc, Hs. case_decide; [split; eauto|apply Hwf].
    + intros e s' set. rewrite Hc. case_decide.
      * intros [= <-]. apply set_add_NoDup.
        destruct (callbacksAt this (key ev) s) eqn:E; [|constructor].
        eapply Hwf; eauto.
      * apply Hwf.
    + intros e s' set. rewrite Hc. case_decide.
      * intros [= <-]. etrans; [apply set_add_length|].
        destruct (callbacksAt this (key ev) s) eqn:E; simpl; [|lia].
        pose proof (wf_short _ _ Hwf _ _ _ E). lia.
      * apply Hwf'.
  - apply plainCall_names in Hc as (Hi & Hp & Hq).
    destruct (validateEvent ev) eqn:Hev;
      [|by rewrite sliced_unsubscribe_invalid_store by auto].
    destruct (listeners this !! key ev) as [ls|] eqn:Hls;
      [|by rewrite sliced_unsubscribe_invalid_store by auto].
    destruct (sliced_unsubscribe_accepted this ev cb s Hev Hp Hq)
      as (r' & t & -> & Hn & _ & Hl & Hc); [eauto|]. simpl.
    split.
    + intros e. rewrite Hl, Hn. apply Hwf.
    + intros e s'. rewrite Hc. unfold stateAt. rewrite Hn.
      fold (stateAt this e s'). case_decide as Hd; [|apply Hwf].
      destruct Hd as [-> ->]. rewrite fmap_is_Some. apply Hwf.
    + intros e s' set. rewrite Hc. case_decide.
      * destruct (callbacksAt this (key ev) s) as [set0|] eqn:E; [|done].
        simpl. intros [= <-]. apply delete_NoDup. eapply Hwf; eauto.
      * apply Hwf.
    + intros e s' set. rewrite Hc. case_decide.
      * destruct (callbacksAt this (key ev) s) as [set0|] eqn:E; [|done].
        simpl. intros [= <-]. rewrite delete_length.
        pose proof (wf_short _ _ Hwf _ _ _ E). lia.
      * apply Hwf'.
  - apply andb_true_iff in Hc as [Hp Hq]. by rewrite sliced_getState_eq.
Qed.

Lemma after_snoc h c :
  after fuel behave (h ++ [c]) = exec fuel behave (after fuel behave h) c.
Proof. unfold after. by rewrite foldl_app. Qed.

Lemma wf_after h :
  forallb plainCall h = true → (List.length h ≤ fuel)%nat →
  wf (List.length h) (after fuel behave h).
Proof.
  induction h as [|c h IH] using rev_ind; [intros; apply wf_init|].
  rewrite forallb_app, length_app. simpl. rewrite andb_true_r.
  intros [Hh Hc]%andb_true_iff Hlen.
  rewrite after_snoc. replace (List.length h + 1)%nat with (S (List.length h)) by lia.
  apply wf_exec; [apply IH; [done|lia]|lia|done].
Qed.

End sliced_effects.

(** ** Histories of the sliced registry *)

Section sliced_histories.
Import Sliced.
Variable fuel : nat.
Variable behave : ListenerCallback → value → M ChangeNotifier unit.
Hypothesis behave_inert : inert behave.
Implicit Types (this : ChangeNotifier) (h : list call) (c : call) (e s : string).
Implicit Types (n : nat).

Lemma exec_callbacksAt n this c e s :
  wf n this → (n < fuel)%nat → plainCall c = true →
  is_Some (callbacksAt (exec fuel behave this c) e s)
  ↔ is_Some (callbacksAt this e s) ∨ listensTo e s c.
Proof.
  intros Hwf Hfuel Hc.
  destruct c as [ev d s0 caller|ev cb i s0|ev cb s0|e0 s0]; simpl in *.
  - apply plainCall_names in Hc as (Hi & Hp & Hq).
    destruct (validateEvent ev) eqn:Hev.
    + destruct (sliced_notify_accepted fuel behave behave_inert n this ev d s0 caller
                  Hwf Hfuel Hev Hp Hq) as (r' & t & -> & Hl & _). simpl.
      unfold callbacksAt. rewrite Hl. naive_solver.
    + rewrite sliced_notify_invalid_store by done. naive_solver.
  - apply plainCall_names in Hc as (Hi & Hp & Hq).
    destruct (validateEvent ev) eqn:Hev;
      [|rewrite sliced_listen_invalid_store by auto; naive_solver].
    destruct (checkValidFunction cb) eqn:Hcb;
      [|rewrite sliced_listen_invalid_store by auto; naive_solver].
    destruct (valid_function _ Hcb) as [f ->].
    destruct (sliced_listen_accepted n this ev f i s0 Hwf Hev Hcb Hp Hq)
      as (r' & -> & _ & _ & Hc & _). simpl.
    rewrite Hc. case_decide as Hd.
    + destruct Hd as [-> ->]. split; [|eauto]. intros _. right. done.
    + split; [by left|]. intros [|(_ & _ & <- & <-)]; [done|]. by destruct Hd.
  - apply plainCall_names in Hc as (Hi & Hp & Hq).
    destruct (validateEvent ev) eqn:Hev;
      [|rewrite sliced_unsubscribe_invalid_store by auto; naive_solver].
    destruct (listeners this !! key ev) as [ls|] eqn:Hls;
      [|rewrite sliced_unsubscribe_invalid_store by auto; naive_solver].
    destruct (sliced_unsubscribe_accepted this ev cb s0 Hev Hp Hq)
      as (r' & t & -> & _ & _ & _ & Hc); [eauto|]. simpl.
    rewrite Hc. case_decide as Hd; [|naive_solver].
    destruct Hd as [-> ->]. rewrite fmap_is_Some. naive_solver.
  - apply andb_true_iff in Hc as [Hp Hq]. rewrite sliced_getState_eq by done.
    naive_solver.
Qed.

(** A pair has a callback set exactly when an accepted [listen] named it. *)
Lemma registered_iff_listened h e s :
  forallb plainCall h = true → (List.length h ≤ fuel)%nat →
  is_Some (callbacksAt (after fuel behave h) e s) ↔ ∃ c, c ∈ h ∧ listensTo e s c.
Proof.
  induction h as [|c h IH] using rev_ind; intros Hplain Hlen.
  - unfold after, callbacksAt. simpl. rewrite lookup_empty. simpl. split.
    + intros [? [=]].
    + intros (c & Hc%elem_of_nil & _). done.
  - rewrite forallb_app in Hplain. simpl in Hplain. rewrite andb_true_r in Hplain.
    apply andb_true_iff in Hplain as [Hh Hc]. rewrite length_app in Hlen. simpl in Hlen.
    rewrite after_snoc.
    rewrite (exec_callbacksAt (List.length h)); [|apply wf_after; [done..|lia]|lia|done].
    rewrite IH by (done || lia). split.
    + intros [(c' & Hin & Hc')|Hc'].
      * exists c'. split; [|done]. apply elem_of_app. by left.
      * exists c. split; [|done]. apply elem_of_app. right. by apply list_elem_of_singleton.
    + intros (c' & [Hin|Heq%list_elem_of_singleton]%elem_of_app & Hc'); subst; eauto.
Qed.

Lemma callbacksAt_event this e s :
  is_Some (callbacksAt this e s) → is_Some (listeners this !! e).
Proof. unfold callbacksAt. destruct (listeners this !! e); [eauto|]. by intros [? [=]]. Qed.

Lemma exec_event n this c e :
  wf n this → (n < fuel)%nat → plainCall c = true →
  is_Some (listeners (exec fuel behave this c) !! e)
  ↔ is_Some (listeners this !! e) ∨ ∃ s, listensTo e s c.
Proof.
  intros Hwf Hfuel Hc.
  destruct c as [ev d s0 caller|ev cb i s0|ev cb s0|e0 s0]; simpl in *.
  - apply plainCall_names in Hc as (Hi & Hp & Hq).
    destruct (validateEvent ev) eqn:Hev.
    + destruct (sliced_notify_accepted fuel behave behave_inert n this ev d s0 caller
                  Hwf Hfuel Hev Hp Hq) as (r' & t & -> & Hl & _). simpl.
      rewrite Hl. naive_solver.
    + rewrite sliced_notify_invalid_store by done. naive_solver.
  - apply plainCall_names in Hc as (Hi & Hp & Hq).
    destruct (validateEvent ev) eqn:Hev;
      [|rewrite sliced_listen_invalid_store by auto; naive_solver].
    destruct (checkValidFunction cb) eqn:Hcb;
      [|rewrite sliced_listen_invalid_store by auto; naive_solver].
    destruct (valid_function _ Hcb) as [f ->].
    destruct (sliced_listen_accepted n this ev f i s0 Hwf Hev Hcb Hp Hq)
      as (r' & -> & Hl & _). simpl.
    rewrite Hl. split.
    + intros [->|]; [right|by left]. exists s0. done.
    + intros [|(s & _ & _ & <- & _)]; eauto.
  - apply plainCall_names in Hc as (Hi & Hp & Hq).
    destruct (validateEvent ev) eqn:Hev;
      [|rewrite sliced_unsubscribe_invalid_store by auto; naive_solver].
    destruct (listeners this !! key ev) as [ls|] eqn:Hls;
      [|rewrite sliced_unsubscribe_invalid_store by auto; naive_solver].
    destruct (sliced_unsubscribe_accepted this ev cb s0 Hev Hp Hq)
      as (r' & t & -> & _ & _ & Hl & _); [eauto|]. simpl.
    rewrite Hl. naive_solver.
  - apply andb_true_iff in Hc as [Hp Hq]. rewrite sliced_getState_eq by done.
    naive_solver.
Qed.

Lemma event_registered_iff_listened h e :
  forallb plainCall h = true → (List.length h ≤ fuel)%nat →
  is_Some (listeners (after fuel behave h) !! e) ↔ ∃ c s, c ∈ h ∧ listensTo e s c.
Proof.
  induction h as [|c h IH] using rev_ind; intros Hplain Hlen.
  - unfold after. simpl. rewrite lookup_empty. split.
    + intros [? [=]].
    + intros (c & s & Hc%elem_of_nil & _). done.
  - rewrite forallb_app in Hplain. simpl in Hplain. rewrite andb_true_r in Hplain.
    apply andb_true_iff in Hplain as [Hh Hc]. rewrite length_app in Hlen. simpl in Hlen.
    rewrite after_snoc.
    rewrite (exec_event (List.length h)); [|apply wf_after; [done..|lia]|lia|done].
    rewrite IH by (done || lia). split.
    + intros [(c' & s & Hin & Hc')|[s Hc']].
      * exists c', s. split; [|done]. apply elem_of_app. by left.
      * exists c, s. split; [|done]. apply elem_of_app. right.
        by apply list_elem_of_singleton.
    + intros (c' & s & [Hin|Heq%list_elem_of_singleton]%elem_of_app & Hc'); subst; eauto.
Qed.

End sliced_histories.

(** ** The flat registry, method by method *)

Section flat_methods.
Import Flat.
Variable fuel : nat.
Variable behave : ListenerCallback → value → M ChangeNotifier unit.
Hypothesis behave_inert : inert behave.
Implicit Types (this : ChangeNotifier) (ev data callback : value) (e caller : string).

Lemma flat_notify_invalid this ev data caller :
  validateEvent ev = false → interpolates ev = true →
  notify fuel behave ev data caller this = Run (inl (InvalidEventName ev)) this [].
Proof. intros H Hp. unfold notify. rewrite H. simpl. by apply raise_printable. Qed.

Lemma flat_notify_invalid_store this ev data caller :
  validateEvent ev = false → store (notify fuel behave ev data caller this) = this.
Proof. intros H. unfold notify, raise. rewrite H. simpl. by destruct (interpolates ev). Qed.

Lemma flat_notify_no_event this ev data caller :
  validateEvent ev = true → plain (key ev) = true → listeners this !! key ev = None →
  notify fuel behave ev data caller this
  = Run (inr tt) this [WarnNoListeners (key ev) caller].
Proof. intros H1 Hp H2. unfold notify. rewrite H1. unfold_m. by plain_m. Qed.

Lemma flat_notify_hit this ev data caller set :
  validateEvent ev = true → plain (key ev) = true →
  listeners this !! key ev = Some set → (List.length set < fuel)%nat →
  notify fuel behave ev data caller this
  = let v := stateData (stateOf this (key ev)) data in
    Run (inr tt)
        {| listeners := listeners this;
           notifierState := <[key ev := v]> (notifierState this) |}
        (((λ cb, Call cb v) <$> members set) ++ [LogNotify (key ev) caller data]).
Proof.
  intros H1 Hp H2 Hlen. unfold notify, readState, writeState, stateData, stateOf.
  rewrite H1. unfold mbind, mret, M_bind, M_ret, bind, ret, get, put, throw.
  destruct (checkValidObject data); plain_m;
    (rewrite forEach_all; [|done|unfold entriesAt; simpl; by rewrite H2]);
    unfold entriesAt; simpl; rewrite H2; simpl; done.
Qed.

Lemma flat_listen_invalid this ev callback i :
  validateEvent ev = false ∨ checkValidFunction callback = false →
  interpolates ev = true →
  listen fuel behave ev callback i this = Run (inl (InvalidParameters ev)) this [].
Proof.
  intros H Hp. unfold listen.
  assert (negb (validateEvent ev) || negb (checkValidFunction callback) = true) as ->
    by (destruct H as [-> | ->]; [done|by rewrite orb_true_r]).
  by apply raise_printable.
Qed.

Lemma flat_listen_invalid_store this ev callback i :
  validateEvent ev = false ∨ checkValidFunction callback = false →
  store (listen fuel behave ev callback i this) = this.
Proof.
  intros H. unfold listen, raise.
  assert (negb (validateEvent ev) || negb (checkValidFunction callback) = true) as ->
    by (destruct H as [-> | ->]; [done|by rewrite orb_true_r]).
  by destruct (interpolates ev).
Qed.

Lemma flat_listen_new this ev f i :
  validateEvent ev = true → plain (key ev) = true →
  listeners this !! key ev = None → (1 < fuel)%nat →
  listen fuel behave ev (VFun f) i this
  = let v := defaultParam i (VObj ∅) in
    Run (inr tt)
        {| listeners := <[key ev := [Some f]]> (listeners this);
           notifierState := <[key ev := v]> (notifierState this) |}
        (if notNull v then [Call f v; LogNotify (key ev) "notifier_default" v] else []).
Proof.
  intros H1 Hp H2 Hfuel. unfold listen, readState, writeListeners, writeState. rewrite H1.
  unfold mbind, mret, M_bind, M_ret, bind, ret, get, put, throw. plain_m.
  rewrite replay_guard, !insert_insert_eq.
  destruct (notNull (defaultParam i (VObj ∅))) eqn:Hnull; [|done].
  plain_m.
  erewrite flat_notify_hit; [|done|done|simpl; apply lookup_insert_eq|simpl; lia].
  simpl. unfold stateOf. simpl. rewrite lookup_insert_eq. simpl.
  by rewrite stateData_self, insert_insert_eq.
Qed.

Lemma flat_listen_old this ev f i set :
  validateEvent ev = true → plain (key ev) = true →
  listeners this !! key ev = Some set → (S (List.length set) < fuel)%nat →
  listen fuel behave ev (VFun f) i this
  = let v := stateOf this (key ev) in
    Run (inr tt)
        {| listeners := <[key ev := set_add f set]> (listeners this);
           notifierState :=
             if notNull v then <[key ev := v]> (notifierState this)
             else notifierState this |}
        (if notNull v
         then ((λ cb, Call cb v) <$> members (set_add f set))
              ++ [LogNotify (key ev) "notifier_default" v]
         else []).
Proof.
  intros H1 Hp H2 Hfuel. unfold listen, readState, writeListeners, writeState. rewrite H1.
  unfold mbind, mret, M_bind, M_ret, bind, ret, get, put, throw. plain_m.
  rewrite replay_guard. fold (stateOf this (key ev)).
  destruct (notNull (stateOf this (key ev))) eqn:Hnull; [|done].
  plain_m. fold (stateOf this (key ev)).
  erewrite flat_notify_hit;
    [|done|done|simpl; apply lookup_insert_eq|pose proof (set_add_length f set); lia].
  simpl. unfold stateOf at 1 2 3. simpl. fold (stateOf this (key ev)).
  by rewrite stateData_self.
Qed.

Lemma flat_unsubscribe_invalid this ev callback :
  validateEvent ev = false ∨ (plain (key ev) = true ∧ listeners this !! key ev = None) →
  interpolates ev = true →
  unsubscribe ev callback this = Run (inl (NoListenersToUnsubscribe ev)) this [].
Proof.
  intros [H|[Hp H]] Hi; unfold unsubscribe; unfold_m; simpl.
  - rewrite H. simpl. by rewrite raise_printable.
  - destruct (validateEvent ev); simpl; [|by rewrite raise_printable].
    rewrite prop_plain by done. simpl. rewrite H. simpl. by rewrite raise_printable.
Qed.

Lemma flat_unsubscribe_invalid_store this ev callback :
  validateEvent ev = false ∨ (plain (key ev) = true ∧ listeners this !! key ev = None) →
  store (unsubscribe ev callback this) = this.
Proof.
  intros [H|[Hp H]]; unfold unsubscribe, raise; unfold_m; simpl.
  - rewrite H. simpl. by destruct (interpolates ev).
  - destruct (validateEvent ev); simpl; [|by destruct (interpolates ev)].
    rewrite prop_plain by done. simpl. rewrite H. simpl. by destruct (interpolates ev).
Qed.

Lemma flat_unsubscribe_accepted this ev callback set :
  validateEvent ev = true → plain (key ev) = true →
  listeners this !! key ev = Some set →
  unsubscribe ev callback this
  = Run (inr tt)
        {| listeners := <[key ev := (delete_ callback set).2]> (listeners this);
           notifierState := notifierState this |}
        (if (delete_ callback set).1 then [] else [WarnCannotUnsubscribe (key ev)]).
Proof.
  intros H1 Hp H2. unfold unsubscribe, writeListeners. unfold_m. plain_m.
  destruct (delete_ callback set) as [[] set']; by plain_m.
Qed.

End flat_methods.

(** ** Histories of the flat registry *)

Section flat_histories.
Import Flat.
Variable fuel : nat.
Variable behave : ListenerCallback → value → M ChangeNotifier unit.
Hypothesis behave_inert : inert behave.
Implicit Types (this : ChangeNotifier) (h : list call) (c : call) (e : string).
Implicit Types (n : nat).

Lemma flat_wf_init : wf 0 init.
Proof.
  split; intros *; simpl; rewrite ?lookup_empty; [done| |]; intros [=].
Qed.

Lemma flat_wf_mono n m this : wf n this → (n ≤ m)%nat → wf m this.
Proof.
  intros [H1 H2 H3] Hle. split; [done..|].
  intros e set Hset. specialize (H3 e set Hset). lia.
Qed.

Lemma flat_state_present n this e :
  wf n this → is_Some (listeners this !! e) →
  notifierState this !! e = Some (stateOf this e).
Proof.
  intros Hwf Hl. apply (wf_events _ _ Hwf) in Hl as [v Hv]. unfold stateOf. by rewrite Hv.
Qed.

(** On a well-formed registry the replay of a repeated [listen] stores
    what was stored. *)
Lemma flat_listen_old_wf n this ev f i set :
  wf n this → (S n < fuel)%nat → validateEvent ev = true → plain (key ev) = true →
  listeners this !! key ev = Some set →
  listen fuel behave ev (VFun f) i this
  = let v := stateOf this (key ev) in
    Run (inr tt)
        {| listeners := <[key ev := set_add f set]> (listeners this);
           notifierState := notifierState this |}
        (if notNull v
         then ((λ cb, Call cb v) <$> members (set_add f set))
              ++ [LogNotify (key ev) "notifier_default" v]
         else []).
Proof.
  intros Hwf Hfuel Hev Hp Hl.
  rewrite (flat_listen_old fuel behave behave_inert _ _ _ _ set); [|done..|].
  - simpl. destruct (notNull (stateOf this (key ev))); [|done].
    rewrite (insert_id (notifierState this)); [done|].
    eapply flat_state_present; eauto.
  - pose proof (wf_short _ _ Hwf _ _ Hl). lia.
Qed.

Lemma flat_wf_exec n this c :
  wf n this → (S n < fuel)%nat → plainCall c = true →
  wf (S n) (exec fuel behave this c).
Proof.
  intros Hwf Hfuel Hc.
  assert (wf (S n) this) as Hwf' by (eapply flat_wf_mono; [done|lia]).
  destruct c as [ev d caller|ev cb i|ev cb]; simpl in *;
    apply andb_true_iff in Hc as [Hi Hp].
  - destruct (validateEvent ev) eqn:Hev; [|by rewrite flat_notify_invalid_store].
    destruct (listeners this !! key ev) as [set|] eqn:Hl;
      [|by rewrite flat_notify_no_event].
    rewrite (flat_notify_hit fuel behave behave_inert _ _ _ _ set);
      [|done..|pose proof (wf_short _ _ Hwf _ _ Hl); lia].
    simpl. split; simpl.
    + intros e. rewrite is_Some_insert_present; [apply Hwf|].
      apply (wf_events _ _ Hwf). eauto.
    + apply Hwf.
    + apply Hwf'.
  - destruct (validateEvent ev) eqn:Hev; [|by rewrite flat_listen_invalid_store by auto].
    destruct (checkValidFunction cb) eqn:Hcb;
      [|by rewrite flat_listen_invalid_store by auto].
    assert (∃ f, cb = VFun f) as [f ->] by (destruct cb; try discriminate; eauto).
    destruct (listeners this !! key ev) as [set|] eqn:Hl.
    + rewrite (flat_listen_old_wf n _ _ _ _ set) by done. simpl. split; simpl.
      * intros e. rewrite is_Some_insert_present by eauto. apply Hwf.
      * intros e set'. destruct (decide (e = key ev)) as [->|Hne].
        -- rewrite lookup_insert_eq. intros [= <-]. apply set_add_NoDup.
           eapply Hwf; eauto.
        -- rewrite lookup_insert_ne by done. apply Hwf.
      * intros e set'. destruct (decide (e = key ev)) as [->|Hne].
        -- rewrite lookup_insert_eq. intros [= <-]. etrans; [apply set_add_length|].
           pose proof (wf_short _ _ Hwf _ _ Hl). lia.
        -- rewrite lookup_insert_ne by done. apply Hwf'.
    + rewrite flat_listen_new by (done || lia). simpl. split; simpl.
      * intros e. rewrite !is_Some_insert_any. pose proof (wf_events _ _ Hwf e).
        naive_solver.
      * intros e set'. destruct (decide (e = key ev)) as [->|Hne].
        -- rewrite lookup_insert_eq. intros [= <-]. apply NoDup_singleton.
        -- rewrite lookup_insert_ne by done. apply Hwf.
      * intros e set'. destruct (decide (e = key ev)) as [->|Hne].
        -- rewrite lookup_insert_eq. intros [= <-]. simpl. lia.
        -- rewrite lookup_insert_ne by done. apply Hwf'.
  - destruct (validateEvent ev) eqn:Hev;
      [|by rewrite flat_unsubscribe_invalid_store by auto].
    destruct (listeners this !! key ev) as [set|] eqn:Hl;
      [|by rewrite flat_unsubscribe_invalid_store by auto].
    rewrite (flat_unsubscribe_accepted _ _ _ set) by done. simpl. split; simpl.
    + intros e. rewrite is_Some_insert_present by eauto. apply Hwf.
    + intros e set'. destruct (decide (e = key ev)) as [->|Hne].
      * rewrite lookup_insert_eq. intros [= <-]. apply delete_NoDup. eapply Hwf; eauto.
      * rewrite lookup_insert_ne by done. apply Hwf.
    + intros e set'. destruct (decide (e = key ev)) as [->|Hne].
      * rewrite lookup_insert_eq. intros [= <-]. rewrite delete_length.
        pose proof (wf_short _ _ Hwf _ _ Hl). lia.
      * rewrite lookup_insert_ne by done. apply Hwf'.
Qed.

Lemma flat_after_snoc h c :
  after fuel behave (h ++ [c]) = exec fuel behave (after fuel behave h) c.
Proof. unfold after. by rewrite foldl_app. Qed.

Lemma flat_wf_after h :
  forallb plainCall h = true → (List.length h < fuel)%nat →
  wf (List.length h) (after fuel behave h).
Proof.
  induction h as [|c h IH] using rev_ind; [intros; apply flat_wf_init|].
  rewrite forallb_app, length_app. simpl. rewrite andb_true_r.
  intros [Hh Hc]%andb_true_iff Hlen.
  rewrite flat_after_snoc. replace (List.length h + 1)%nat with (S (List.length h)) by lia.
  apply flat_wf_exec; [apply IH; [done|lia]|lia|done].
Qed.

Lemma flat_exec_event n this c e :
  wf n this → (S n < fuel)%nat → plainCall c = true →
  is_Some (listeners (exec fuel behave this c) !! e)
  ↔ is_Some (listeners this !! e) ∨ listensTo e c.
Proof.
  intros Hwf Hfuel Hc. destruct c as [ev d caller|ev cb i|ev cb]; simpl in *;
    apply andb_true_iff in Hc as [Hi Hp].
  - destruct (validateEvent ev) eqn:Hev;
      [|rewrite flat_notify_invalid_store by done; naive_solver].
    destruct (listeners this !! key ev) as [set|] eqn:Hl;
      [|rewrite flat_notify_no_event by done; simpl; naive_solver].
    rewrite (flat_notify_hit fuel behave behave_inert _ _ _ _ set);
      [|done..|pose proof (wf_short _ _ Hwf _ _ Hl); lia].
    simpl. naive_solver.
  - destruct (validateEvent ev) eqn:Hev;
      [|rewrite flat_listen_invalid_store by auto; naive_solver].
    destruct (checkValidFunction cb) eqn:Hcb;
      [|rewrite flat_listen_invalid_store by auto; naive_solver].
    assert (∃ f, cb = VFun f) as [f ->] by (destruct cb; try discriminate; eauto).
    destruct (listeners this !! key ev) as [set|] eqn:Hl.
    + rewrite (flat_listen_old_wf n _ _ _ _ set) by done. simpl.
      rewrite is_Some_insert_any. split; [naive_solver|].
      intros [|(_ & _ & <-)]; eauto.
    + rewrite flat_listen_new by (done || lia). simpl.
      rewrite is_Some_insert_any. split; [naive_solver|].
      intros [|(_ & _ & <-)]; eauto.
  - destruct (validateEvent ev) eqn:Hev;
      [|rewrite flat_unsubscribe_invalid_store by auto; naive_solver].
    destruct (listeners this !! key ev) as [set|] eqn:Hl;
      [|rewrite flat_unsubscribe_invalid_store by auto; naive_solver].
    rewrite (flat_unsubscribe_accepted _ _ _ set) by done. simpl.
    rewrite is_Some_insert_present by eauto. naive_solver.
Qed.

Lemma flat_registered_iff_listened h e :
  forallb plainCall h = true → (List.length h < fuel)%nat →
  is_Some (listeners (after fuel behave h) !! e) ↔ ∃ c, c ∈ h ∧ listensTo e c.
Proof.
  induction h as [|c h IH] using rev_ind; intros Hplain Hlen.
  - unfold after. simpl. rewrite lookup_empty. split.
    + intros [? [=]].
    + intros (c & Hc%elem_of_nil & _). done.
  - rewrite forallb_app in Hplain. simpl in Hplain. rewrite andb_true_r in Hplain.
    apply andb_true_iff in Hplain as [Hh Hc]. rewrite length_app in Hlen. simpl in Hlen.
    rewrite flat_after_snoc.
    rewrite (flat_exec_event (List.length h)); [|apply flat_wf_after; [done|lia]|lia|done].
    rewrite IH by (done || lia). split.
    + intros [(c' & Hin & Hc')|Hc'].
      * exists c'. split; [|done]. apply elem_of_app. by left.
      * exists c. split; [|done]. apply elem_of_app. right.
        by apply list_elem_of_singleton.
    + intros (c' & [Hin|Heq%list_elem_of_singleton]%elem_of_app & Hc'); subst; eauto.
Qed.

End flat_histories.

(** ** The stored value *)

Lemma ownProps_or_else (prior : value) : ownProps (or_else prior (VObj ∅)) = ownProps prior.
Proof.
  unfold or_else. destruct prior as [| |[]|n| |s| | | |]; simpl; try done.
  - by destruct (n =? 0)%Z eqn:E; [|done].
  - destruct s; done.
Qed.

Lemma stateData_merge (prior : value) (d : gmap string value) :
  d !! "constructor" = None →
  stateData prior (VObj d) = VObj (d ∪ ownProps prior)
  ∧ ∀ p, prior = VObj p → stateData prior (VObj d) = VObj (d ∪ p).
Proof.
  intros H. rewrite stateData_record, ownProps_or_else by done. split; [done|].
  by intros p ->.
Qed.

(** ** Claims *)

(** C1, as stated, fails: every callback of the key is called only as long
    as the callbacks called before it return.  Two listeners on the pair
    ("evt", "sliceA"), the first of which throws: [notify] stores the new
    state, calls the first listener, and ends with what it threw; the second
    listener is not called. *)
Lemma C1_listener_that_throws_ends_the_calls :
  let this := Sliced.after 3 first_throws
                [Sliced.Listen (VStr "evt") (VFun (Fn 1)) (count 0) "sliceA";
                 Sliced.Listen (VStr "evt") (VFun (Fn 2)) (count 0) "sliceA"] in
  let r := Sliced.notify 3 first_throws (VStr "evt") (count 1) "sliceA" "test" this in
  Sliced.callbacksAt this "evt" "sliceA" = Some [Some (Fn 1); Some (Fn 2)]
  ∧ result r = inl (Thrown (Fn 1))
  ∧ Sliced.stateAt (store r) "evt" "sliceA" = Some (count 1)
  ∧ calls (trace r) = [(Fn 1, count 1)].
Proof. vm_compute. done. Qed.

(** C1, amended.  The names are names that no object inherits, the
    listeners return and leave the registry alone.  On a key whose callback
    set exists, after any history of plain calls, [notify] returns, stores a
    value [v] and calls every callback of the set, in the order of the set,
    with exactly [v]; [v] is [data] itself when [data] is not a record, and
    when [data] is a record [d] without a field "constructor" it is [d]
    laid over the own properties of the prior state (over the fields [p]
    of the prior state, when that is a record).  Sliced and flat registry. *)
Theorem C1_notify_stores_merge_then_calls
    (fuel : nat)
    (behave : ListenerCallback → value → M Sliced.ChangeNotifier unit)
    (behavef : ListenerCallback → value → M Flat.ChangeNotifier unit)
    (h : list Sliced.call) (hf : list Flat.call) (ev data : value) (s caller : string)
    (set setf : list (option ListenerCallback)) :
  inert behave → inert behavef →
  forallb Sliced.plainCall h = true → forallb Flat.plainCall hf = true →
  (List.length h < fuel)%nat → (List.length hf < fuel)%nat →
  validateEvent ev = true → plain (key ev) = true → plain s = true →
  Sliced.callbacksAt (Sliced.after fuel behave h) (key ev) s = Some set →
  Flat.listeners (Flat.after fuel behavef hf) !! key ev = Some setf →
  (let this := Sliced.after fuel behave h in
   let r := Sliced.notify fuel behave ev data s caller this in
   ∃ prior v,
     Sliced.stateAt this (key ev) s = Some prior
     ∧ result r = inr tt
     ∧ Sliced.stateAt (store r) (key ev) s = Some v
     ∧ calls (trace r) = (λ cb, (cb, v)) <$> members set
     ∧ ((∀ d, data ≠ VObj d) → v = data)
     ∧ (∀ d, data = VObj d → d !! "constructor" = None →
             v = VObj (d ∪ ownProps prior) ∧ ∀ p, prior = VObj p → v = VObj (d ∪ p)))
  ∧ (let this := Flat.after fuel behavef hf in
     let r := Flat.notify fuel behavef ev data caller this in
     ∃ prior v,
       Flat.notifierState this !! key ev = Some prior
       ∧ result r = inr tt
       ∧ Flat.notifierState (store r) !! key ev = Some v
       ∧ calls (trace r) = (λ cb, (cb, v)) <$> members setf
       ∧ ((∀ d, data ≠ VObj d) → v = data)
       ∧ (∀ d, data = VObj d → d !! "constructor" = None →
               v = VObj (d ∪ ownProps prior) ∧ ∀ p, prior = VObj p → v = VObj (d ∪ p))).
Proof.
  intros Hb Hbf Hh Hhf Hlen Hlenf Hev Hp Hq Hset Hsetf. split.
  - intros this r.
    assert (Sliced.wf (List.length h) this) as Hwf by (apply wf_after; [done..|lia]).
    destruct (proj1 (Sliced.wf_slices _ _ Hwf (key ev) s)) as [prior Hprior]; [by eexists|].
    destruct (sliced_notify_accepted fuel behave Hb _ this ev data s caller Hwf Hlen Hev Hp Hq)
      as (r' & t & Hr & _ & _ & Hcase).
    subst r. rewrite Hr. simpl. unfold this in Hcase. rewrite Hset in Hcase.
    destruct Hcase as [Hcalls Hst].
    fold this in Hst, Hcalls. rewrite Hprior in Hst, Hcalls. simpl in Hst, Hcalls.
    exists prior, (stateData prior data).
    split_and!; [done|done| |done| |].
    + rewrite Hst. by rewrite decide_True.
    + apply stateData_other.
    + intros d -> Hd. by apply stateData_merge.
  - intros this r. subst r.
    assert (Flat.wf (List.length hf) this) as Hwf by (by apply flat_wf_after).
    pose proof (flat_state_present _ _ (key ev) Hwf) as Hprior.
    rewrite (flat_notify_hit fuel behavef Hbf _ _ _ _ setf);
      [|done..|pose proof (Flat.wf_short _ _ Hwf _ _ Hsetf); lia].
    simpl. exists (Flat.stateOf this (key ev)), (stateData (Flat.stateOf this (key ev)) data).
    split_and!; [apply Hprior; by eexists|done| | | |].
    + apply lookup_insert_eq.
    + rewrite calls_app, calls_Call. simpl. by rewrite app_nil_r.
    + apply stateData_other.
    + intros d -> Hd. by apply stateData_merge.
Qed.

(** C1 at the scenario of the specification: on [{a: 1, b: 2}], a
    notification of [{b: 3}] stores [{a: 1, b: 3}] and hands it to both
    listeners. *)
Lemma C1_witness :
  let a1b2 := VObj (<["a" := VNum 1]> {["b" := VNum 2]}) in
  let b3 := VObj {["b" := VNum 3]} in
  let a1b3 := VObj (<["a" := VNum 1]> {["b" := VNum 3]}) in
  let h := [Sliced.Listen (VStr "evt") (VFun (Fn 1)) a1b2 "sliceA";
            Sliced.Listen (VStr "evt") (VFun (Fn 2)) (VObj ∅) "sliceA"] in
  let hf := [Flat.Listen (VStr "evt") (VFun (Fn 1)) a1b2;
             Flat.Listen (VStr "evt") (VFun (Fn 2)) (VObj ∅)] in
  let r := Sliced.notify 5 quiet (VStr "evt") b3 "sliceA" "test" (Sliced.after 5 quiet h) in
  let rf := Flat.notify 5 quiet (VStr "evt") b3 "test" (Flat.after 5 quiet hf) in
  (result r = inr tt
   ∧ Sliced.stateAt (store r) "evt" "sliceA" = Some a1b3
   ∧ calls (trace r) = [(Fn 1, a1b3); (Fn 2, a1b3)])
  ∧ (result rf = inr tt
     ∧ Flat.notifierState (store rf) !! "evt" = Some a1b3
     ∧ calls (trace rf) = [(Fn 1, a1b3); (Fn 2, a1b3)]).
Proof.
  intros a1b2 b3 a1b3 h hf r rf.
  destruct (C1_notify_stores_merge_then_calls 5 quiet quiet h hf (VStr "evt") b3
              "sliceA" "test" [Some (Fn 1); Some (Fn 2)] [Some (Fn 1); Some (Fn 2)])
    as [(prior & v & Hprior & Hres & Hst & Hcalls & _ & Hrec)
        (priorf & vf & Hpriorf & Hresf & Hstf & Hcallsf & _ & Hrecf)];
    [intros ???; reflexivity|intros ???; reflexivity|reflexivity|reflexivity
    |simpl; lia|simpl; lia|reflexivity..|].
  assert (prior = a1b2) as -> by (vm_compute in Hprior; by injection Hprior as <-).
  assert (priorf = a1b2) as -> by (vm_compute in Hpriorf; by injection Hpriorf as <-).
  destruct (Hrec _ eq_refl eq_refl) as [_ Hv]. specialize (Hv _ eq_refl).
  destruct (Hrecf _ eq_refl eq_refl) as [_ Hvf]. specialize (Hvf _ eq_refl).
  assert (v = a1b3) as -> by (rewrite Hv; vm_compute; reflexivity).
  assert (vf = a1b3) as -> by (rewrite Hvf; vm_compute; reflexivity).
  split; (split_and!; [assumption..]).
Defined.

(** ** The replay of [listen] *)

(** In the flat registry an accepted [listen] replays (calls every callback
    of the key, the new one included, with the stored state) exactly when
    the state read after registration is not [null]. *)
Lemma flat_listen_replays_iff_not_null (fuel : nat)
    (behave : ListenerCallback → value → M Flat.ChangeNotifier unit)
    (h : list Flat.call) (ev : value) (f : ListenerCallback) (i : value) :
  inert behave → forallb Flat.plainCall h = true → (S (List.length h) < fuel)%nat →
  validateEvent ev = true → plain (key ev) = true →
  let r := Flat.listen fuel behave ev (VFun f) i (Flat.after fuel behave h) in
  result r = inr tt
  ∧ (calls (trace r) ≠ [] ↔ Flat.stateOf (store r) (key ev) ≠ VNull).
Proof.
  intros Hb Hh Hlen Hev Hp r. subst r.
  assert (Flat.wf (List.length h) (Flat.after fuel behave h)) as Hwf
    by (apply flat_wf_after; [done..|lia]).
  destruct (Flat.listeners (Flat.after fuel behave h) !! key ev) as [set|] eqn:Hl.
  - rewrite (flat_listen_old_wf fuel behave Hb _ _ _ _ _ set) by done. simpl.
    split; [done|].
    assert (∀ l, Flat.stateOf {| Flat.listeners := l;
                                 Flat.notifierState :=
                                   Flat.notifierState (Flat.after fuel behave h) |}
                   (key ev) = Flat.stateOf (Flat.after fuel behave h) (key ev)) as -> by done.
    destruct (notNull (Flat.stateOf (Flat.after fuel behave h) (key ev))) eqn:Hn.
    + rewrite calls_app, calls_Call. simpl. rewrite app_nil_r. split.
      * intros _ Hv. by rewrite Hv in Hn.
      * intros _ Hnil%fmap_nil_inv.
        assert (f ∈ members (set_add f set)) as Hf by (apply set_add_elem; by left).
        rewrite Hnil in Hf. by apply elem_of_nil in Hf.
    + split; [done|]. intros Hv.
      by destruct (Flat.stateOf (Flat.after fuel behave h) (key ev)).
  - rewrite flat_listen_new by (done || lia). simpl. split; [done|].
    unfold Flat.stateOf. simpl. rewrite lookup_insert_eq. simpl.
    destruct (defaultParam i (VObj ∅)); simpl; split; done.
Qed.

Lemma silent_bind {S A B} (m : M S A) (k : A → M S B) :
  silent m → (∀ a, silent (k a)) → silent (m ≫= k).
Proof.
  intros Hm Hk s. unfold mbind, M_bind, bind. specialize (Hm s).
  destruct (m s) as [[e|a] s' t]; simpl in *; [done|].
  specialize (Hk a s'). destruct (k a s') as [r s'' t']. simpl in *. by subst.
Qed.

Lemma silent_prop {S A} (own : gmap string A) (name : string) : silent (S := S) (prop own name).
Proof. intros s. unfold prop. by destruct (own !! name), (inherited name). Qed.

Lemma silent_setProp {S A} (own : gmap string A) (name : string) (x : A) :
  silent (S := S) (setProp own name x).
Proof. intros s. unfold setProp. by destruct (inherited name && absent (own !! name)). Qed.

Lemma silent_raise {S A} (message : value → error) (ev : value) :
  silent (S := S) (raise (A := A) message ev).
Proof. intros s. unfold raise. by destruct (interpolates ev). Qed.

Ltac silent_m :=
  repeat first
    [ apply silent_bind; [|intros ?]
    | apply silent_prop
    | apply silent_setProp
    | apply silent_raise
    | match goal with
      | |- silent (if ?b then _ else _) => destruct b
      | |- silent (match ?x with _ => _ end) => destruct x
      end
    | done ].

(** The sliced [listen] has no call of a listener in it: for an event name
    that is a string, or one that a template literal prints without running
    code of the program, its trace is empty whatever the listeners do. *)
Lemma sliced_listen_never_replays (this : Sliced.ChangeNotifier) (ev callback i : value)
    (s : string) :
  interpolates ev = true →
  trace (Sliced.listen ev callback i s this) = [].
Proof.
  intros _. revert this. change (silent (Sliced.listen ev callback i s)).
  unfold Sliced.listen, Sliced.readListeners, Sliced.writeListeners, Sliced.writeState.
  silent_m.
Qed.

(** C2. The flat [listen] on a fresh registry with the empty record as
    initial state: the state at subscribe time is empty, yet [notify] runs
    and the new callback is called at once with the empty record. *)
Theorem C2_flat_listen_replays_empty_state :
  let r := Flat.listen 2 quiet (VStr "evt") (VFun (Fn 1)) (VObj ∅) Flat.init in
  result r = inr tt
  ∧ Flat.stateOf (store r) "evt" = VObj ∅
  ∧ trace r = [Call (Fn 1) (VObj ∅); LogNotify "evt" "notifier_default" (VObj ∅)].
Proof. vm_compute. done. Qed.

(** ** Rejected arguments *)

Lemma not_callable (callback : value) :
  typeof callback ≠ "function" →
  Sliced.checkValidFunction callback = false ∧ Flat.checkValidFunction callback = false.
Proof. by destruct callback. Qed.

(** C3, as stated, fails: [unsubscribe] with the empty event name throws
    the "No listeners found for event" error, the one it throws for an
    event nobody listened to, and not an InvalidArgument error. *)
Lemma C3_unsubscribe_empty_name_throws_not_found :
  let r := Sliced.unsubscribe (VStr "") (VFun (Fn 1)) "sliceA" Sliced.init in
  let r' := Sliced.unsubscribe (VStr "never") (VFun (Fn 1)) "sliceA" Sliced.init in
  result r = inl (NoListenersToUnsubscribe (VStr ""))
  ∧ result r' = inl (NoListenersToUnsubscribe (VStr "never"))
  ∧ (∃ e, result r = inl e ∧ kindOf e = NotFound)
  ∧ ¬ (∃ e, result r = inl e ∧ kindOf e = InvalidArgument).
Proof.
  simpl. split_and!; [done..| |].
  - by exists (NoListenersToUnsubscribe (VStr "")).
  - intros (e & [= <-] & Hk). discriminate Hk.
Qed.

(** C3, amended.  With an event name that is empty or not a string, and
    that a template literal can print without running code of the program,
    [notify] and [listen] throw their InvalidArgument errors and
    [unsubscribe] throws its NotFound error; [listen] also throws
    InvalidArgument, whatever the (printable) event name, for a callback
    that is not a function.  Each call aborts with the registry and the
    trace untouched.  Both registries, in any state, whatever the listeners
    do. *)
Theorem C3_rejected_arguments_abort
    (fuel : nat)
    (behave : ListenerCallback → value → M Sliced.ChangeNotifier unit)
    (behavef : ListenerCallback → value → M Flat.ChangeNotifier unit)
    (this : Sliced.ChangeNotifier) (thisf : Flat.ChangeNotifier)
    (ev ev' data callback callback' i : value) (s caller : string) :
  ev = VStr "" ∨ typeof ev ≠ "string" →
  interpolates ev = true →
  typeof callback' ≠ "function" →
  interpolates ev' = true →
  (Sliced.notify fuel behave ev data s caller this
   = Run (inl (InvalidEventName ev)) this []
   ∧ Sliced.listen ev callback i s this = Run (inl (InvalidParameters ev)) this []
   ∧ Sliced.listen ev' callback' i s this = Run (inl (InvalidParameters ev')) this []
   ∧ Sliced.unsubscribe ev callback s this
     = Run (inl (NoListenersToUnsubscribe ev)) this [])
  ∧ (Flat.notify fuel behavef ev data caller thisf
     = Run (inl (InvalidEventName ev)) thisf []
     ∧ Flat.listen fuel behavef ev callback i thisf
       = Run (inl (InvalidParameters ev)) thisf []
     ∧ Flat.listen fuel behavef ev' callback' i thisf
       = Run (inl (InvalidParameters ev')) thisf []
     ∧ Flat.unsubscribe ev callback thisf
       = Run (inl (NoListenersToUnsubscribe ev)) thisf [])
  ∧ kindOf (InvalidEventName ev) = InvalidArgument
  ∧ kindOf (InvalidParameters ev) = InvalidArgument
  ∧ kindOf (InvalidParameters ev') = InvalidArgument
  ∧ kindOf (NoListenersToUnsubscribe ev) = NotFound.
Proof.
  intros Hev%invalid_event Hi [Hs Hf]%not_callable Hi'. split_and!; try done.
  - by apply sliced_notify_invalid.
  - apply sliced_listen_invalid; [by left|done].
  - apply sliced_listen_invalid; [by right|done].
  - apply sliced_unsubscribe_invalid; [by left|done].
  - by apply flat_notify_invalid.
  - apply flat_listen_invalid; [by left|done].
  - apply flat_listen_invalid; [by right|done].
  - apply flat_unsubscribe_invalid; [by left|done].
Qed.

(** C3 at sample calls: the number 7 as event name, a record as callback. *)
Lemma C3_witness :
  let this := Sliced.after 5 quiet sliced_listening in
  let thisf := Flat.after 5 quiet flat_listening in
  Sliced.notify 5 quiet (VNum 7) (count 1) "sliceA" "test" this
  = Run (inl (InvalidEventName (VNum 7))) this []
  ∧ Sliced.listen (VStr "evt") (count 0) VUndefined "sliceA" this
    = Run (inl (InvalidParameters (VStr "evt"))) this []
  ∧ Sliced.unsubscribe (VNum 7) (VFun (Fn 1)) "sliceA" this
    = Run (inl (NoListenersToUnsubscribe (VNum 7))) this []
  ∧ Flat.listen 5 quiet (VNum 7) (VFun (Fn 1)) VUndefined thisf
    = Run (inl (InvalidParameters (VNum 7))) thisf []
  ∧ Flat.unsubscribe (VNum 7) (VFun (Fn 1)) thisf
    = Run (inl (NoListenersToUnsubscribe (VNum 7))) thisf [].
Proof.
  intros this thisf.
  assert (VNum 7 = VStr "" ∨ typeof (VNum 7) ≠ "string") as H1 by (right; discriminate).
  assert (typeof (count 0) ≠ "function") as H2 by discriminate.
  pose proof (C3_rejected_arguments_abort 5 quiet quiet this thisf
                (VNum 7) (VStr "evt") (count 1) (VFun (Fn 1)) (count 0) VUndefined
                "sliceA" "test" H1 eq_refl H2 eq_refl) as (Hs & Hf & _).
  split_and!; [apply Hs|apply Hs|apply Hs|apply Hf|apply Hf].
Defined.

(** ** The registry invariant *)

(** X17. After any history of plain calls on the sliced registry (names that no
    object inherits, listeners that return and leave the registry alone), a
    pair (event, slice) has a state entry exactly when it has a callback
    set, and it has both exactly when some [listen] call for that pair was
    accepted; a [listen] on a pair without entries creates the set (then
    holding that one callback) and the state entry, seeded with the
    [initialState] parameter; and no call removes the entries of a pair. *)
Theorem X17_entries_created_together_and_kept
    (fuel : nat) (behave : ListenerCallback → value → M Sliced.ChangeNotifier unit)
    (h : list Sliced.call) (e s : string) :
  inert behave → forallb Sliced.plainCall h = true → (List.length h < fuel)%nat →
  let this := Sliced.after fuel behave h in
  (is_Some (Sliced.stateAt this e s) ↔ is_Some (Sliced.callbacksAt this e s))
  ∧ (is_Some (Sliced.callbacksAt this e s) ↔ ∃ c, c ∈ h ∧ Sliced.listensTo e s c)
  ∧ (∀ ev f i,
       validateEvent ev = true → Sliced.checkValidFunction (VFun f) = true →
       key ev = e → plain e = true → plain s = true →
       Sliced.callbacksAt this e s = None →
       let r := Sliced.listen ev (VFun f) i s this in
       result r = inr tt
       ∧ Sliced.callbacksAt (store r) e s = Some [Some f]
       ∧ Sliced.stateAt (store r) e s = Some (defaultParam i (VObj ∅)))
  ∧ (∀ c,
       Sliced.plainCall c = true →
       is_Some (Sliced.callbacksAt this e s) →
       is_Some (Sliced.callbacksAt (Sliced.exec fuel behave this c) e s)
       ∧ is_Some (Sliced.stateAt (Sliced.exec fuel behave this c) e s)).
Proof.
  intros Hb Hh Hlen this.
  assert (Sliced.wf (List.length h) this) as Hwf by (apply wf_after; [done..|lia]).
  split_and!.
  - symmetry. apply Hwf.
  - apply registered_iff_listened; [done..|lia].
  - intros ev f i Hev Hf <- Hp Hq Hnone r. subst r.
    destruct (sliced_listen_accepted _ this ev f i s Hwf Hev Hf Hp Hq)
      as (r' & -> & _ & _ & Hc & Hs).
    simpl. rewrite Hc, Hs, Hnone. rewrite !decide_True by done.
    assert (Sliced.stateAt this (key ev) s = None) as ->; [|done].
    destruct (Sliced.stateAt this (key ev) s) eqn:E; [|done].
    assert (is_Some (Sliced.callbacksAt this (key ev) s)) as [? Hx] by (apply Hwf; eauto).
    by rewrite Hnone in Hx.
  - intros c Hpc Hc.
    assert (is_Some (Sliced.callbacksAt (Sliced.exec fuel behave this c) e s)) as Hc'
      by (eapply exec_callbacksAt; eauto).
    split; [done|].
    by apply (Sliced.wf_slices _ _ (wf_exec fuel behave Hb _ this c Hwf Hlen Hpc)).
Qed.

(** X17 at a sample history: the pair listened to has both entries, another
    slice of the event has neither, and a first [listen] on it creates
    both. *)
Lemma X17_witness :
  let this := Sliced.after 5 quiet sliced_listening in
  let r := Sliced.listen (VStr "evt") (VFun (Fn 2)) (count 3) "sliceB" this in
  Sliced.callbacksAt this "evt" "sliceA" = Some [Some (Fn 1)]
  ∧ Sliced.stateAt this "evt" "sliceA" = Some (count 0)
  ∧ Sliced.callbacksAt this "evt" "sliceB" = None
  ∧ Sliced.stateAt this "evt" "sliceB" = None
  ∧ Sliced.callbacksAt (store r) "evt" "sliceB" = Some [Some (Fn 2)]
  ∧ Sliced.stateAt (store r) "evt" "sliceB" = Some (count 3).
Proof.
  intros this r.
  destruct (X17_entries_created_together_and_kept 5 quiet sliced_listening "evt" "sliceB")
    as (_ & _ & Hfirst & _); [intros ???; reflexivity|reflexivity|simpl; lia|].
  destruct (Hfirst (VStr "evt") (Fn 2) (count 3)) as (_ & Hc & Hs); [reflexivity..|].
  split_and!; [reflexivity..|exact Hc|exact Hs].
Defined.

(** ** Notifying a key nobody listens to *)

(** X18. In the sliced registry a [notify] with a valid event name on a key
    without a callback set, the event unknown or the slice never
    subscribed, both names being names that no object inherits, returns
    normally, calls nobody, only warns, and leaves the registry exactly as
    it was: no entry is created, no state is changed. *)
Theorem X18_notify_without_listeners_is_noop
    (fuel : nat) (behave : ListenerCallback → value → M Sliced.ChangeNotifier unit)
    (this : Sliced.ChangeNotifier) (ev data : value) (s caller : string) :
  validateEvent ev = true → plain (key ev) = true → plain s = true →
  Sliced.callbacksAt this (key ev) s = None →
  let r := Sliced.notify fuel behave ev data s caller this in
  result r = inr tt
  ∧ store r = this
  ∧ calls (trace r) = []
  ∧ (Sliced.listeners this !! key ev = None →
     trace r = [WarnNoListeners (key ev) caller])
  ∧ (is_Some (Sliced.listeners this !! key ev) →
     trace r = [WarnNoSliceListeners s (key ev) caller]).
Proof.
  intros Hev Hp Hq Hnone r. subst r. unfold Sliced.callbacksAt in Hnone.
  destruct (Sliced.listeners this !! key ev) as [ls|] eqn:Hl; simpl in Hnone.
  - rewrite (sliced_notify_no_slice _ _ _ _ _ _ _ ls) by done. simpl.
    split_and!; done.
  - rewrite sliced_notify_no_event by done. simpl.
    split_and!; try done; by intros [? [=]].
Qed.

(** X18 at a sample history. *)
Lemma X18_witness :
  let this := Sliced.after 5 quiet sliced_listening in
  Sliced.notify 5 quiet (VStr "evt") (count 1) "sliceB" "test" this
  = Run (inr tt) this [WarnNoSliceListeners "sliceB" "evt" "test"]
  ∧ Sliced.notify 5 quiet (VStr "other") (count 1) "sliceA" "test" this
    = Run (inr tt) this [WarnNoListeners "other" "test"].
Proof.
  intros this.
  pose proof (X18_notify_without_listeners_is_noop 5 quiet this (VStr "evt") (count 1)
                "sliceB" "test" eq_refl eq_refl eq_refl eq_refl) as (H1 & H2 & _ & _ & H3).
  pose proof (X18_notify_without_listeners_is_noop 5 quiet this (VStr "other") (count 1)
                "sliceA" "test" eq_refl eq_refl eq_refl eq_refl) as (H4 & H5 & _ & H6 & _).
  specialize (H3 ltac:(eexists; reflexivity)). specialize (H6 eq_refl).
  split.
  - destruct (Sliced.notify 5 quiet (VStr "evt") (count 1) "sliceB" "test" this).
    simpl in *. by subst.
  - destruct (Sliced.notify 5 quiet (VStr "other") (count 1) "sliceA" "test" this).
    simpl in *. by subst.
Defined.

(** ** Unsubscribing *)

Lemma delete_absent (callback : value) (set : list (option ListenerCallback)) :
  (∀ f, callback = VFun f → f ∉ members set) → delete_ callback set = (false, set).
Proof.
  intros H. destruct callback as [| | | | | | | | |f]; try done. simpl.
  apply set_delete_absent. by apply H.
Qed.

Lemma sliced_same_listeners (this : Sliced.ChangeNotifier) (e s : string)
    (ls : gmap string (list (option ListenerCallback))) (set : list (option ListenerCallback)) :
  Sliced.listeners this !! e = Some ls → ls !! s = Some set →
  {| Sliced.listeners := <[e := <[s := set]> ls]> (Sliced.listeners this);
     Sliced.notifierState := Sliced.notifierState this |} = this.
Proof.
  intros Hl Hs. destruct this as [L N]. simpl in *.
  by rewrite (insert_id ls s set Hs), (insert_id L e ls Hl).
Qed.

Lemma flat_same_listeners (this : Flat.ChangeNotifier) (e : string)
    (set : list (option ListenerCallback)) :
  Flat.listeners this !! e = Some set →
  {| Flat.listeners := <[e := set]> (Flat.listeners this);
     Flat.notifierState := Flat.notifierState this |} = this.
Proof. intros Hl. destruct this. simpl in *. by rewrite insert_id. Qed.

(** X19. Names that no object inherits, listeners that return and leave
    the registry alone.  [unsubscribe] with a valid name of an event for
    which no [listen] was ever accepted throws the NotFound error and
    changes nothing; on a registered event, with a callback that is not in
    the set of the key (or a key of that event without a set), it returns
    normally, only warns, and leaves the registry as it was.  Both
    registries. *)
Theorem X19_unsubscribe_unknown_event_or_callback
    (fuel : nat)
    (behave : ListenerCallback → value → M Sliced.ChangeNotifier unit)
    (behavef : ListenerCallback → value → M Flat.ChangeNotifier unit)
    (h : list Sliced.call) (hf : list Flat.call)
    (this : Sliced.ChangeNotifier) (thisf : Flat.ChangeNotifier)
    (ev ev' callback : value) (s : string)
    (ls : gmap string (list (option ListenerCallback)))
    (setf : list (option ListenerCallback)) :
  inert behave → inert behavef →
  forallb Sliced.plainCall h = true → forallb Flat.plainCall hf = true →
  (List.length h < fuel)%nat → (List.length hf < fuel)%nat →
  validateEvent ev = true → plain (key ev) = true →
  (∀ c s', c ∈ h → ¬ Sliced.listensTo (key ev) s' c) →
  (∀ c, c ∈ hf → ¬ Flat.listensTo (key ev) c) →
  validateEvent ev' = true → plain (key ev') = true → plain s = true →
  Sliced.listeners this !! key ev' = Some ls →
  (∀ f set, callback = VFun f → ls !! s = Some set → f ∉ members set) →
  Flat.listeners thisf !! key ev' = Some setf →
  (∀ f, callback = VFun f → f ∉ members setf) →
  (Sliced.unsubscribe ev callback s (Sliced.after fuel behave h)
   = Run (inl (NoListenersToUnsubscribe ev)) (Sliced.after fuel behave h) []
   ∧ Flat.unsubscribe ev callback (Flat.after fuel behavef hf)
     = Run (inl (NoListenersToUnsubscribe ev)) (Flat.after fuel behavef hf) []
   ∧ kindOf (NoListenersToUnsubscribe ev) = NotFound)
  ∧ (Sliced.unsubscribe ev' callback s this
     = Run (inr tt) this [WarnCannotUnsubscribe (key ev')]
     ∧ Flat.unsubscribe ev' callback thisf
       = Run (inr tt) thisf [WarnCannotUnsubscribe (key ev')]).
Proof.
  intros Hb Hbf Hplain Hplainf Hlen Hlenf Hev Hp Hh Hhf Hev' Hp' Hq Hls Hset Hsetf Hsetf'.
  split_and!.
  - apply sliced_unsubscribe_invalid; [|by apply valid_event_printable]. right.
    split; [done|].
    destruct (Sliced.listeners (Sliced.after fuel behave h) !! key ev) eqn:E; [|done].
    assert (is_Some (Sliced.listeners (Sliced.after fuel behave h) !! key ev)) as Hsome
      by eauto.
    apply event_registered_iff_listened in Hsome as (c & s' & Hin & Hc);
      [|done..|lia].
    by destruct (Hh c s' Hin).
  - apply flat_unsubscribe_invalid; [|by apply valid_event_printable]. right.
    split; [done|].
    destruct (Flat.listeners (Flat.after fuel behavef hf) !! key ev) eqn:E; [|done].
    assert (is_Some (Flat.listeners (Flat.after fuel behavef hf) !! key ev)) as Hsome
      by eauto.
    apply flat_registered_iff_listened in Hsome as (c & Hin & Hc); [|done..].
    by destruct (Hhf c Hin).
  - done.
  - destruct (ls !! s) as [set|] eqn:Hs.
    + rewrite (sliced_unsubscribe_slice _ _ _ _ ls set) by done.
      rewrite delete_absent by eauto. simpl. by rewrite sliced_same_listeners.
    + by apply (sliced_unsubscribe_no_slice _ _ _ _ ls).
  - rewrite (flat_unsubscribe_accepted _ _ _ setf) by done.
    rewrite delete_absent by done. simpl. by rewrite flat_same_listeners.
Qed.

(** X19 at a sample history. *)
Lemma X19_witness :
  let this := Sliced.after 5 quiet sliced_listening in
  let thisf := Flat.after 5 quiet flat_listening in
  Sliced.unsubscribe (VStr "other") (VFun (Fn 2)) "sliceA" this
  = Run (inl (NoListenersToUnsubscribe (VStr "other"))) this []
  ∧ Flat.unsubscribe (VStr "other") (VFun (Fn 2)) thisf
    = Run (inl (NoListenersToUnsubscribe (VStr "other"))) thisf []
  ∧ Sliced.unsubscribe (VStr "evt") (VFun (Fn 2)) "sliceA" this
    = Run (inr tt) this [WarnCannotUnsubscribe "evt"]
  ∧ Flat.unsubscribe (VStr "evt") (VFun (Fn 2)) thisf
    = Run (inr tt) thisf [WarnCannotUnsubscribe "evt"].
Proof.
  intros this thisf.
  assert (∀ c s', c ∈ sliced_listening → ¬ Sliced.listensTo "other" s' c) as H2.
  { intros c s' Hc%list_elem_of_singleton. subst c. simpl. intros (_ & _ & [=] & _). }
  assert (∀ c, c ∈ flat_listening → ¬ Flat.listensTo "other" c) as H3.
  { intros c Hc%list_elem_of_singleton. subst c. simpl. intros (_ & _ & [=]). }
  assert (∀ f set, VFun (Fn 2) = VFun f →
                   ({["sliceA" := [Some (Fn 1)]]}
                    : gmap string (list (option ListenerCallback))) !! "sliceA"
                   = Some set → f ∉ members set) as H6.
  { intros f set [= <-] [= <-]. intros [=]%list_elem_of_singleton. }
  assert (∀ f, VFun (Fn 2) = VFun f → f ∉ members [Some (Fn 1)]) as H8.
  { intros f [= <-]. intros [=]%list_elem_of_singleton. }
  pose proof (X19_unsubscribe_unknown_event_or_callback 5 quiet quiet
                sliced_listening flat_listening this thisf
                (VStr "other") (VStr "evt") (VFun (Fn 2))
                "sliceA" {["sliceA" := [Some (Fn 1)]]} [Some (Fn 1)]
                ltac:(intros ???; reflexivity) ltac:(intros ???; reflexivity)
                eq_refl eq_refl ltac:(simpl; lia) ltac:(simpl; lia)
                eq_refl eq_refl H2 H3 eq_refl eq_refl eq_refl eq_refl H6 eq_refl H8)
    as [(Ha & Ha' & _) [Hb Hc]].
  split_and!; [exact Ha|exact Ha'|exact Hb|exact Hc].
Defined.

(** ** Subscribing again *)

Lemma invoked_of_calls (t : list effect) (v : value) (set : list ListenerCallback) :
  calls t = (λ cb, (cb, v)) <$> set → invoked t = set.
Proof.
  intros H. unfold invoked. rewrite H, <- list_fmap_compose.
  clear H. induction set as [|cb set IH]; simpl in *; [done|]. by f_equal.
Qed.

Lemma count_in_set (f : ListenerCallback) (set : list ListenerCallback) :
  NoDup set → f ∈ set → List.length (filter (λ g, g = f) set) = 1%nat.
Proof.
  induction 1 as [|g set Hg Hnd IH]; intros Hf; [by apply elem_of_nil in Hf|].
  destruct (decide (g = f)) as [->|Hne].
  - rewrite filter_cons_True by done. simpl. f_equal.
    clear IH Hnd Hf. induction set as [|g' set IH]; [done|].
    apply not_elem_of_cons in Hg as [Hne Hg].
    rewrite filter_cons_False by done. by apply IH.
  - rewrite filter_cons_False by done. apply IH.
    apply elem_of_cons in Hf as [->|]; done.
Qed.

Lemma set_add_present (f : ListenerCallback) (set : list (option ListenerCallback)) :
  f ∈ members set → set_add f set = set.
Proof. intros H%members_elem. unfold set_add. by rewrite decide_True. Qed.

Lemma sliced_listen_again (n : nat) (this : Sliced.ChangeNotifier) (ev : value)
    (f : ListenerCallback) (i : value) (s : string) (set : list (option ListenerCallback)) :
  Sliced.wf n this → validateEvent ev = true → Sliced.checkValidFunction (VFun f) = true →
  plain (key ev) = true → plain s = true →
  Sliced.callbacksAt this (key ev) s = Some set → f ∈ members set →
  Sliced.listen ev (VFun f) i s this = Run (inr tt) this [].
Proof.
  intros Hwf Hev Hcb Hp Hq Hset Hf. unfold Sliced.callbacksAt in Hset.
  destruct (wf_both n this (key ev) Hwf) as [[Hl Hn]|(ls & st & Hl & Hn)];
    rewrite Hl in Hset; simpl in Hset; [done|].
  rewrite (sliced_listen_old_slice _ _ _ _ _ ls st set) by done.
  by rewrite set_add_present, sliced_same_listeners.
Qed.

Lemma flat_listen_again (fuel : nat)
    (behave : ListenerCallback → value → M Flat.ChangeNotifier unit)
    (n : nat) (this : Flat.ChangeNotifier) (ev : value) (f : ListenerCallback)
    (i : value) (set : list (option ListenerCallback)) :
  inert behave → Flat.wf n this → (S n < fuel)%nat →
  validateEvent ev = true → plain (key ev) = true →
  Flat.listeners this !! key ev = Some set → f ∈ members set →
  store (Flat.listen fuel behave ev (VFun f) i this) = this.
Proof.
  intros Hb Hwf Hfuel Hev Hp Hset Hf.
  rewrite (flat_listen_old_wf fuel behave Hb n _ _ _ _ set) by done. simpl.
  by rewrite set_add_present, flat_same_listeners.
Qed.

(** C7, as stated, fails: a callback subscribed behind a listener that
    throws is not called by [notify], however often it was subscribed.  The
    listener [Fn 1] throws; [Fn 2] is subscribed twice on the same pair;
    the set holds both, and [notify] calls [Fn 1] and ends there. *)
Lemma C7_callback_behind_a_listener_that_throws :
  let this := Sliced.after 4 first_throws
                [Sliced.Listen (VStr "evt") (VFun (Fn 1)) (count 0) "sliceA";
                 Sliced.Listen (VStr "evt") (VFun (Fn 2)) (count 0) "sliceA";
                 Sliced.Listen (VStr "evt") (VFun (Fn 2)) (count 0) "sliceA"] in
  let r := Sliced.notify 4 first_throws (VStr "evt") (count 1) "sliceA" "test" this in
  Sliced.callbacksAt this "evt" "sliceA" = Some [Some (Fn 1); Some (Fn 2)]
  ∧ result r = inl (Thrown (Fn 1))
  ∧ invoked (trace r) = [Fn 1]
  ∧ List.length (filter (λ g, g = Fn 2) (invoked (trace r))) = 0%nat.
Proof. vm_compute. done. Qed.

(** C7, amended.  Names that no object inherits, listeners that return and
    leave the registry alone.  After one accepted [listen] of a callback on
    a key, any number of further [listen] calls with the same callback on
    that key, whatever their initial states, leave the registry as the
    first call left it, and a [notify] on the key then calls that callback
    exactly once.  Both registries, after any history of plain calls. *)
Theorem C7_listen_same_callback_is_idempotent
    (fuel : nat)
    (behave : ListenerCallback → value → M Sliced.ChangeNotifier unit)
    (behavef : ListenerCallback → value → M Flat.ChangeNotifier unit)
    (h : list Sliced.call) (hf : list Flat.call) (ev : value) (f : ListenerCallback)
    (i : value) (more : list value) (s caller : string) (data : value) :
  inert behave → inert behavef →
  forallb Sliced.plainCall h = true → forallb Flat.plainCall hf = true →
  (List.length h + 2 < fuel)%nat → (List.length hf + 2 < fuel)%nat →
  validateEvent ev = true → plain (key ev) = true → plain s = true →
  Sliced.checkValidFunction (VFun f) = true →
  (let once := store (Sliced.listen ev (VFun f) i s (Sliced.after fuel behave h)) in
   let again := foldl (λ this i', store (Sliced.listen ev (VFun f) i' s this)) once more in
   again = once
   ∧ List.length (filter (λ g, g = f)
                    (invoked (trace (Sliced.notify fuel behave ev data s caller again))))
     = 1%nat)
  ∧ (let once := store (Flat.listen fuel behavef ev (VFun f) i (Flat.after fuel behavef hf)) in
     let again := foldl (λ this i', store (Flat.listen fuel behavef ev (VFun f) i' this))
                    once more in
     again = once
     ∧ List.length (filter (λ g, g = f)
                      (invoked (trace (Flat.notify fuel behavef ev data caller again))))
       = 1%nat).
Proof.
  intros Hb Hbf Hplain Hplainf Hlen Hlenf Hev Hp Hq Hcb.
  assert (interpolates ev = true) as Hi by by apply valid_event_printable.
  split.
  - intros once again.
    assert (once = Sliced.after fuel behave (h ++ [Sliced.Listen ev (VFun f) i s])) as Honce
      by by rewrite after_snoc.
    assert (Sliced.wf (S (List.length h)) once) as Hwf.
    { rewrite Honce. replace (S (List.length h))
        with (List.length (h ++ [Sliced.Listen ev (VFun f) i s]))
        by (rewrite length_app; simpl; lia).
      apply wf_after; [done| |rewrite length_app; simpl; lia].
      rewrite forallb_app, Hplain. simpl. by rewrite Hi, Hp, Hq. }
    assert (Sliced.wf (List.length h) (Sliced.after fuel behave h)) as Hwf0
      by (apply wf_after; [done..|lia]).
    assert (∃ set, Sliced.callbacksAt once (key ev) s = Some set ∧ f ∈ members set)
      as (set & Hset & Hf).
    { subst once.
      destruct (sliced_listen_accepted _ _ ev f i s Hwf0 Hev Hcb Hp Hq)
        as (r' & -> & _ & _ & Hc & _).
      simpl. rewrite Hc, decide_True by done. eexists. split; [done|].
      apply set_add_elem. by left. }
    assert (again = once) as ->.
    { subst again. clear Honce. induction more as [|i' more IH]; [done|]. simpl.
      by rewrite (sliced_listen_again _ _ _ _ _ _ set Hwf). }
    split; [done|].
    destruct (sliced_notify_accepted fuel behave Hb _ once ev data s caller Hwf)
      as (r' & t & -> & _ & _ & Hcase); [lia|done..|].
    rewrite Hset in Hcase. destruct Hcase as [Hcalls _]. simpl.
    rewrite (invoked_of_calls _ _ _ Hcalls). apply count_in_set; [|done].
    by apply (Sliced.wf_sets _ _ Hwf (key ev) s).
  - intros once again.
    assert (once = Flat.after fuel behavef (hf ++ [Flat.Listen ev (VFun f) i])) as Honce
      by by rewrite flat_after_snoc.
    assert (Flat.wf (S (List.length hf)) once) as Hwf.
    { rewrite Honce. replace (S (List.length hf))
        with (List.length (hf ++ [Flat.Listen ev (VFun f) i]))
        by (rewrite length_app; simpl; lia).
      apply flat_wf_after; [done| |rewrite length_app; simpl; lia].
      rewrite forallb_app, Hplainf. simpl. by rewrite Hi, Hp. }
    assert (Flat.wf (List.length hf) (Flat.after fuel behavef hf)) as Hwf0
      by (apply flat_wf_after; [done..|lia]).
    assert (∃ set, Flat.listeners once !! key ev = Some set ∧ f ∈ members set)
      as (set & Hset & Hf).
    { subst once.
      destruct (Flat.listeners (Flat.after fuel behavef hf) !! key ev) as [set|] eqn:Hl.
      - rewrite (flat_listen_old_wf fuel behavef Hbf _ _ _ _ _ set Hwf0) by (done || lia).
        simpl. rewrite lookup_insert_eq. eexists. split; [done|].
        apply set_add_elem. by left.
      - rewrite flat_listen_new by (done || lia). simpl. rewrite lookup_insert_eq.
        eexists. split; [done|]. by apply list_elem_of_singleton. }
    assert (again = once) as ->.
    { subst again. clear Honce. induction more as [|i' more IH]; [done|]. simpl.
      rewrite (flat_listen_again fuel behavef _ _ _ _ _ set Hbf Hwf) by (done || lia).
      done. }
    split; [done|].
    rewrite (flat_notify_hit fuel behavef Hbf _ _ _ _ set);
      [|done..|pose proof (Flat.wf_short _ _ Hwf _ _ Hset); lia].
    simpl.
    erewrite invoked_of_calls;
      [|by rewrite calls_app, calls_Call; simpl; rewrite app_nil_r].
    apply count_in_set; [|done].
    by apply (Flat.wf_sets _ _ Hwf (key ev)).
Qed.

(** C7 at a sample history: three [listen] calls with the same callback,
    then a [notify], which calls it once. *)
Lemma C7_witness :
  let ev := VStr "evt" in
  let once := store (Sliced.listen ev (VFun (Fn 1)) (count 0) "sliceA" Sliced.init) in
  let oncef := store (Flat.listen 5 quiet ev (VFun (Fn 1)) (count 0) Flat.init) in
  let again := foldl (λ this i', store (Sliced.listen ev (VFun (Fn 1)) i' "sliceA" this))
                 once [count 5; VNull] in
  let againf := foldl (λ this i', store (Flat.listen 5 quiet ev (VFun (Fn 1)) i' this))
                  oncef [count 5; VNull] in
  again = once
  ∧ againf = oncef
  ∧ List.length (filter (λ g, g = Fn 1)
                   (invoked (trace (Sliced.notify 5 quiet ev (count 1) "sliceA" "test" again))))
    = 1%nat
  ∧ List.length (filter (λ g, g = Fn 1)
                   (invoked (trace (Flat.notify 5 quiet ev (count 1) "test" againf))))
    = 1%nat
  ∧ invoked (trace (Sliced.notify 5 quiet ev (count 1) "sliceA" "test" again)) = [Fn 1]
  ∧ invoked (trace (Flat.notify 5 quiet ev (count 1) "test" againf)) = [Fn 1].
Proof.
  intros ev once oncef again againf.
  pose proof (C7_listen_same_callback_is_idempotent 5 quiet quiet [] [] ev (Fn 1) (count 0)
                [count 5; VNull] "sliceA" "test" (count 1)
                ltac:(intros ???; reflexivity) ltac:(intros ???; reflexivity)
                eq_refl eq_refl ltac:(simpl; lia) ltac:(simpl; lia)
                eq_refl eq_refl eq_refl eq_refl) as [[Hs Hs'] [Hf Hf']].
  split_and!; [exact Hs|exact Hf|exact Hs'|exact Hf'|vm_compute; reflexivity..].
Defined.

(** ** Unsubscribing one callback *)

(** C8, as stated, fails: after [unsubscribe] of one callback, a [notify]
    calls the callbacks that are still registered only as long as those
    called before them return.  The listener [Fn 1] throws; [Fn 2] is
    unsubscribed; [Fn 3], still registered, is not called. *)
Lemma C8_remaining_callback_behind_a_listener_that_throws :
  let this := Sliced.after 4 first_throws
                [Sliced.Listen (VStr "evt") (VFun (Fn 1)) (count 0) "sliceA";
                 Sliced.Listen (VStr "evt") (VFun (Fn 2)) (count 0) "sliceA";
                 Sliced.Listen (VStr "evt") (VFun (Fn 3)) (count 0) "sliceA"] in
  let u := Sliced.unsubscribe (VStr "evt") (VFun (Fn 2)) "sliceA" this in
  let n := Sliced.notify 4 first_throws (VStr "evt") (count 1) "sliceA" "test" (store u) in
  result u = inr tt
  ∧ members <$> Sliced.callbacksAt (store u) "evt" "sliceA" = Some [Fn 1; Fn 3]
  ∧ result n = inl (Thrown (Fn 1))
  ∧ invoked (trace n) = [Fn 1]
  ∧ Fn 3 ∉ invoked (trace n).
Proof.
  vm_compute. split_and!; [done..|].
  intros Hin. apply list_elem_of_singleton in Hin. discriminate Hin.
Qed.

(** C8, amended.  Names that no object inherits, listeners that return and
    leave the registry alone.  On a key with a callback set, [unsubscribe]
    of a function returns normally, calls nobody, leaves every state entry
    and the set of every other key as they were, and turns the set of the
    key into the same set without that one function, the others in their
    order; a [notify] on the key then calls exactly the remaining
    callbacks, never the removed one.  Both registries, after any history
    of plain calls. *)
Theorem C8_unsubscribe_removes_only_that_callback
    (fuel : nat)
    (behave : ListenerCallback → value → M Sliced.ChangeNotifier unit)
    (behavef : ListenerCallback → value → M Flat.ChangeNotifier unit)
    (h : list Sliced.call) (hf : list Flat.call) (ev : value) (f1 : ListenerCallback)
    (s caller : string) (data : value) (set setf : list (option ListenerCallback)) :
  inert behave → inert behavef →
  forallb Sliced.plainCall h = true → forallb Flat.plainCall hf = true →
  (List.length h + 2 < fuel)%nat → (List.length hf + 2 < fuel)%nat →
  validateEvent ev = true → plain (key ev) = true → plain s = true →
  Sliced.callbacksAt (Sliced.after fuel behave h) (key ev) s = Some set →
  Flat.listeners (Flat.after fuel behavef hf) !! key ev = Some setf →
  (let this := Sliced.after fuel behave h in
   let u := Sliced.unsubscribe ev (VFun f1) s this in
   let n := Sliced.notify fuel behave ev data s caller (store u) in
   result u = inr tt
   ∧ calls (trace u) = []
   ∧ Sliced.notifierState (store u) = Sliced.notifierState this
   ∧ (∀ e' s', members <$> Sliced.callbacksAt (store u) e' s'
               = if decide (e' = key ev ∧ s' = s)
                 then Some (filter (λ g, g ≠ f1) (members set))
                 else members <$> Sliced.callbacksAt this e' s')
   ∧ result n = inr tt
   ∧ invoked (trace n) = filter (λ g, g ≠ f1) (members set)
   ∧ (f1 ∉ invoked (trace n))
   ∧ (∀ g, g ∈ members set → g ≠ f1 → g ∈ invoked (trace n)))
  ∧ (let this := Flat.after fuel behavef hf in
     let u := Flat.unsubscribe ev (VFun f1) this in
     let n := Flat.notify fuel behavef ev data caller (store u) in
     result u = inr tt
     ∧ calls (trace u) = []
     ∧ Flat.notifierState (store u) = Flat.notifierState this
     ∧ (∀ e', members <$> Flat.listeners (store u) !! e'
              = if decide (e' = key ev)
                then Some (filter (λ g, g ≠ f1) (members setf))
                else members <$> Flat.listeners this !! e')
     ∧ result n = inr tt
     ∧ invoked (trace n) = filter (λ g, g ≠ f1) (members setf)
     ∧ (f1 ∉ invoked (trace n))
     ∧ (∀ g, g ∈ members setf → g ≠ f1 → g ∈ invoked (trace n))).
Proof.
  intros Hb Hbf Hplain Hplainf Hlen Hlenf Hev Hp Hq Hset Hsetf.
  assert (interpolates ev = true) as Hi by by apply valid_event_printable.
  split.
  - intros this u n.
    assert (Sliced.wf (List.length h) this) as Hwf0 by (apply wf_after; [done..|lia]).
    assert (store u = Sliced.exec fuel behave this (Sliced.Unsubscribe ev (VFun f1) s))
      as Hexec by done.
    assert (Sliced.wf (S (List.length h)) (store u)) as Hwf.
    { rewrite Hexec. apply wf_exec; [done..|lia|]. simpl. by rewrite Hi, Hp, Hq. }
    destruct (sliced_unsubscribe_accepted this ev (VFun f1) s Hev Hp Hq)
      as (r' & t & Hu & Hn & Ht & _ & Hc);
      [by apply (callbacksAt_event _ _ s); unfold this; rewrite Hset|].
    subst n. unfold u in *. rewrite Hu in *. simpl in *. clear u Hexec Hu.
    unfold this in Hc. rewrite Hset in Hc. simpl in Hc.
    destruct (sliced_notify_accepted fuel behave Hb _ r' ev data s caller Hwf)
      as (r'' & t' & Hn' & _ & _ & Hcase); [lia|done..|].
    rewrite Hc, decide_True in Hcase by done. destruct Hcase as [Hcalls _].
    pose proof (members_set_delete f1 set) as Hm. unfold set_delete in Hm. simpl in Hm.
    rewrite Hm in Hcalls.
    assert (invoked (trace (Sliced.notify fuel behave ev data s caller r'))
            = filter (λ g, g ≠ f1) (members set)) as Hinv.
    { rewrite Hn'. simpl. by apply invoked_of_calls in Hcalls. }
    split_and!; [done..| | | | |].
    + intros e' s'. rewrite Hc. case_decide; [|done]. simpl. by rewrite Hm.
    + by rewrite Hn'.
    + done.
    + rewrite Hinv, list_elem_of_filter. naive_solver.
    + intros g Hg Hne. rewrite Hinv, list_elem_of_filter. done.
  - intros this u n.
    assert (Flat.wf (List.length hf) this) as Hwf0 by (apply flat_wf_after; [done..|lia]).
    pose proof (Flat.wf_short _ _ Hwf0 _ _ Hsetf) as Hshort.
    pose proof (flat_unsubscribe_accepted this ev (VFun f1) setf Hev Hp Hsetf) as Hu.
    set (r' := {| Flat.listeners := <[key ev := (delete_ (VFun f1) setf).2]>
                                      (Flat.listeners this);
                  Flat.notifierState := Flat.notifierState this |}) in Hu.
    assert (Flat.listeners r' !! key ev = Some (set_delete f1 setf).2) as Hset'
      by apply lookup_insert_eq.
    assert (List.length (set_delete f1 setf).2 < fuel)%nat as Hlen'
      by (unfold set_delete; simpl; rewrite length_fmap; lia).
    pose proof (flat_notify_hit fuel behavef Hbf r' ev data caller _ Hev Hp Hset' Hlen')
      as Hn.
    assert (invoked (trace (Flat.notify fuel behavef ev data caller r'))
            = filter (λ g, g ≠ f1) (members setf)) as Hinv.
    { rewrite Hn. cbn [trace]. erewrite invoked_of_calls; [apply members_set_delete|].
      by rewrite calls_app, calls_Call; simpl; rewrite app_nil_r. }
    subst n. unfold u. rewrite Hu. cbn [store result trace].
    split_and!; [done| |done| | |done| |].
    + by destruct (delete_ (VFun f1) setf).1.
    + intros e'. case_decide as Hd.
      * subst e'. rewrite Hset'. simpl. by rewrite <- members_set_delete.
      * subst r'. simpl. by rewrite lookup_insert_ne.
    + by rewrite Hn.
    + rewrite Hinv, list_elem_of_filter. naive_solver.
    + intros g Hg Hne. rewrite Hinv, list_elem_of_filter. done.
Qed.

(** C8 at a sample history: of two callbacks the first is unsubscribed, a
    [notify] then calls the second only. *)
Lemma C8_witness :
  let h := sliced_listening ++ [Sliced.Listen (VStr "evt") (VFun (Fn 2)) VNull "sliceA"] in
  let hf := flat_listening ++ [Flat.Listen (VStr "evt") (VFun (Fn 2)) VNull] in
  let u := Sliced.unsubscribe (VStr "evt") (VFun (Fn 1)) "sliceA" (Sliced.after 5 quiet h) in
  let uf := Flat.unsubscribe (VStr "evt") (VFun (Fn 1)) (Flat.after 5 quiet hf) in
  members <$> Sliced.callbacksAt (store u) "evt" "sliceA" = Some [Fn 2]
  ∧ Sliced.stateAt (store u) "evt" "sliceA" = Some (count 0)
  ∧ invoked (trace (Sliced.notify 5 quiet (VStr "evt") (count 1) "sliceA" "test" (store u)))
    = [Fn 2]
  ∧ members <$> Flat.listeners (store uf) !! "evt" = Some [Fn 2]
  ∧ invoked (trace (Flat.notify 5 quiet (VStr "evt") (count 1) "test" (store uf)))
    = [Fn 2].
Proof.
  intros h hf u uf.
  pose proof (C8_unsubscribe_removes_only_that_callback 5 quiet quiet h hf (VStr "evt")
                (Fn 1) "sliceA" "test" (count 1)
                [Some (Fn 1); Some (Fn 2)] [Some (Fn 1); Some (Fn 2)]
                ltac:(intros ???; reflexivity) ltac:(intros ???; reflexivity)
                eq_refl eq_refl ltac:(simpl; lia) ltac:(simpl; lia)
                eq_refl eq_refl eq_refl eq_refl eq_refl)
    as [(_ & _ & _ & Hc & _ & Hs & _) (_ & _ & _ & Hcf & _ & Hf & _)].
  split_and!.
  - exact (Hc "evt" "sliceA").
  - vm_compute. reflexivity.
  - exact Hs.
  - exact (Hcf "evt").
  - exact Hf.
Defined.

(** ** Reading the state *)

(** C9, as stated, fails: after the first [listen] on a key with
    [undefined] as initial state, [getState] returns the empty record, the
    default of the parameter, and not [undefined]. *)
Lemma C9_undefined_initial_state_is_stored_as_empty_record :
  let this := store (Sliced.listen (VStr "evt") (VFun (Fn 1)) VUndefined "sliceA"
                       Sliced.init) in
  Sliced.stateAt Sliced.init "evt" "sliceA" = None
  ∧ result (Sliced.getState "evt" "sliceA" this) = inr (VObj ∅)
  ∧ result (Sliced.getState "evt" "sliceA" this) ≠ inr VUndefined.
Proof. vm_compute. split_and!; [done..|discriminate]. Qed.

(** C9, amended.  Names that no object inherits, listeners that return and
    leave the registry alone.  [getState] never throws, writes nothing to
    the console and leaves the registry as it is; on a key for which no
    [listen] was ever accepted it returns [undefined]; and right after the
    first accepted [listen] on such a key it returns the initial state
    handed to [listen], or the empty record when that was [undefined]. *)
Theorem C9_getState_reads_the_entry
    (fuel : nat) (behave : ListenerCallback → value → M Sliced.ChangeNotifier unit)
    (h : list Sliced.call) (ev : value) (f : ListenerCallback) (i : value) (s : string) :
  inert behave → forallb Sliced.plainCall h = true → (List.length h < fuel)%nat →
  validateEvent ev = true → plain (key ev) = true → plain s = true →
  Sliced.checkValidFunction (VFun f) = true →
  (∀ c, c ∈ h → ¬ Sliced.listensTo (key ev) s c) →
  (∀ this e' s',
     plain e' = true → plain s' = true →
     Sliced.getState e' s' this
     = Run (inr (default VUndefined (Sliced.stateAt this e' s'))) this [])
  ∧ Sliced.getState (key ev) s (Sliced.after fuel behave h)
    = Run (inr VUndefined) (Sliced.after fuel behave h) []
  ∧ (let this := store (Sliced.listen ev (VFun f) i s (Sliced.after fuel behave h)) in
     result (Sliced.getState (key ev) s this) = inr (defaultParam i (VObj ∅))
     ∧ (i ≠ VUndefined → result (Sliced.getState (key ev) s this) = inr i)
     ∧ (i = VUndefined → result (Sliced.getState (key ev) s this) = inr (VObj ∅))).
Proof.
  intros Hb Hplain Hlen Hev Hp Hq Hcb Hnever.
  pose proof (wf_after fuel behave Hb h Hplain ltac:(lia)) as Hwf.
  assert (Sliced.callbacksAt (Sliced.after fuel behave h) (key ev) s = None) as Hc.
  { destruct (Sliced.callbacksAt (Sliced.after fuel behave h) (key ev) s) eqn:E; [|done].
    assert (is_Some (Sliced.callbacksAt (Sliced.after fuel behave h) (key ev) s)) as Hsome
      by eauto.
    apply registered_iff_listened in Hsome as (c & Hin & Hl); [|done..|lia].
    by destruct (Hnever c Hin). }
  assert (Sliced.stateAt (Sliced.after fuel behave h) (key ev) s = None) as Hs.
  { destruct (Sliced.stateAt (Sliced.after fuel behave h) (key ev) s) eqn:E; [|done].
    assert (is_Some (Sliced.callbacksAt (Sliced.after fuel behave h) (key ev) s)) as [? Hx]
      by (apply (Sliced.wf_slices _ _ Hwf); eauto).
    by rewrite Hc in Hx. }
  split_and!.
  - intros. by apply sliced_getState_eq.
  - rewrite sliced_getState_eq by done. by rewrite Hs.
  - intros this. subst this.
    destruct (sliced_listen_accepted _ _ ev f i s Hwf Hev Hcb Hp Hq)
      as (r' & -> & _ & _ & _ & Hst).
    rewrite !sliced_getState_eq by done. simpl.
    rewrite Hst, decide_True, Hs by done. simpl.
    split_and!; [done| |by intros ->]. by destruct i.
Qed.

(** C9 at a sample history: a slice nobody listened to reads [undefined],
    and after its first [listen] it reads the initial state. *)
Lemma C9_witness :
  let this := Sliced.after 5 quiet sliced_listening in
  Sliced.getState "evt" "sliceB" this = Run (inr VUndefined) this []
  ∧ result (Sliced.getState "evt" "sliceB"
              (store (Sliced.listen (VStr "evt") (VFun (Fn 2)) (count 3) "sliceB" this)))
    = inr (count 3).
Proof.
  intros this.
  assert (∀ c, c ∈ sliced_listening → ¬ Sliced.listensTo "evt" "sliceB" c) as H2.
  { intros c Hc%list_elem_of_singleton. subst c. simpl. intros (_ & _ & _ & [=]). }
  pose proof (C9_getState_reads_the_entry 5 quiet sliced_listening (VStr "evt") (Fn 2)
                (count 3) "sliceB" ltac:(intros ???; reflexivity) eq_refl
                ltac:(simpl; lia) eq_refl eq_refl eq_refl eq_refl H2)
    as (_ & Ha & _ & Hb & _).
  split; [exact Ha|]. apply Hb. discriminate.
Defined.

(** ** Listening again on an initialised key *)

(** C10, as stated, fails: in the flat registry a [listen] on an
    initialised key replays the state to the listeners, and a listener may
    answer the replay with a [notify] of its own.  The event "evt" holds
    [{count: 0}]; the second [listen] hands it to the new listener [Fn 2],
    which notifies [{count: 7}]; when [listen] returns the state is
    [{count: 7}]. *)
Lemma C10_listener_that_notifies_on_replay :
  let behave := normalises 5 3 in
  let this := Flat.after 5 behave [Flat.Listen (VStr "evt") (VFun (Fn 1)) (count 0)] in
  let r := Flat.listen 5 behave (VStr "evt") (VFun (Fn 2)) (count 9) this in
  Flat.stateOf this "evt" = count 0
  ∧ result r = inr tt
  ∧ Flat.stateOf (store r) "evt" = count 7
  ∧ calls (trace r)
    = [(Fn 1, count 0); (Fn 2, count 0); (Fn 1, count 7); (Fn 2, count 7)].
Proof. vm_compute. done. Qed.

(** C10, amended.  Names that no object inherits, listeners that return and
    leave the registry alone.  On a key that already has its entries, a
    [listen] call, accepted or not and whatever its initial state, leaves
    every state entry of the registry as it was.  In the flat registry an
    accepted call, once the callback is in the set, is the call
    [notify(eventName, state)] with the stored state of the key when that
    state is not [null]; this replay merges the state with itself and
    stores a value equal to the one it read.  Both registries, after any
    history of plain calls. *)
Theorem C10_listen_again_keeps_the_state
    (fuel : nat)
    (behave : ListenerCallback → value → M Sliced.ChangeNotifier unit)
    (behavef : ListenerCallback → value → M Flat.ChangeNotifier unit)
    (h : list Sliced.call) (hf : list Flat.call) (ev callback i : value) (s : string) :
  inert behave → inert behavef →
  forallb Sliced.plainCall h = true → forallb Flat.plainCall hf = true →
  (List.length h + 2 < fuel)%nat → (List.length hf + 2 < fuel)%nat →
  plain (key ev) = true → plain s = true →
  is_Some (Sliced.callbacksAt (Sliced.after fuel behave h) (key ev) s) →
  is_Some (Flat.listeners (Flat.after fuel behavef hf) !! key ev) →
  Sliced.notifierState (store (Sliced.listen ev callback i s (Sliced.after fuel behave h)))
  = Sliced.notifierState (Sliced.after fuel behave h)
  ∧ (let this := Flat.after fuel behavef hf in
     let st := Flat.stateOf this (key ev) in
     Flat.notifierState (store (Flat.listen fuel behavef ev callback i this))
     = Flat.notifierState this
     ∧ stateData st st = st
     ∧ ∀ f set,
         validateEvent ev = true → callback = VFun f →
         Flat.listeners this !! key ev = Some set →
         let registered :=
           {| Flat.listeners := <[key ev := set_add f set]> (Flat.listeners this);
              Flat.notifierState := Flat.notifierState this |} in
         Flat.listen fuel behavef ev callback i this
         = if notNull st then Flat.notify fuel behavef ev st "notifier_default" registered
           else Run (inr tt) registered []).
Proof.
  intros Hb Hbf Hplain Hplainf Hlen Hlenf Hp Hq [set Hset] [setf Hsetf].
  pose proof (wf_after fuel behave Hb h Hplain ltac:(lia)) as Hwf.
  pose proof (flat_wf_after fuel behavef Hbf hf Hplainf ltac:(lia)) as Hwff.
  split.
  - destruct (validateEvent ev) eqn:Hev; [|by rewrite sliced_listen_invalid_store by auto].
    destruct (Sliced.checkValidFunction callback) eqn:Hcb;
      [|by rewrite sliced_listen_invalid_store by auto].
    destruct (valid_function _ Hcb) as [f ->].
    unfold Sliced.callbacksAt in Hset.
    destruct (wf_both _ _ (key ev) Hwf) as [[Hl Hn]|(ls & st & Hl & Hn)];
      rewrite Hl in Hset; simpl in Hset; [done|].
    by rewrite (sliced_listen_old_slice _ _ _ _ _ ls st set).
  - intros this st. split_and!.
    + destruct (validateEvent ev) eqn:Hev; [|by rewrite flat_listen_invalid_store by auto].
      destruct (Flat.checkValidFunction callback) eqn:Hcb;
        [|by rewrite flat_listen_invalid_store by auto].
      assert (∃ f, callback = VFun f) as [f ->]
        by (destruct callback; try discriminate; eauto).
      by rewrite (flat_listen_old_wf fuel behavef Hbf _ _ _ _ _ setf Hwff) by (done || lia).
    + apply stateData_self.
    + intros f set' Hev -> Hset' registered.
      rewrite (flat_listen_old_wf fuel behavef Hbf _ _ _ _ _ set' Hwff) by (done || lia).
      simpl. fold this. fold st. destruct (notNull st) eqn:Hnull; [|done].
      rewrite (flat_notify_hit fuel behavef Hbf _ _ _ _ (set_add f set'));
        [|done|done|simpl; apply lookup_insert_eq
         |pose proof (set_add_length f set');
          pose proof (Flat.wf_short _ _ Hwff _ _ Hset'); lia].
      simpl. assert (Flat.stateOf registered (key ev) = st) as -> by done.
      rewrite stateData_self. subst registered. f_equal. f_equal.
      rewrite insert_id; [done|]. eapply flat_state_present; eauto.
Qed.

(** C10 at a sample history: a second [listen] with another initial state
    leaves [{count: 0}] in place. *)
Lemma C10_witness :
  let this := Sliced.after 5 quiet sliced_listening in
  let thisf := Flat.after 5 quiet flat_listening in
  let r := Sliced.listen (VStr "evt") (VFun (Fn 2)) (count 9) "sliceA" this in
  let rf := Flat.listen 5 quiet (VStr "evt") (VFun (Fn 2)) (count 9) thisf in
  Sliced.notifierState (store r) = Sliced.notifierState this
  ∧ Flat.notifierState (store rf) = Flat.notifierState thisf
  ∧ Sliced.stateAt (store r) "evt" "sliceA" = Some (count 0)
  ∧ Flat.stateOf (store rf) "evt" = count 0.
Proof.
  intros this thisf r rf.
  assert (is_Some (Sliced.callbacksAt this (key (VStr "evt")) "sliceA")) as H1
    by (eexists; reflexivity).
  assert (is_Some (Flat.listeners thisf !! key (VStr "evt")))
    as H2 by (eexists; reflexivity).
  pose proof (C10_listen_again_keeps_the_state 5 quiet quiet
                sliced_listening flat_listening
                (VStr "evt") (VFun (Fn 2)) (count 9) "sliceA"
                ltac:(intros ???; reflexivity) ltac:(intros ???; reflexivity)
                eq_refl eq_refl ltac:(simpl; lia) ltac:(simpl; lia)
                eq_refl eq_refl H1 H2) as [Hs [Hf _]].
  split_and!; [exact Hs|exact Hf|vm_compute; reflexivity..].
Defined.

(** * Further properties of the code

    In this part names are names that no object inherits, event names can be
    printed by a template literal, and listeners return and leave the
    registry alone, as the hypotheses of each theorem say. *)

(** ** Which calls throw *)

(** X1. On the sliced registry, after any history of plain calls, a call throws
    exactly when its arguments are rejected, and then with the error of
    that method: [notify] for an invalid event name, [listen] for an invalid
    event name or a callback that is not a function of this realm,
    [unsubscribe] for an invalid event name or an event for which no
    [listen] was accepted; [getState] never throws.  No call runs into a
    TypeError. *)
Theorem X1_sliced_calls_throw_exactly_on_rejected_arguments
    (fuel : nat) (behave : ListenerCallback → value → M Sliced.ChangeNotifier unit)
    (h : list Sliced.call) :
  inert behave → forallb Sliced.plainCall h = true → (List.length h < fuel)%nat →
  let this := Sliced.after fuel behave h in
  (∀ ev d s c,
     interpolates ev = true → plain (key ev) = true → plain s = true →
     result (Sliced.notify fuel behave ev d s c this)
     = if validateEvent ev then inr tt else inl (InvalidEventName ev))
  ∧ (∀ ev cb i s,
       interpolates ev = true → plain (key ev) = true → plain s = true →
       result (Sliced.listen ev cb i s this)
       = if validateEvent ev && Sliced.checkValidFunction cb then inr tt
         else inl (InvalidParameters ev))
  ∧ (∀ ev cb s,
       interpolates ev = true → plain (key ev) = true → plain s = true →
       result (Sliced.unsubscribe ev cb s this)
       = if validateEvent ev && negb (absent (Sliced.listeners this !! key ev)) then inr tt
         else inl (NoListenersToUnsubscribe ev))
  ∧ (∀ e, absent (Sliced.listeners this !! e) = false
          ↔ ∃ c s, c ∈ h ∧ Sliced.listensTo e s c)
  ∧ (∀ e s, plain e = true → plain s = true →
            ∃ v, result (Sliced.getState e s this) = inr v).
Proof.
  intros Hb Hplain Hlen this.
  pose proof (wf_after fuel behave Hb h Hplain ltac:(lia)) as Hwf. fold this in Hwf.
  split_and!.
  - intros ev d s c Hi Hp Hq. destruct (validateEvent ev) eqn:Hev.
    + by destruct (sliced_notify_accepted fuel behave Hb _ this ev d s c Hwf Hlen Hev Hp Hq)
        as (r' & t & -> & _).
    + by rewrite sliced_notify_invalid.
  - intros ev cb i s Hi Hp Hq. destruct (validateEvent ev) eqn:Hev; simpl;
      [|by rewrite sliced_listen_invalid by auto].
    destruct (Sliced.checkValidFunction cb) eqn:Hcb;
      [|by rewrite sliced_listen_invalid by auto].
    destruct (valid_function _ Hcb) as [f ->].
    by destruct (sliced_listen_accepted _ this ev f i s Hwf Hev Hcb Hp Hq) as (r' & -> & _).
  - intros ev cb s Hi Hp Hq. destruct (validateEvent ev) eqn:Hev; simpl;
      [|by rewrite sliced_unsubscribe_invalid by auto].
    destruct (Sliced.listeners this !! key ev) as [ls|] eqn:Hl; simpl;
      [|by rewrite sliced_unsubscribe_invalid by auto].
    destruct (sliced_unsubscribe_accepted this ev cb s Hev Hp Hq) as (r' & t & -> & _);
      [eauto|done].
  - intros e. rewrite <- (event_registered_iff_listened fuel behave Hb) by (done || lia).
    fold this. destruct (Sliced.listeners this !! e); simpl; split; eauto; try done;
      by intros [? [=]].
  - intros e s Hp Hq. eexists. by rewrite sliced_getState_eq.
Qed.

(** X1 at a sample history. *)
Lemma X1_witness :
  let this := Sliced.after 5 quiet sliced_listening in
  result (Sliced.notify 5 quiet (VStr "evt") (count 1) "sliceA" "test" this) = inr tt
  ∧ result (Sliced.notify 5 quiet (VStr "") (count 1) "sliceA" "test" this)
    = inl (InvalidEventName (VStr ""))
  ∧ result (Sliced.listen (VStr "evt") (VFun (ForeignFn 1)) (count 1) "sliceA" this)
    = inl (InvalidParameters (VStr "evt"))
  ∧ result (Sliced.unsubscribe (VStr "other") (VFun (Fn 1)) "sliceA" this)
    = inl (NoListenersToUnsubscribe (VStr "other"))
  ∧ result (Sliced.unsubscribe (VStr "evt") (VFun (Fn 1)) "sliceA" this) = inr tt.
Proof.
  intros this.
  pose proof (X1_sliced_calls_throw_exactly_on_rejected_arguments 5 quiet sliced_listening
                ltac:(intros ???; reflexivity) eq_refl ltac:(simpl; lia))
    as (Hn & Hl & Hu & _).
  split_and!.
  - exact (Hn (VStr "evt") (count 1) "sliceA" "test" eq_refl eq_refl eq_refl).
  - exact (Hn (VStr "") (count 1) "sliceA" "test" eq_refl eq_refl eq_refl).
  - exact (Hl (VStr "evt") (VFun (ForeignFn 1)) (count 1) "sliceA" eq_refl eq_refl eq_refl).
  - exact (Hu (VStr "other") (VFun (Fn 1)) "sliceA" eq_refl eq_refl eq_refl).
  - exact (Hu (VStr "evt") (VFun (Fn 1)) "sliceA" eq_refl eq_refl eq_refl).
Defined.

(** X2. The same for the flat registry, where every function is accepted
    as a callback: after any history of plain calls a call throws exactly when
    its arguments are rejected, never a TypeError. *)
Theorem X2_flat_calls_throw_exactly_on_rejected_arguments
    (fuel : nat) (behave : ListenerCallback → value → M Flat.ChangeNotifier unit)
    (h : list Flat.call) :
  inert behave → forallb Flat.plainCall h = true → (List.length h + 1 < fuel)%nat →
  let this := Flat.after fuel behave h in
  (∀ ev d c,
     interpolates ev = true → plain (key ev) = true →
     result (Flat.notify fuel behave ev d c this)
     = if validateEvent ev then inr tt else inl (InvalidEventName ev))
  ∧ (∀ ev cb i,
       interpolates ev = true → plain (key ev) = true →
       result (Flat.listen fuel behave ev cb i this)
       = if validateEvent ev && Flat.checkValidFunction cb then inr tt
         else inl (InvalidParameters ev))
  ∧ (∀ ev cb,
       interpolates ev = true → plain (key ev) = true →
       result (Flat.unsubscribe ev cb this)
       = if validateEvent ev && negb (absent (Flat.listeners this !! key ev)) then inr tt
         else inl (NoListenersToUnsubscribe ev))
  ∧ (∀ e, absent (Flat.listeners this !! e) = false ↔ ∃ c, c ∈ h ∧ Flat.listensTo e c).
Proof.
  intros Hb Hplain Hlen this.
  pose proof (flat_wf_after fuel behave Hb h Hplain ltac:(lia)) as Hwf. fold this in Hwf.
  split_and!.
  - intros ev d c Hi Hp. destruct (validateEvent ev) eqn:Hev;
      [|by rewrite flat_notify_invalid].
    destruct (Flat.listeners this !! key ev) as [set|] eqn:Hl.
    + rewrite (flat_notify_hit fuel behave Hb _ _ _ _ set);
        [done..|pose proof (Flat.wf_short _ _ Hwf _ _ Hl); lia].
    + by rewrite flat_notify_no_event.
  - intros ev cb i Hi Hp. destruct (validateEvent ev) eqn:Hev; simpl;
      [|by rewrite flat_listen_invalid by auto].
    destruct (Flat.checkValidFunction cb) eqn:Hcb;
      [|by rewrite flat_listen_invalid by auto].
    assert (∃ f, cb = VFun f) as [f ->] by (destruct cb; try discriminate; eauto).
    destruct (Flat.listeners this !! key ev) as [set|] eqn:Hl.
    + by rewrite (flat_listen_old_wf fuel behave Hb _ _ _ _ _ set Hwf) by (done || lia).
    + by rewrite flat_listen_new by (done || lia).
  - intros ev cb Hi Hp. destruct (validateEvent ev) eqn:Hev; simpl;
      [|by rewrite flat_unsubscribe_invalid by auto].
    destruct (Flat.listeners this !! key ev) as [set|] eqn:Hl; simpl;
      [|by rewrite flat_unsubscribe_invalid by auto].
    by rewrite (flat_unsubscribe_accepted _ _ _ set).
  - intros e. rewrite <- (flat_registered_iff_listened fuel behave Hb) by (done || lia).
    fold this. destruct (Flat.listeners this !! e); simpl; split; eauto; try done;
      by intros [? [=]].
Qed.

(** X2 at a sample history. *)
Lemma X2_witness :
  let this := Flat.after 5 quiet flat_listening in
  result (Flat.notify 5 quiet (VStr "evt") (count 1) "test" this) = inr tt
  ∧ result (Flat.notify 5 quiet (VNum 7) (count 1) "test" this)
    = inl (InvalidEventName (VNum 7))
  ∧ result (Flat.listen 5 quiet (VStr "evt") (VFun (ForeignFn 1)) (count 1) this) = inr tt
  ∧ result (Flat.listen 5 quiet (VStr "evt") VNull (count 1) this)
    = inl (InvalidParameters (VStr "evt"))
  ∧ result (Flat.unsubscribe (VStr "other") (VFun (Fn 1)) this)
    = inl (NoListenersToUnsubscribe (VStr "other")).
Proof.
  intros this.
  pose proof (X2_flat_calls_throw_exactly_on_rejected_arguments 5 quiet flat_listening
                ltac:(intros ???; reflexivity) eq_refl ltac:(simpl; lia))
    as (Hn & Hl & Hu & _).
  split_and!.
  - exact (Hn (VStr "evt") (count 1) "test" eq_refl eq_refl).
  - exact (Hn (VNum 7) (count 1) "test" eq_refl eq_refl).
  - exact (Hl (VStr "evt") (VFun (ForeignFn 1)) (count 1) eq_refl eq_refl).
  - exact (Hl (VStr "evt") VNull (count 1) eq_refl eq_refl).
  - exact (Hu (VStr "other") (VFun (Fn 1)) eq_refl eq_refl).
Defined.

(** ** What a call leaves alone *)

(** X3. [notify] never changes a callback set, changes no state entry but
    the one of the key it is given, and calls no callback outside the set
    of that key: keys are independent of each other.  Both registries, any
    data, any plain call, after any history of plain calls. *)
Theorem X3_notify_touches_only_its_key
    (fuel : nat)
    (behave : ListenerCallback → value → M Sliced.ChangeNotifier unit)
    (behavef : ListenerCallback → value → M Flat.ChangeNotifier unit)
    (h : list Sliced.call) (hf : list Flat.call) (ev d : value) (s c : string) :
  inert behave → inert behavef →
  forallb Sliced.plainCall h = true → forallb Flat.plainCall hf = true →
  (List.length h < fuel)%nat → (List.length hf < fuel)%nat →
  interpolates ev = true → plain (key ev) = true → plain s = true →
  (let this := Sliced.after fuel behave h in
   let r := Sliced.notify fuel behave ev d s c this in
   Sliced.listeners (store r) = Sliced.listeners this
   ∧ (∀ e' s', ¬ (e' = key ev ∧ s' = s) →
               Sliced.stateAt (store r) e' s' = Sliced.stateAt this e' s')
   ∧ (∀ f v, (f, v) ∈ calls (trace r) →
             ∃ set, Sliced.callbacksAt this (key ev) s = Some set ∧ f ∈ members set))
  ∧ (let this := Flat.after fuel behavef hf in
     let r := Flat.notify fuel behavef ev d c this in
     Flat.listeners (store r) = Flat.listeners this
     ∧ (∀ e', e' ≠ key ev →
              Flat.notifierState (store r) !! e' = Flat.notifierState this !! e')
     ∧ (∀ f v, (f, v) ∈ calls (trace r) →
               ∃ set, Flat.listeners this !! key ev = Some set ∧ f ∈ members set)).
Proof.
  intros Hb Hbf Hplain Hplainf Hlen Hlenf Hi Hp Hq.
  pose proof (wf_after fuel behave Hb h Hplain ltac:(lia)) as Hwf.
  pose proof (flat_wf_after fuel behavef Hbf hf Hplainf ltac:(lia)) as Hwff.
  assert (∀ S (m : value → error) (this : S),
            trace (raise (A := unit) m ev this) = []) as Hraise
    by (intros; unfold raise; by destruct (interpolates ev)).
  split.
  - intros this r. subst r. destruct (validateEvent ev) eqn:Hev.
    + destruct (sliced_notify_accepted fuel behave Hb _ this ev d s c Hwf Hlen Hev Hp Hq)
        as (r' & t & -> & Hl & _ & Hcase). simpl.
      destruct (Sliced.callbacksAt this (key ev) s) as [set|] eqn:Hset.
      * destruct Hcase as [Hcalls Hst]. split_and!; [done| |].
        -- intros e' s' Hne. by rewrite Hst, decide_False.
        -- intros f v. rewrite Hcalls. intros (g & [= -> _] & Hg)%list_elem_of_fmap. eauto.
      * destruct Hcase as [-> Hcalls]. split_and!; [done..|].
        intros f v. rewrite Hcalls. by intros ?%elem_of_nil.
    + rewrite sliced_notify_invalid_store by done.
      split_and!; [done..|]. intros f v. unfold Sliced.notify. rewrite Hev. simpl.
      rewrite Hraise. by intros ?%elem_of_nil.
  - intros this r. subst r. destruct (validateEvent ev) eqn:Hev.
    + destruct (Flat.listeners this !! key ev) as [set|] eqn:Hl.
      * rewrite (flat_notify_hit fuel behavef Hbf _ _ _ _ set);
          [|done..|pose proof (Flat.wf_short _ _ Hwff _ _ Hl); lia].
        simpl. split_and!; [done| |].
        -- intros e' Hne. by rewrite lookup_insert_ne.
        -- intros f v. rewrite calls_app, calls_Call. simpl. rewrite app_nil_r.
           intros (g & [= -> _] & Hg)%list_elem_of_fmap. eauto.
      * rewrite flat_notify_no_event by done. simpl. split_and!; [done..|].
        intros f v. by intros ?%elem_of_nil.
    + rewrite flat_notify_invalid_store by done.
      split_and!; [done..|]. intros f v. unfold Flat.notify. rewrite Hev. simpl.
      rewrite Hraise. by intros ?%elem_of_nil.
Qed.

(** X3 at a sample history with two slices: a notification of one leaves
    the state of the other. *)
Lemma X3_witness :
  let h := sliced_listening ++ [Sliced.Listen (VStr "evt") (VFun (Fn 2)) (count 5) "sliceB"] in
  let this := Sliced.after 5 quiet h in
  let r := Sliced.notify 5 quiet (VStr "evt") (count 1) "sliceA" "test" this in
  Sliced.listeners (store r) = Sliced.listeners this
  ∧ Sliced.stateAt (store r) "evt" "sliceB" = Some (count 5)
  ∧ Sliced.stateAt (store r) "evt" "sliceA" = Some (count 1)
  ∧ calls (trace r) = [(Fn 1, count 1)].
Proof.
  intros h this r.
  pose proof (X3_notify_touches_only_its_key 5 quiet quiet h flat_listening (VStr "evt")
                (count 1) "sliceA" "test"
                ltac:(intros ???; reflexivity) ltac:(intros ???; reflexivity)
                eq_refl eq_refl ltac:(simpl; lia) ltac:(simpl; lia)
                eq_refl eq_refl eq_refl)
    as [(Hl & Hst & _) _].
  split_and!; [exact Hl| |vm_compute; reflexivity..].
  etrans; [apply (Hst "evt" "sliceB"); intros [_ [=]]|vm_compute; reflexivity].
Defined.

(** X4. [listen] changes nothing but the entries of the key it is given:
    the callback sets and state entries of all other keys stay as they
    were, also when the key is a new slice of a known event, and the
    entries already in the set of the key keep their places, the new one
    coming after them.  Both registries, any callback and initial state,
    any plain call, after any history of plain calls. *)
Theorem X4_listen_touches_only_its_key
    (fuel : nat)
    (behave : ListenerCallback → value → M Sliced.ChangeNotifier unit)
    (behavef : ListenerCallback → value → M Flat.ChangeNotifier unit)
    (h : list Sliced.call) (hf : list Flat.call) (ev cb i : value) (s : string) :
  inert behave → inert behavef →
  forallb Sliced.plainCall h = true → forallb Flat.plainCall hf = true →
  (List.length h + 1 < fuel)%nat → (List.length hf + 1 < fuel)%nat →
  interpolates ev = true → plain (key ev) = true → plain s = true →
  (let this := Sliced.after fuel behave h in
   let r := Sliced.listen ev cb i s this in
   (∀ e' s', ¬ (e' = key ev ∧ s' = s) →
             Sliced.callbacksAt (store r) e' s' = Sliced.callbacksAt this e' s'
             ∧ Sliced.stateAt (store r) e' s' = Sliced.stateAt this e' s')
   ∧ (∀ set, Sliced.callbacksAt this (key ev) s = Some set →
             ∃ new, Sliced.callbacksAt (store r) (key ev) s = Some (set ++ new)))
  ∧ (let this := Flat.after fuel behavef hf in
     let r := Flat.listen fuel behavef ev cb i this in
     (∀ e', e' ≠ key ev →
            Flat.listeners (store r) !! e' = Flat.listeners this !! e'
            ∧ Flat.notifierState (store r) !! e' = Flat.notifierState this !! e')
     ∧ (∀ set, Flat.listeners this !! key ev = Some set →
               ∃ new, Flat.listeners (store r) !! key ev = Some (set ++ new))).
Proof.
  intros Hb Hbf Hplain Hplainf Hlen Hlenf Hi Hp Hq.
  pose proof (wf_after fuel behave Hb h Hplain ltac:(lia)) as Hwf.
  pose proof (flat_wf_after fuel behavef Hbf hf Hplainf ltac:(lia)) as Hwff.
  assert (∀ f set, ∃ new, set_add f set = set ++ new) as Hadd.
  { intros f set. unfold set_add. case_decide; [exists []|eexists]; [|done].
    by rewrite app_nil_r. }
  split.
  - intros this r. subst r.
    destruct (validateEvent ev) eqn:Hev; [destruct (Sliced.checkValidFunction cb) eqn:Hcb|].
    + destruct (valid_function _ Hcb) as [f ->].
      destruct (sliced_listen_accepted _ this ev f i s Hwf Hev Hcb Hp Hq)
        as (r' & -> & _ & _ & Hc & Hs). simpl. split.
      * intros e' s' Hne. by rewrite Hc, Hs, !decide_False.
      * intros set Hset. rewrite Hc, decide_True, Hset by done. simpl.
        destruct (Hadd f set) as [new ->]. eauto.
    + rewrite sliced_listen_invalid_store by auto. split; [done|].
      intros set ->. exists []. by rewrite app_nil_r.
    + rewrite sliced_listen_invalid_store by auto. split; [done|].
      intros set ->. exists []. by rewrite app_nil_r.
  - intros this r. subst r.
    destruct (validateEvent ev) eqn:Hev; [destruct (Flat.checkValidFunction cb) eqn:Hcb|].
    + assert (∃ f, cb = VFun f) as [f ->] by (destruct cb; try discriminate; eauto).
      destruct (Flat.listeners this !! key ev) as [set|] eqn:Hl.
      * rewrite (flat_listen_old_wf fuel behavef Hbf _ _ _ _ _ set Hwff) by (done || lia).
        simpl. split.
        -- intros e' Hne. by rewrite lookup_insert_ne.
        -- intros set' [= <-]. rewrite lookup_insert_eq.
           destruct (Hadd f set) as [new ->]. eauto.
      * rewrite flat_listen_new by (done || lia). simpl. split; [|done].
        intros e' Hne. by rewrite !lookup_insert_ne.
    + rewrite flat_listen_invalid_store by auto. split; [done|].
      intros set ->. exists []. by rewrite app_nil_r.
    + rewrite flat_listen_invalid_store by auto. split; [done|].
      intros set ->. exists []. by rewrite app_nil_r.
Qed.

(** X4 at a sample history: a second listener on the pair comes after the
    first, and a new slice leaves the first slice as it was. *)
Lemma X4_witness :
  let this := Sliced.after 5 quiet sliced_listening in
  let r := Sliced.listen (VStr "evt") (VFun (Fn 2)) (count 5) "sliceA" this in
  let r' := Sliced.listen (VStr "evt") (VFun (Fn 2)) (count 5) "sliceB" this in
  Sliced.callbacksAt (store r) "evt" "sliceA" = Some [Some (Fn 1); Some (Fn 2)]
  ∧ Sliced.callbacksAt (store r') "evt" "sliceA" = Some [Some (Fn 1)]
  ∧ Sliced.stateAt (store r') "evt" "sliceA" = Some (count 0).
Proof.
  intros this r r'.
  pose proof (X4_listen_touches_only_its_key 5 quiet quiet sliced_listening flat_listening
                (VStr "evt") (VFun (Fn 2)) (count 5) "sliceB"
                ltac:(intros ???; reflexivity) ltac:(intros ???; reflexivity)
                eq_refl eq_refl ltac:(simpl; lia) ltac:(simpl; lia)
                eq_refl eq_refl eq_refl)
    as [(Hother & _) _].
  destruct (Hother "evt" "sliceA") as [Hc Hs]; [intros [_ [=]]|].
  split_and!; [vm_compute; reflexivity| |].
  - etrans; [exact Hc|vm_compute; reflexivity].
  - etrans; [exact Hs|vm_compute; reflexivity].
Defined.

(** ** How notifications compose *)

Lemma stateData_compose (prior d1 d2 : value) :
  checkValidObject d1 = true → checkValidObject d2 = true →
  checkValidObject (spread2 d1 d2) = true
  ∧ stateData (stateData prior d1) d2 = stateData prior (spread2 d1 d2).
Proof.
  intros H1 H2. destruct d1 as [| | | | | | |m1| |]; try discriminate.
  destruct d2 as [| | | | | | |m2| |]; try discriminate.
  unfold checkValidObject, constructorIsObject in *. simpl in *.
  destruct (m1 !! "constructor") eqn:E1; [discriminate|].
  destruct (m2 !! "constructor") eqn:E2; [discriminate|].
  assert ((m2 ∪ m1) !! "constructor" = None) as E by (apply lookup_union_None; done).
  unfold stateData, spread2, checkValidObject, constructorIsObject. simpl.
  rewrite E1, E2, E. simpl. split; [done|].
  by rewrite ownProps_or_else, (assoc_L (∪)).
Qed.

Lemma after_snoc2 (fuel : nat) (behave : ListenerCallback → value → M Sliced.ChangeNotifier unit)
    (h : list Sliced.call) (c1 c2 : Sliced.call) :
  Sliced.after fuel behave (h ++ [c1; c2])
  = Sliced.exec fuel behave (Sliced.exec fuel behave (Sliced.after fuel behave h) c1) c2.
Proof. unfold Sliced.after. by rewrite foldl_app. Qed.

Lemma flat_after_snoc2 (fuel : nat) (behave : ListenerCallback → value → M Flat.ChangeNotifier unit)
    (h : list Flat.call) (c1 c2 : Flat.call) :
  Flat.after fuel behave (h ++ [c1; c2])
  = Flat.exec fuel behave (Flat.exec fuel behave (Flat.after fuel behave h) c1) c2.
Proof. unfold Flat.after. by rewrite foldl_app. Qed.

(** X5. Two [notify] calls with plain records on one key leave the registry
    exactly as the single [notify] of the two records spread into one,
    [{ ...d1, ...d2 }], would; the listeners of the key, if any, get from
    the second call the value they would get from that single call.  Both
    registries, after any history of plain calls. *)
Theorem X5_record_notifications_compose
    (fuel : nat)
    (behave : ListenerCallback → value → M Sliced.ChangeNotifier unit)
    (behavef : ListenerCallback → value → M Flat.ChangeNotifier unit)
    (h : list Sliced.call) (hf : list Flat.call) (ev d1 d2 : value) (s c1 c2 c : string) :
  inert behave → inert behavef →
  forallb Sliced.plainCall h = true → forallb Flat.plainCall hf = true →
  (List.length h < fuel)%nat → (List.length hf < fuel)%nat →
  validateEvent ev = true → plain (key ev) = true → plain s = true →
  checkValidObject d1 = true →
  checkValidObject d2 = true →
  (Sliced.after fuel behave (h ++ [Sliced.Notify ev d1 s c1; Sliced.Notify ev d2 s c2])
   = Sliced.after fuel behave (h ++ [Sliced.Notify ev (spread2 d1 d2) s c])
   ∧ calls (trace (Sliced.notify fuel behave ev d2 s c2
                     (Sliced.after fuel behave (h ++ [Sliced.Notify ev d1 s c1]))))
     = calls (trace (Sliced.notify fuel behave ev (spread2 d1 d2) s c
                       (Sliced.after fuel behave h))))
  ∧ (Flat.after fuel behavef (hf ++ [Flat.Notify ev d1 c1; Flat.Notify ev d2 c2])
     = Flat.after fuel behavef (hf ++ [Flat.Notify ev (spread2 d1 d2) c])
     ∧ calls (trace (Flat.notify fuel behavef ev d2 c2
                       (Flat.after fuel behavef (hf ++ [Flat.Notify ev d1 c1]))))
       = calls (trace (Flat.notify fuel behavef ev (spread2 d1 d2) c
                         (Flat.after fuel behavef hf)))).
Proof.
  intros Hb Hbf Hplain Hplainf Hlen Hlenf Hev Hp Hq H1 H2.
  pose proof (wf_after fuel behave Hb h Hplain ltac:(lia)) as Hwf.
  pose proof (flat_wf_after fuel behavef Hbf hf Hplainf ltac:(lia)) as Hwff.
  assert (∀ prior, stateData (stateData prior d1) d2 = stateData prior (spread2 d1 d2))
    as Hcomp by (intros; by apply stateData_compose).
  split.
  - rewrite after_snoc2, !after_snoc. simpl.
    set (this := Sliced.after fuel behave h) in *.
    destruct (wf_both _ this (key ev) Hwf) as [[Hl Hn]|(ls & st & Hl & Hn)].
    { rewrite !(sliced_notify_no_event fuel behave this) by done. simpl.
      by rewrite ?(sliced_notify_no_event fuel behave this) by done. }
    destruct (ls !! s) as [set|] eqn:Hs.
    + assert (List.length set < fuel)%nat as Hshort.
      { pose proof (Sliced.wf_short _ _ Hwf (key ev) s set) as Hx.
        unfold Sliced.callbacksAt in Hx. fold this in Hx. rewrite Hl in Hx.
        specialize (Hx Hs). lia. }
      rewrite (sliced_notify_hit fuel behave Hb this _ d1 _ _ ls set st) by done.
      rewrite (sliced_notify_hit fuel behave Hb this _ (spread2 d1 d2) _ _ ls set st)
        by done.
      simpl.
      erewrite (sliced_notify_hit fuel behave Hb);
        [|done|done|done|done|exact Hs|simpl; apply lookup_insert_eq|done]. simpl.
      rewrite !lookup_insert_eq. simpl. rewrite !Hcomp.
      rewrite !insert_insert_eq. split; [done|].
      by rewrite !calls_app, !calls_Call.
    + rewrite !(sliced_notify_no_slice fuel behave this _ _ _ _ ls) by done. simpl.
      by rewrite ?(sliced_notify_no_slice fuel behave this _ _ _ _ ls) by done.
  - rewrite flat_after_snoc2, !flat_after_snoc. simpl.
    set (this := Flat.after fuel behavef hf) in *.
    destruct (Flat.listeners this !! key ev) as [set|] eqn:Hl.
    + pose proof (Flat.wf_short _ _ Hwff _ _ Hl) as Hshort.
      rewrite (flat_notify_hit fuel behavef Hbf this _ d1 _ set) by (done || lia).
      rewrite (flat_notify_hit fuel behavef Hbf this _ (spread2 d1 d2) _ set)
        by (done || lia).
      simpl.
      erewrite (flat_notify_hit fuel behavef Hbf); [|done|done|exact Hl|lia]. simpl.
      unfold Flat.stateOf. simpl. rewrite !lookup_insert_eq. simpl.
      rewrite !Hcomp. rewrite !insert_insert_eq. split; [done|].
      by rewrite !calls_app, !calls_Call.
    + rewrite !(flat_notify_no_event fuel behavef this) by done. simpl.
      by rewrite ?(flat_notify_no_event fuel behavef this) by done.
Qed.

(** X5 at the scenario of the specification: [{a: 1, b: 2}] then [{b: 3}]
    leaves [{a: 1, b: 3}, count: 0]. *)
Lemma X5_witness :
  let ev := VStr "evt" in
  let d1 := VObj (<["a" := VNum 1]> {["b" := VNum 2]}) in
  let d2 := VObj {["b" := VNum 3]} in
  let after2 := Sliced.after 5 quiet
                  (sliced_listening
                     ++ [Sliced.Notify ev d1 "sliceA" "x"; Sliced.Notify ev d2 "sliceA" "y"]) in
  after2 = Sliced.after 5 quiet
             (sliced_listening ++ [Sliced.Notify ev (spread2 d1 d2) "sliceA" "z"])
  ∧ Flat.after 5 quiet (flat_listening ++ [Flat.Notify ev d1 "x"; Flat.Notify ev d2 "y"])
    = Flat.after 5 quiet (flat_listening ++ [Flat.Notify ev (spread2 d1 d2) "z"])
  ∧ Sliced.stateAt after2 "evt" "sliceA"
    = Some (VObj (<["a" := VNum 1]> (<["b" := VNum 3]> {["count" := VNum 0]}))).
Proof.
  intros ev d1 d2 after2.
  pose proof (X5_record_notifications_compose 5 quiet quiet sliced_listening flat_listening
                ev d1 d2 "sliceA" "x" "y" "z"
                ltac:(intros ???; reflexivity) ltac:(intros ???; reflexivity)
                eq_refl eq_refl ltac:(simpl; lia) ltac:(simpl; lia)
                eq_refl eq_refl eq_refl eq_refl eq_refl) as [[Hs _] [Hf _]].
  split_and!; [exact Hs|exact Hf|vm_compute; reflexivity].
Defined.

(** ** Subscribing and unsubscribing *)

Lemma filter_snoc_absent (f : ListenerCallback) (set : list ListenerCallback) :
  f ∉ set → filter (λ x, x ≠ f) (set ++ [f]) = set.
Proof.
  intros Hf. rewrite filter_app, filter_absent by done.
  rewrite filter_cons_False by (intros H; by apply H). by rewrite filter_nil, app_nil_r.
Qed.

Lemma members_delete_add (f : ListenerCallback) (set : list (option ListenerCallback)) :
  f ∉ members set →
  (set_delete f (set_add f set)).1 = true
  ∧ members (set_delete f (set_add f set)).2 = members set.
Proof.
  intros Hf. split.
  - rewrite set_delete_found. apply bool_decide_eq_true, set_add_elem. by left.
  - rewrite members_set_delete, members_set_add, decide_False by done.
    by apply filter_snoc_absent.
Qed.

(** X6. On a key that has a callback set without the callback, [listen]
    followed by [unsubscribe] of that callback returns every key to the
    callbacks and the state it had; the [unsubscribe] finds the callback
    and does not warn.  Both registries, after any history of plain calls. *)
Theorem X6_listen_then_unsubscribe_restores_the_registry
    (fuel : nat)
    (behave : ListenerCallback → value → M Sliced.ChangeNotifier unit)
    (behavef : ListenerCallback → value → M Flat.ChangeNotifier unit)
    (h : list Sliced.call) (hf : list Flat.call) (ev : value) (f : ListenerCallback)
    (i : value) (s : string) (set setf : list (option ListenerCallback)) :
  inert behave → inert behavef →
  forallb Sliced.plainCall h = true → forallb Flat.plainCall hf = true →
  (List.length h + 1 < fuel)%nat → (List.length hf + 1 < fuel)%nat →
  validateEvent ev = true → plain (key ev) = true → plain s = true →
  Sliced.checkValidFunction (VFun f) = true →
  Sliced.callbacksAt (Sliced.after fuel behave h) (key ev) s = Some set →
  f ∉ members set →
  Flat.listeners (Flat.after fuel behavef hf) !! key ev = Some setf →
  f ∉ members setf →
  (let this := Sliced.after fuel behave h in
   let u := Sliced.unsubscribe ev (VFun f) s (store (Sliced.listen ev (VFun f) i s this)) in
   result u = inr tt
   ∧ trace u = []
   ∧ Sliced.notifierState (store u) = Sliced.notifierState this
   ∧ ∀ e' s', members <$> Sliced.callbacksAt (store u) e' s'
              = members <$> Sliced.callbacksAt this e' s')
  ∧ (let this := Flat.after fuel behavef hf in
     let u := Flat.unsubscribe ev (VFun f)
                (store (Flat.listen fuel behavef ev (VFun f) i this)) in
     result u = inr tt
     ∧ trace u = []
     ∧ Flat.notifierState (store u) = Flat.notifierState this
     ∧ ∀ e', members <$> Flat.listeners (store u) !! e'
             = members <$> Flat.listeners this !! e').
Proof.
  intros Hb Hbf Hplain Hplainf Hlen Hlenf Hev Hp Hq Hcb Hset Hf Hsetf Hff.
  pose proof (wf_after fuel behave Hb h Hplain ltac:(lia)) as Hwf.
  pose proof (flat_wf_after fuel behavef Hbf hf Hplainf ltac:(lia)) as Hwff.
  split.
  - intros this u. subst u. unfold Sliced.callbacksAt in Hset. fold this in Hset, Hwf.
    destruct (wf_both _ this (key ev) Hwf) as [[Hl Hn]|(ls & st & Hl & Hn)];
      rewrite Hl in Hset; simpl in Hset; [done|].
    rewrite (sliced_listen_old_slice _ _ _ _ _ ls st set) by done. cbn [store].
    erewrite sliced_unsubscribe_slice;
      [|done|done|done|simpl; apply lookup_insert_eq|apply lookup_insert_eq].
    destruct (members_delete_add f set Hf) as [Hfound Hmem].
    unfold delete_. rewrite Hfound. cbn [result trace store Sliced.notifierState].
    split_and!; [done..|].
    intros e' s'. unfold Sliced.callbacksAt. cbn [Sliced.listeners].
    rewrite !insert_insert_eq.
    destruct (decide (e' = key ev)) as [->|Hne].
    + rewrite lookup_insert_eq, Hl. simpl.
      destruct (decide (s' = s)) as [->|Hns].
      * rewrite lookup_insert_eq, Hset. simpl. f_equal. exact Hmem.
      * by rewrite lookup_insert_ne.
    + by rewrite lookup_insert_ne.
  - intros this u. subst u. fold this in Hwff, Hsetf.
    rewrite (flat_listen_old_wf fuel behavef Hbf _ _ _ _ _ setf Hwff) by (done || lia).
    cbn [store].
    erewrite flat_unsubscribe_accepted; [|done|done|simpl; apply lookup_insert_eq].
    destruct (members_delete_add f setf Hff) as [Hfound Hmem].
    unfold delete_. rewrite Hfound. cbn [result trace store Flat.notifierState].
    split_and!; [done..|].
    intros e'. cbn [Flat.listeners]. rewrite !insert_insert_eq.
    destruct (decide (e' = key ev)) as [->|Hne].
    + rewrite lookup_insert_eq, Hsetf. simpl. f_equal. exact Hmem.
    + by rewrite lookup_insert_ne.
Qed.

(** X6 at a sample history. *)
Lemma X6_witness :
  let ev := VStr "evt" in
  let this := Sliced.after 5 quiet sliced_listening in
  let thisf := Flat.after 5 quiet flat_listening in
  let u := Sliced.unsubscribe ev (VFun (Fn 2)) "sliceA"
             (store (Sliced.listen ev (VFun (Fn 2)) VNull "sliceA" this)) in
  let uf := Flat.unsubscribe ev (VFun (Fn 2))
              (store (Flat.listen 5 quiet ev (VFun (Fn 2)) VNull thisf)) in
  (result u = inr tt ∧ trace u = []
   ∧ members <$> Sliced.callbacksAt (store u) "evt" "sliceA" = Some [Fn 1]
   ∧ Sliced.notifierState (store u) = Sliced.notifierState this)
  ∧ (result uf = inr tt ∧ trace uf = []
     ∧ members <$> Flat.listeners (store uf) !! "evt" = Some [Fn 1]
     ∧ Flat.notifierState (store uf) = Flat.notifierState thisf).
Proof.
  intros ev this thisf u uf.
  assert (Fn 2 ∉ members [Some (Fn 1)]) as Hf by (intros [=]%list_elem_of_singleton).
  pose proof (X6_listen_then_unsubscribe_restores_the_registry 5 quiet quiet
                sliced_listening flat_listening ev (Fn 2) VNull "sliceA"
                [Some (Fn 1)] [Some (Fn 1)]
                ltac:(intros ???; reflexivity) ltac:(intros ???; reflexivity)
                eq_refl eq_refl ltac:(simpl; lia) ltac:(simpl; lia)
                eq_refl eq_refl eq_refl eq_refl eq_refl Hf eq_refl Hf)
    as [(H1 & H2 & H3 & H4) (H5 & H6 & H7 & H8)].
  split; (split_and!; [assumption|assumption| |assumption]).
  - etrans; [apply (H4 "evt" "sliceA")|vm_compute; reflexivity].
  - etrans; [apply (H8 "evt")|vm_compute; reflexivity].
Defined.

Lemma delete_twice (callback : value) (set : list (option ListenerCallback)) :
  delete_ callback (delete_ callback set).2 = (false, (delete_ callback set).2).
Proof.
  apply delete_absent. intros f ->. unfold delete_.
  rewrite members_set_delete, list_elem_of_filter. naive_solver.
Qed.

(** X7. Unsubscribing is idempotent: on a registered event a second
    [unsubscribe] with the same arguments returns normally, only warns that
    there is no such listener, and leaves the registry as the first call
    left it.  Both registries, in any state. *)
Theorem X7_unsubscribe_twice_is_unsubscribe_once
    (this : Sliced.ChangeNotifier) (thisf : Flat.ChangeNotifier)
    (ev callback : value) (s : string) :
  validateEvent ev = true → plain (key ev) = true → plain s = true →
  is_Some (Sliced.listeners this !! key ev) →
  is_Some (Flat.listeners thisf !! key ev) →
  (let once := store (Sliced.unsubscribe ev callback s this) in
   Sliced.unsubscribe ev callback s once
   = Run (inr tt) once [WarnCannotUnsubscribe (key ev)])
  ∧ (let once := store (Flat.unsubscribe ev callback thisf) in
     Flat.unsubscribe ev callback once
     = Run (inr tt) once [WarnCannotUnsubscribe (key ev)]).
Proof.
  intros Hev Hp Hq [ls Hl] [setf Hlf]. split.
  - intros once. subst once. destruct (ls !! s) as [set|] eqn:Hs.
    + rewrite (sliced_unsubscribe_slice this _ _ _ ls set) by done. cbn [store].
      erewrite sliced_unsubscribe_slice;
        [|done|done|done|simpl; apply lookup_insert_eq|apply lookup_insert_eq].
      rewrite delete_twice. cbn [fst snd Sliced.listeners Sliced.notifierState].
      by rewrite !insert_insert_eq.
    + rewrite (sliced_unsubscribe_no_slice this _ _ _ ls) by done. simpl.
      by rewrite (sliced_unsubscribe_no_slice this _ _ _ ls).
  - intros once. subst once.
    rewrite (flat_unsubscribe_accepted thisf _ _ setf) by done. cbn [store].
    erewrite flat_unsubscribe_accepted; [|done|done|simpl; apply lookup_insert_eq].
    rewrite delete_twice. cbn [fst snd Flat.listeners Flat.notifierState].
    by rewrite !insert_insert_eq.
Qed.

(** X7 at a sample history. *)
Lemma X7_witness :
  let ev := VStr "evt" in
  let once := store (Sliced.unsubscribe ev (VFun (Fn 1)) "sliceA"
                       (Sliced.after 5 quiet sliced_listening)) in
  let oncef := store (Flat.unsubscribe ev (VFun (Fn 1)) (Flat.after 5 quiet flat_listening)) in
  members <$> Sliced.callbacksAt once "evt" "sliceA" = Some []
  ∧ Sliced.unsubscribe ev (VFun (Fn 1)) "sliceA" once
    = Run (inr tt) once [WarnCannotUnsubscribe "evt"]
  ∧ Flat.unsubscribe ev (VFun (Fn 1)) oncef = Run (inr tt) oncef [WarnCannotUnsubscribe "evt"].
Proof.
  intros ev once oncef.
  assert (is_Some (Sliced.listeners (Sliced.after 5 quiet sliced_listening) !! key ev)) as H1
    by (eexists; reflexivity).
  assert (is_Some (Flat.listeners (Flat.after 5 quiet flat_listening) !! key ev)) as H2
    by (eexists; reflexivity).
  pose proof (X7_unsubscribe_twice_is_unsubscribe_once
                (Sliced.after 5 quiet sliced_listening) (Flat.after 5 quiet flat_listening)
                ev (VFun (Fn 1)) "sliceA" eq_refl eq_refl eq_refl H1 H2) as [Hs Hf].
  split_and!; [vm_compute; reflexivity|exact Hs|exact Hf].
Defined.

(** ** A key whose listeners have all left *)

Lemma wf_unsubscribe (n : nat) (this : Sliced.ChangeNotifier) (ev cb : value) (s : string) :
  Sliced.wf n this → plain (key ev) = true → plain s = true →
  Sliced.wf n (store (Sliced.unsubscribe ev cb s this)).
Proof.
  intros Hwf Hp Hq.
  destruct (validateEvent ev) eqn:Hev;
    [|by rewrite sliced_unsubscribe_invalid_store by auto].
  destruct (Sliced.listeners this !! key ev) as [ls|] eqn:Hls;
    [|by rewrite sliced_unsubscribe_invalid_store by auto].
  destruct (sliced_unsubscribe_accepted this ev cb s Hev Hp Hq)
    as (r' & t & -> & Hn & _ & Hl & Hc); [eauto|]. simpl.
  split.
  - intros e. rewrite Hl, Hn. apply Hwf.
  - intros e s'. rewrite Hc. unfold Sliced.stateAt. rewrite Hn.
    fold (Sliced.stateAt this e s'). case_decide as Hd; [|apply Hwf].
    destruct Hd as [-> ->]. rewrite fmap_is_Some. apply Hwf.
  - intros e s' set. rewrite Hc. case_decide.
    + destruct (Sliced.callbacksAt this (key ev) s) as [set0|] eqn:E; [|done].
      simpl. intros [= <-]. apply delete_NoDup. eapply Hwf; eauto.
    + apply Hwf.
  - intros e s' set. rewrite Hc. case_decide.
    + destruct (Sliced.callbacksAt this (key ev) s) as [set0|] eqn:E; [|done].
      simpl. intros [= <-]. rewrite delete_length.
      by apply (Sliced.wf_short _ _ Hwf _ _ _ E).
    + apply Hwf.
Qed.

Lemma sliced_unsubscribe_all (n : nat) (ev : value) (s : string) (l : list ListenerCallback) :
  validateEvent ev = true → plain (key ev) = true → plain s = true →
  ∀ (this : Sliced.ChangeNotifier) (cur : list (option ListenerCallback)),
    Sliced.wf n this → Sliced.callbacksAt this (key ev) s = Some cur →
    let this' := foldl (λ r f, store (Sliced.unsubscribe ev (VFun f) s r)) this l in
    Sliced.wf n this'
    ∧ members <$> Sliced.callbacksAt this' (key ev) s
      = Some (filter (λ g, g ∉ l) (members cur))
    ∧ Sliced.notifierState this' = Sliced.notifierState this.
Proof.
  intros Hev Hp Hq. induction l as [|f l IH]; intros this cur Hwf Hcur; simpl.
  - split_and!; [done| |done]. rewrite Hcur. simpl. f_equal. symmetry.
    generalize (members cur). clear. intros cur. induction cur as [|g cur IHc]; [done|].
    rewrite filter_cons_True by apply not_elem_of_nil. by rewrite IHc.
  - pose proof (wf_unsubscribe n this ev (VFun f) s Hwf Hp Hq) as Hwf'.
    destruct (sliced_unsubscribe_accepted this ev (VFun f) s Hev Hp Hq)
      as (r' & t & Hu & Hn & _ & _ & Hc);
      [by apply (callbacksAt_event _ _ s); rewrite Hcur|].
    rewrite Hu in *. cbn [store] in *.
    specialize (Hc (key ev) s). rewrite decide_True, Hcur in Hc by done.
    cbn [fmap option_fmap option_map] in Hc.
    destruct (IH r' _ Hwf' Hc) as (Hwf'' & Hc' & Hn').
    split_and!; [done| |congruence].
    rewrite Hc'. f_equal. unfold delete_. rewrite members_set_delete.
    rewrite list_filter_filter. apply list_filter_iff.
    intros g. rewrite not_elem_of_cons. naive_solver.
Qed.

Lemma filter_out_all (set : list ListenerCallback) : filter (λ g, g ∉ set) set = [].
Proof.
  destruct (filter (λ g, g ∉ set) set) as [|g l] eqn:E; [done|].
  assert (g ∈ filter (λ g, g ∉ set) set) as Hg by (rewrite E; by left).
  apply list_elem_of_filter in Hg as [Hn Hg]. done.
Qed.

(** X8. Once every callback of a key has unsubscribed, the key keeps its
    entries: its state is what it was, and a [notify] on it is not treated
    as a notification nobody listens to but still merges and stores the
    data, calls nobody and warns about nothing.  Sliced registry, after any
    history of plain calls. *)
Theorem X8_notify_after_all_listeners_left
    (fuel : nat) (behave : ListenerCallback → value → M Sliced.ChangeNotifier unit)
    (h : list Sliced.call) (ev d : value) (s c : string)
    (set : list (option ListenerCallback)) :
  inert behave → forallb Sliced.plainCall h = true → (List.length h < fuel)%nat →
  validateEvent ev = true → plain (key ev) = true → plain s = true →
  Sliced.callbacksAt (Sliced.after fuel behave h) (key ev) s = Some set →
  let left := foldl (λ r f, store (Sliced.unsubscribe ev (VFun f) s r))
                (Sliced.after fuel behave h) (members set) in
  let prior := default VUndefined (Sliced.stateAt (Sliced.after fuel behave h) (key ev) s) in
  let n := Sliced.notify fuel behave ev d s c left in
  members <$> Sliced.callbacksAt left (key ev) s = Some []
  ∧ Sliced.notifierState left = Sliced.notifierState (Sliced.after fuel behave h)
  ∧ result n = inr tt
  ∧ Sliced.stateAt (store n) (key ev) s = Some (stateData prior d)
  ∧ trace n = [LogNotify (key ev) c d; LogState (Sliced.notifierState (store n))].
Proof.
  intros Hb Hplain Hlen Hev Hp Hq Hset left prior n.
  pose proof (wf_after fuel behave Hb h Hplain ltac:(lia)) as Hwf0.
  destruct (sliced_unsubscribe_all _ ev s (members set) Hev Hp Hq
              (Sliced.after fuel behave h) set Hwf0 Hset) as (Hwf & Hc & Hn).
  fold left in Hwf, Hc, Hn. rewrite filter_out_all in Hc.
  destruct (Sliced.callbacksAt left (key ev) s) as [cur|] eqn:Hcur; [|done].
  cbn [fmap option_fmap option_map] in Hc. injection Hc as Hc.
  split_and!; [cbn [fmap option_fmap option_map]; by rewrite Hc|done| | |]; subst n.
  - by destruct (sliced_notify_accepted fuel behave Hb _ left ev d s c Hwf Hlen Hev Hp Hq)
      as (r' & t & -> & _).
  - destruct (sliced_notify_accepted fuel behave Hb _ left ev d s c Hwf Hlen Hev Hp Hq)
      as (r' & t & -> & _ & _ & Hcase).
    rewrite Hcur in Hcase. destruct Hcase as [_ Hst]. simpl.
    rewrite Hst, decide_True by done. unfold Sliced.stateAt at 1. rewrite Hn. done.
  - pose proof (Sliced.wf_short _ _ Hwf _ _ _ Hcur) as Hshort.
    unfold Sliced.callbacksAt in Hcur.
    destruct (wf_both _ left (key ev) Hwf) as [[Hl Hns]|(ls & st & Hl & Hns)];
      rewrite Hl in Hcur; simpl in Hcur; [done|].
    rewrite (sliced_notify_hit fuel behave Hb left _ _ _ _ ls cur st) by (done || lia).
    simpl. by rewrite Hc.
Qed.

(** X8 at a sample history. *)
Lemma X8_witness :
  let ev := VStr "evt" in
  let left := foldl (λ r f, store (Sliced.unsubscribe ev (VFun f) "sliceA" r))
                (Sliced.after 5 quiet sliced_listening) [Fn 1] in
  let n := Sliced.notify 5 quiet ev (VObj {["extra" := VNum 4]}) "sliceA" "test" left in
  members <$> Sliced.callbacksAt left "evt" "sliceA" = Some []
  ∧ result n = inr tt
  ∧ calls (trace n) = []
  ∧ Sliced.stateAt (store n) "evt" "sliceA"
    = Some (VObj (<["extra" := VNum 4]> {["count" := VNum 0]})).
Proof.
  intros ev left n.
  pose proof (X8_notify_after_all_listeners_left 5 quiet sliced_listening ev
                (VObj {["extra" := VNum 4]}) "sliceA" "test" [Some (Fn 1)]
                ltac:(intros ???; reflexivity) eq_refl ltac:(simpl; lia)
                eq_refl eq_refl eq_refl eq_refl) as (H1 & _ & H2 & H3 & H4).
  split_and!; [exact H1|exact H2| |].
  - etrans; [exact (f_equal calls H4)|reflexivity].
  - etrans; [exact H3|vm_compute; reflexivity].
Defined.

(** ** The hook *)

Lemma callbacksAt_Some_inv (this : Sliced.ChangeNotifier) (e s : string)
    (set : list (option ListenerCallback)) :
  Sliced.callbacksAt this e s = Some set →
  ∃ ls, Sliced.listeners this !! e = Some ls ∧ ls !! s = Some set.
Proof.
  unfold Sliced.callbacksAt. destruct (Sliced.listeners this !! e) as [ls|]; [|done].
  simpl. eauto.
Qed.


Lemma hook_event_valid (e : string) : e ≠ "" → validateEvent (VStr e) = true.
Proof.
  intros He. unfold validateEvent. simpl. rewrite andb_true_r.
  by apply negb_true_iff, String.eqb_neq.
Qed.

Section hook.
Variable fuel : nat.
Variable behave : ListenerCallback → value → M Sliced.ChangeNotifier unit.
Hypothesis behave_inert : inert behave.

(** The registry right after the effect of a hook has run. *)
Lemma hook_mounted (h : list Sliced.call) (k : UseNotifier.hook) :
  forallb Sliced.plainCall h = true → (List.length h < fuel)%nat →
  UseNotifier.eventName k ≠ "" →
  plain (UseNotifier.eventName k) = true → plain (UseNotifier.sliceName k) = true →
  Sliced.checkValidFunction (VFun (UseNotifier.handleUpdate k)) = true →
  let e := UseNotifier.eventName k in
  let s := UseNotifier.sliceName k in
  let f := UseNotifier.handleUpdate k in
  let this := Sliced.after fuel behave h in
  ∃ r', UseNotifier.useEffect k this = Run (inr tt) r' []
    ∧ Sliced.wf (S (List.length h)) r'
    ∧ Sliced.callbacksAt r' e s = Some (set_add f (default [] (Sliced.callbacksAt this e s)))
    ∧ Sliced.stateAt r' e s
      = Some (default (defaultParam (UseNotifier.initialState k) (VObj ∅))
                (Sliced.stateAt this e s))
    ∧ ∀ e' s', ¬ (e' = e ∧ s' = s) →
               Sliced.callbacksAt r' e' s' = Sliced.callbacksAt this e' s'
               ∧ Sliced.stateAt r' e' s' = Sliced.stateAt this e' s'.
Proof.
  intros Hplain Hlen He Hp Hq Hcb e s f this.
  pose proof (hook_event_valid e He) as Hev.
  pose proof (wf_after fuel behave behave_inert h Hplain ltac:(lia)) as Hwf0.
  pose proof (wf_exec fuel behave behave_inert _ this
                (Sliced.Listen (VStr e) (VFun f) (UseNotifier.initialState k) s)
                Hwf0 Hlen) as Hwf.
  simpl in Hwf. fold e s in Hp, Hq. rewrite Hp, Hq in Hwf. specialize (Hwf eq_refl).
  unfold UseNotifier.useEffect. fold e s f.
  destruct (sliced_listen_accepted _ this (VStr e) f (UseNotifier.initialState k) s
              Hwf0 Hev Hcb Hp Hq) as (r' & Hr & _ & _ & Hc & Hs).
  rewrite Hr in *. simpl in *. exists r'. split_and!; [done..| | |].
  - by rewrite Hc, decide_True.
  - by rewrite Hs, decide_True.
  - intros e' s' Hne. by rewrite Hc, Hs, !decide_False.
Qed.

End hook.

(** X9. Mounting and then unmounting a component that uses the hook with a
    non-empty event name: neither the effect nor its cleanup throws, calls
    a callback or warns; afterwards [handleUpdate] is no longer subscribed,
    the other callbacks of the key are subscribed as before, the key has
    its state entry (the one it had, else the hook's initial state), and no
    other key has changed.  After any history of plain calls. *)
Theorem X9_hook_mount_then_unmount
    (fuel : nat) (behave : ListenerCallback → value → M Sliced.ChangeNotifier unit)
    (h : list Sliced.call) (k : UseNotifier.hook) :
  inert behave → forallb Sliced.plainCall h = true → (List.length h < fuel)%nat →
  UseNotifier.eventName k ≠ "" →
  plain (UseNotifier.eventName k) = true → plain (UseNotifier.sliceName k) = true →
  Sliced.checkValidFunction (VFun (UseNotifier.handleUpdate k)) = true →
  let e := UseNotifier.eventName k in
  let s := UseNotifier.sliceName k in
  let this := Sliced.after fuel behave h in
  let m := UseNotifier.useEffect k this in
  let u := UseNotifier.cleanup k (store m) in
  result m = inr tt ∧ trace m = []
  ∧ result u = inr tt ∧ trace u = []
  ∧ members <$> Sliced.callbacksAt (store u) e s
    = Some (filter (λ g, g ≠ UseNotifier.handleUpdate k)
              (members (default [] (Sliced.callbacksAt this e s))))
  ∧ Sliced.stateAt (store u) e s
    = Some (default (defaultParam (UseNotifier.initialState k) (VObj ∅))
              (Sliced.stateAt this e s))
  ∧ ∀ e' s', ¬ (e' = e ∧ s' = s) →
             members <$> Sliced.callbacksAt (store u) e' s'
             = members <$> Sliced.callbacksAt this e' s'
             ∧ Sliced.stateAt (store u) e' s' = Sliced.stateAt this e' s'.
Proof.
  intros Hb Hplain Hlen He Hp Hq Hcb e s this m u.
  pose proof (hook_event_valid e He) as Hev.
  destruct (hook_mounted fuel behave Hb h k Hplain Hlen He Hp Hq Hcb)
    as (r' & Hm & Hwf & Hc & Hs & Hframe).
  fold e s this in Hm, Hc, Hs, Hframe. subst u m. rewrite Hm. cbn [result trace store].
  destruct (callbacksAt_Some_inv _ _ _ _ Hc) as (ls & Hl & Hls).
  unfold UseNotifier.cleanup. fold e s.
  pose proof (sliced_unsubscribe_slice r' (VStr e) (VFun (UseNotifier.handleUpdate k)) s
                ls _ Hev Hp Hq Hl Hls) as Hu.
  destruct (sliced_unsubscribe_accepted r' (VStr e) (VFun (UseNotifier.handleUpdate k)) s
              Hev Hp Hq) as (r'' & t & Hu' & Hn & _ & _ & Hc2); [simpl; eauto|].
  assert (t = []) as ->.
  { assert ((delete_ (VFun (UseNotifier.handleUpdate k))
               (set_add (UseNotifier.handleUpdate k)
                  (default [] (Sliced.callbacksAt this e s)))).1 = true) as Hfound.
    { unfold delete_. rewrite set_delete_found.
      apply bool_decide_eq_true, set_add_elem. by left. }
    rewrite Hfound, Hu' in Hu. by injection Hu as _ ->. }
  rewrite Hu'. cbn [result trace store]. cbn [key] in Hc2.
  assert (∀ set, members (delete_ (VFun (UseNotifier.handleUpdate k))
                            (set_add (UseNotifier.handleUpdate k) set)).2
                 = filter (λ g, g ≠ UseNotifier.handleUpdate k) (members set)) as Hdel.
  { intros set. unfold delete_. rewrite members_set_delete, members_set_add.
    case_decide; [done|].
    rewrite filter_app, filter_cons_False by (intros H'; by apply H').
    by rewrite filter_nil, app_nil_r. }
  split_and!; [done..| | |].
  - rewrite Hc2, decide_True, Hc by done. cbn [fmap option_fmap option_map].
    by rewrite Hdel.
  - unfold Sliced.stateAt at 1. rewrite Hn. exact Hs.
  - intros e' s' Hne. rewrite Hc2, decide_False by done.
    destruct (Hframe e' s' Hne) as [Hc' Hs']. split; [by rewrite Hc'|].
    rewrite <- Hs'. unfold Sliced.stateAt. by rewrite Hn.
Qed.

(** X9 at a sample hook. *)
Lemma X9_witness :
  let k := {| UseNotifier.eventName := "evt"; UseNotifier.initialState := count 0;
              UseNotifier.sliceName := "x"; UseNotifier.caller := "Test";
              UseNotifier.handleUpdate := Fn 7 |} in
  let u := UseNotifier.cleanup k
             (store (UseNotifier.useEffect k (Sliced.after 5 quiet sliced_listening))) in
  result u = inr tt
  ∧ trace u = []
  ∧ members <$> Sliced.callbacksAt (store u) "evt" "x" = Some []
  ∧ Sliced.stateAt (store u) "evt" "x" = Some (count 0)
  ∧ members <$> Sliced.callbacksAt (store u) "evt" "sliceA" = Some [Fn 1].
Proof.
  intros k u.
  assert (UseNotifier.eventName k ≠ "") as H by discriminate.
  pose proof (X9_hook_mount_then_unmount 5 quiet sliced_listening k
                ltac:(intros ???; reflexivity) eq_refl ltac:(simpl; lia)
                H eq_refl eq_refl eq_refl)
    as (_ & _ & H1 & H1' & H2 & H3 & H4).
  split_and!; [exact H1|exact H1'|exact H2|exact H3|].
  etrans; [apply (H4 "evt" "sliceA"); intros [_ [=]]|vm_compute; reflexivity].
Defined.





(** X12. When the effect of a mounted component runs again for the same
    key (a dependency such as the initial state has changed), the cleanup
    and the new effect both return normally without calling a callback or
    warning; every state entry of the registry is as before, the new
    initial state being ignored; the callback set of the key holds the same
    callbacks, with [handleUpdate] now the last to be called.  After any
    history of plain calls. *)
Theorem X12_hook_effect_runs_again
    (fuel : nat) (behave : ListenerCallback → value → M Sliced.ChangeNotifier unit)
    (h : list Sliced.call) (k k' : UseNotifier.hook) (set : list (option ListenerCallback)) :
  inert behave → forallb Sliced.plainCall h = true → (List.length h < fuel)%nat →
  UseNotifier.eventName k ≠ "" →
  plain (UseNotifier.eventName k) = true → plain (UseNotifier.sliceName k) = true →
  Sliced.checkValidFunction (VFun (UseNotifier.handleUpdate k)) = true →
  UseNotifier.eventName k' = UseNotifier.eventName k →
  UseNotifier.sliceName k' = UseNotifier.sliceName k →
  UseNotifier.handleUpdate k' = UseNotifier.handleUpdate k →
  Sliced.callbacksAt (Sliced.after fuel behave h)
    (UseNotifier.eventName k) (UseNotifier.sliceName k) = Some set →
  UseNotifier.handleUpdate k ∈ members set →
  let f := UseNotifier.handleUpdate k in
  let this := Sliced.after fuel behave h in
  let u := UseNotifier.cleanup k this in
  let m := UseNotifier.useEffect k' (store u) in
  result u = inr tt ∧ trace u = []
  ∧ result m = inr tt ∧ trace m = []
  ∧ Sliced.notifierState (store m) = Sliced.notifierState this
  ∧ members <$> Sliced.callbacksAt (store m)
                  (UseNotifier.eventName k) (UseNotifier.sliceName k)
    = Some (filter (λ g, g ≠ f) (members set) ++ [f]).
Proof.
  intros Hb Hplain Hlen He Hp Hq Hcb Hke Hks Hkf Hset Hf f this u m.
  pose proof (hook_event_valid _ He) as Hev.
  pose proof (wf_after fuel behave Hb h Hplain ltac:(lia)) as Hwf0.
  destruct (callbacksAt_Some_inv _ _ _ _ Hset) as (ls & Hl & Hls).
  destruct (wf_both _ this (UseNotifier.eventName k) Hwf0)
    as [[Hl' _]|(ls' & st & Hl' & Hn)]; [fold this in Hl; congruence|].
  subst u m. unfold UseNotifier.cleanup, UseNotifier.useEffect.
  rewrite Hke, Hks, Hkf. fold f.
  rewrite (sliced_unsubscribe_slice this _ _ _ ls set Hev Hp Hq Hl Hls).
  unfold delete_. rewrite set_delete_found, bool_decide_eq_true_2 by done.
  cbn [result trace store].
  erewrite sliced_listen_old_slice;
    [|done|done|done|done|simpl; apply lookup_insert_eq|exact Hn|apply lookup_insert_eq].
  cbn [result trace store Sliced.notifierState].
  unfold Sliced.callbacksAt. cbn [Sliced.listeners].
  rewrite lookup_insert_eq. simpl. rewrite lookup_insert_eq.
  split_and!; [done..|].
  cbn [fmap option_fmap option_map]. f_equal.
  pose proof (members_set_delete f set) as Hm. unfold set_delete in Hm. simpl in Hm.
  rewrite members_set_add, Hm, decide_False; [done|].
  rewrite list_elem_of_filter. naive_solver.
Qed.

(** X12 at a sample hook. *)
Lemma X12_witness :
  let k := {| UseNotifier.eventName := "evt"; UseNotifier.initialState := count 0;
              UseNotifier.sliceName := "sliceA"; UseNotifier.caller := "Test";
              UseNotifier.handleUpdate := Fn 1 |} in
  let k' := {| UseNotifier.eventName := "evt"; UseNotifier.initialState := count 5;
               UseNotifier.sliceName := "sliceA"; UseNotifier.caller := "Test";
               UseNotifier.handleUpdate := Fn 1 |} in
  let h := sliced_listening ++ [Sliced.Listen (VStr "evt") (VFun (Fn 2)) VNull "sliceA"] in
  let m := UseNotifier.useEffect k'
             (store (UseNotifier.cleanup k (Sliced.after 5 quiet h))) in
  result m = inr tt
  ∧ Sliced.stateAt (store m) "evt" "sliceA" = Some (count 0)
  ∧ members <$> Sliced.callbacksAt (store m) "evt" "sliceA" = Some [Fn 2; Fn 1].
Proof.
  intros k k' h m.
  assert (UseNotifier.eventName k ≠ "") as H by discriminate.
  assert (Fn 1 ∈ members [Some (Fn 1); Some (Fn 2)]) as Hin by by left.
  pose proof (X12_hook_effect_runs_again 5 quiet h k k' [Some (Fn 1); Some (Fn 2)]
                ltac:(intros ???; reflexivity) eq_refl ltac:(simpl; lia)
                H eq_refl eq_refl eq_refl eq_refl eq_refl eq_refl eq_refl Hin)
    as (_ & _ & Hr & _ & _ & Hc).
  split_and!; [exact Hr|vm_compute; reflexivity|].
  etrans; [exact Hc|vm_compute; reflexivity].
Defined.

(** ** The singleton *)

Lemma onInstance_eq {R A} (new : R) (m : M R A) (instance : option R) :
  Singleton.onInstance new m instance
  = match m (default new instance) with Run r this t => Run r (Some this) t end.
Proof.
  unfold Singleton.onInstance, Singleton.getInstance, Singleton.call. unfold_m.
  destruct instance as [this|]; simpl; by destruct (m _).
Qed.

(** X13. All callers share one registry.  A method called through
    [getInstance()] runs on the registry the earlier calls through
    [getInstance()] have left, on a new one only when there was no such
    call: the first call creates the instance, no later call replaces it,
    and a sequence of calls through [getInstance()] leaves the field holding
    what the same calls leave of one registry created once.  For either
    class, [new] being its fresh instance. *)
Theorem X13_getInstance_shares_one_registry {R A} (new : R) (m : M R A) (ms : list (M R A))
    (this : R) :
  (result (Singleton.onInstance new m None) = result (m new)
   ∧ trace (Singleton.onInstance new m None) = trace (m new)
   ∧ store (Singleton.onInstance new m None) = Some (store (m new)))
  ∧ (result (Singleton.onInstance new m (Some this)) = result (m this)
     ∧ trace (Singleton.onInstance new m (Some this)) = trace (m this)
     ∧ store (Singleton.onInstance new m (Some this)) = Some (store (m this)))
  ∧ foldl (λ instance (m' : M R A), store (Singleton.onInstance new m' instance)) None (m :: ms)
    = Some (foldl (λ this' (m' : M R A), store (m' this')) new (m :: ms)).
Proof.
  split_and!; rewrite ?onInstance_eq; simpl; try by destruct (m _).
  assert (∀ l (r : R),
            foldl (λ instance (m' : M R A), store (Singleton.onInstance new m' instance)) (Some r) l
            = Some (foldl (λ this' (m' : M R A), store (m' this')) r l)) as Hfold.
  { induction l as [|m' l IH]; intros r; [done|]. simpl.
    rewrite onInstance_eq. simpl. destruct (m' r) as [res r' t]. simpl. apply IH. }
  rewrite onInstance_eq. simpl. destruct (m new) as [res r' t]. simpl. apply Hfold.
Qed.

(** ** What a history leaves *)

Lemma forKey_true (e s : string) (ev : value) (s' : string) :
  forKey e s ev s' = true ↔ validateEvent ev = true ∧ key ev = e ∧ s' = s.
Proof.
  unfold forKey. rewrite andb_true_iff, bool_decide_eq_true. naive_solver.
Qed.

Lemma forKey_false (e s : string) (ev : value) (s' : string) :
  validateEvent ev = true → forKey e s ev s' = false → ¬ (e = key ev ∧ s = s').
Proof.
  unfold forKey. intros -> H. simpl in H. apply bool_decide_eq_false in H. naive_solver.
Qed.

Section readers.
Variable fuel : nat.
Variable behave : ListenerCallback → value → M Sliced.ChangeNotifier unit.
Variable behavef : ListenerCallback → value → M Flat.ChangeNotifier unit.
Hypothesis behave_inert : inert behave.
Hypothesis behavef_inert : inert behavef.

Lemma exec_stateAt (n : nat) (this : Sliced.ChangeNotifier) (c : Sliced.call) (e s : string) :
  Sliced.wf n this → (n < fuel)%nat → Sliced.plainCall c = true →
  Sliced.stateAt (Sliced.exec fuel behave this c) e s
  = stateStep e s (Sliced.stateAt this e s) c.
Proof.
  intros Hwf Hfuel Hpc. destruct c as [ev d s0 caller|ev cb i s0|ev cb s0|e0 s0]; simpl in *.
  - apply plainCall_names in Hpc as (Hi & Hp & Hq).
    destruct (validateEvent ev) eqn:Hev;
      [|rewrite sliced_notify_invalid_store by done; unfold forKey; by rewrite Hev].
    destruct (sliced_notify_accepted fuel behave behave_inert _ this ev d s0 caller
                Hwf Hfuel Hev Hp Hq) as (r' & t & -> & _ & _ & Hcase). simpl.
    destruct (forKey e s ev s0) eqn:Hk.
    + apply forKey_true in Hk as (_ & <- & ->).
      destruct (Sliced.callbacksAt this (key ev) s) as [set|] eqn:Hc.
      * destruct Hcase as [_ ->]. rewrite decide_True by done.
        assert (is_Some (Sliced.stateAt this (key ev) s)) as [p Hpr]
          by (apply (Sliced.wf_slices _ _ Hwf); eauto).
        by rewrite Hpr.
      * destruct Hcase as [-> _].
        destruct (Sliced.stateAt this (key ev) s) eqn:Hpr; [|done].
        assert (is_Some (Sliced.callbacksAt this (key ev) s)) as [? Hx]
          by (apply (Sliced.wf_slices _ _ Hwf); eauto).
        by rewrite Hc in Hx.
    + pose proof (forKey_false _ _ _ _ Hev Hk) as Hne.
      destruct (Sliced.callbacksAt this (key ev) s0) as [set|].
      * destruct Hcase as [_ ->]. by rewrite decide_False.
      * by destruct Hcase as [-> _].
  - apply plainCall_names in Hpc as (Hi & Hp & Hq).
    destruct (validateEvent ev) eqn:Hev;
      [|rewrite sliced_listen_invalid_store by auto; unfold forKey; by rewrite Hev].
    destruct (Sliced.checkValidFunction cb) eqn:Hcb;
      [|rewrite sliced_listen_invalid_store by auto; by rewrite andb_false_r].
    destruct (valid_function _ Hcb) as [f ->]. rewrite andb_true_r.
    destruct (sliced_listen_accepted _ this ev f i s0 Hwf Hev Hcb Hp Hq)
      as (r' & -> & _ & _ & _ & ->). simpl.
    destruct (forKey e s ev s0) eqn:Hk.
    + apply forKey_true in Hk as (_ & <- & ->). by rewrite decide_True.
    + pose proof (forKey_false _ _ _ _ Hev Hk) as Hne. by rewrite decide_False.
  - apply plainCall_names in Hpc as (Hi & Hp & Hq).
    destruct (validateEvent ev) eqn:Hev;
      [|by rewrite sliced_unsubscribe_invalid_store by auto].
    destruct (Sliced.listeners this !! key ev) as [ls|] eqn:Hls;
      [|by rewrite sliced_unsubscribe_invalid_store by auto].
    destruct (sliced_unsubscribe_accepted this ev cb s0 Hev Hp Hq)
      as (r' & t & -> & Hn & _); [eauto|]. simpl.
    unfold Sliced.stateAt. by rewrite Hn.
  - apply andb_true_iff in Hpc as [Hp Hq]. by rewrite sliced_getState_eq.
Qed.

Lemma exec_subscribed (n : nat) (this : Sliced.ChangeNotifier) (c : Sliced.call) (e s : string)
    (f : ListenerCallback) (b : bool) :
  Sliced.wf n this → (n < fuel)%nat → Sliced.plainCall c = true →
  ((∃ set, Sliced.callbacksAt this e s = Some set ∧ f ∈ members set) ↔ b = true) →
  (∃ set, Sliced.callbacksAt (Sliced.exec fuel behave this c) e s = Some set
          ∧ f ∈ members set)
  ↔ subscribedStep e s f b c = true.
Proof.
  intros Hwf Hfuel Hpc Hb.
  destruct c as [ev d s0 caller|ev cb i s0|ev cb s0|e0 s0]; simpl in *.
  - apply plainCall_names in Hpc as (Hi & Hp & Hq).
    destruct (validateEvent ev) eqn:Hev; [|by rewrite sliced_notify_invalid_store by done].
    destruct (sliced_notify_accepted fuel behave behave_inert _ this ev d s0 caller
                Hwf Hfuel Hev Hp Hq) as (r' & t & -> & Hl & _). simpl.
    unfold Sliced.callbacksAt in *. by rewrite Hl.
  - apply plainCall_names in Hpc as (Hi & Hp & Hq).
    destruct (validateEvent ev) eqn:Hev;
      [|rewrite sliced_listen_invalid_store by auto; unfold forKey; by rewrite Hev].
    destruct (Sliced.checkValidFunction cb) eqn:Hcb.
    2:{ rewrite sliced_listen_invalid_store by auto. by rewrite andb_false_r. }
    destruct (valid_function _ Hcb) as [g ->]. rewrite andb_true_r.
    destruct (sliced_listen_accepted _ this ev g i s0 Hwf Hev Hcb Hp Hq)
      as (r' & -> & _ & _ & Hc & _). simpl. rewrite Hc.
    destruct (forKey e s ev s0) eqn:Hk.
    + apply forKey_true in Hk as (_ & <- & ->). rewrite decide_True by done. simpl.
      case_bool_decide as Hg.
      * subst g. split; [done|]. intros _. eexists. split; [done|].
        apply set_add_elem. by left.
      * rewrite <- Hb. split.
        -- intros (set & [= <-] & [->|Hin]%set_add_elem); [done|].
           destruct (Sliced.callbacksAt this (key ev) s); [eauto|].
           by apply elem_of_nil in Hin.
        -- intros (set & -> & Hin). eexists. split; [done|]. apply set_add_elem. by right.
    + pose proof (forKey_false _ _ _ _ Hev Hk) as Hne. by rewrite decide_False.
  - apply plainCall_names in Hpc as (Hi & Hp & Hq).
    destruct (validateEvent ev) eqn:Hev;
      [|rewrite sliced_unsubscribe_invalid_store by auto; unfold forKey; by rewrite Hev].
    destruct (Sliced.listeners this !! key ev) as [ls|] eqn:Hls.
    + destruct (sliced_unsubscribe_accepted this ev cb s0 Hev Hp Hq)
        as (r' & t & -> & _ & _ & _ & Hc); [eauto|]. simpl. rewrite Hc.
      destruct (forKey e s ev s0) eqn:Hk.
      * apply forKey_true in Hk as (_ & <- & ->). rewrite decide_True by done. simpl.
        destruct cb as [| | | | | | | | |g];
          try (rewrite <- Hb; by destruct (Sliced.callbacksAt this (key ev) s)).
        unfold isCallback, delete_. case_bool_decide as Hg.
        -- subst g. split; [|done].
           intros (set & Hset & Hin).
           destruct (Sliced.callbacksAt this (key ev) s); simplify_eq/=.
           rewrite members_fmap_delete in Hin.
           apply list_elem_of_filter in Hin. naive_solver.
        -- rewrite <- Hb. destruct (Sliced.callbacksAt this (key ev) s) as [set0|];
             cbn [fmap option_fmap option_map].
           ++ split.
              ** intros (set & [= <-] & Hin). rewrite members_fmap_delete in Hin.
                 apply list_elem_of_filter in Hin. naive_solver.
              ** intros (set & [= <-] & Hin). eexists. split; [done|].
                 rewrite members_set_delete. apply list_elem_of_filter. naive_solver.
           ++ naive_solver.
      * pose proof (forKey_false _ _ _ _ Hev Hk) as Hne. by rewrite decide_False.
    + rewrite sliced_unsubscribe_invalid_store by auto.
      destruct (forKey e s ev s0 && isCallback f cb) eqn:Hk; [|done].
      apply andb_true_iff in Hk as [(_ & <- & ->)%forKey_true _].
      split; [|done]. intros (set & Hset & _).
      unfold Sliced.callbacksAt in Hset. by rewrite Hls in Hset.
  - apply andb_true_iff in Hpc as [Hp Hq]. by rewrite sliced_getState_eq.
Qed.

Lemma flat_exec_state (n : nat) (this : Flat.ChangeNotifier) (c : Flat.call) (e : string) :
  Flat.wf n this → (S n < fuel)%nat → Flat.plainCall c = true →
  Flat.notifierState (Flat.exec fuel behavef this c) !! e
  = flatStateStep e (Flat.notifierState this !! e) c.
Proof.
  intros Hwf Hfuel Hpc. destruct c as [ev d caller|ev cb i|ev cb]; simpl in *;
    apply andb_true_iff in Hpc as [Hi Hp].
  - destruct (validateEvent ev) eqn:Hev; [|by rewrite flat_notify_invalid_store by done].
    simpl. destruct (Flat.listeners this !! key ev) as [set|] eqn:Hl.
    + rewrite (flat_notify_hit fuel behavef behavef_inert _ _ _ _ set);
        [|done..|pose proof (Flat.wf_short _ _ Hwf _ _ Hl); lia].
      simpl. case_bool_decide as Hk.
      * subst e. rewrite lookup_insert_eq.
        by rewrite (flat_state_present n this (key ev) Hwf) by eauto.
      * by rewrite lookup_insert_ne.
    + rewrite flat_notify_no_event by done. simpl.
      case_bool_decide as Hk; [|done]. subst e.
      destruct (Flat.notifierState this !! key ev) eqn:Hn; [|done].
      assert (is_Some (Flat.listeners this !! key ev)) as [? Hx]
        by (apply (Flat.wf_events _ _ Hwf); eauto).
      by rewrite Hl in Hx.
  - destruct (validateEvent ev) eqn:Hev; [|by rewrite flat_listen_invalid_store by auto].
    destruct (Flat.checkValidFunction cb) eqn:Hcb;
      [|rewrite flat_listen_invalid_store by auto; by rewrite andb_false_r].
    assert (∃ f, cb = VFun f) as [f ->] by (destruct cb; try discriminate; eauto).
    simpl. rewrite andb_true_r.
    destruct (Flat.listeners this !! key ev) as [set|] eqn:Hl.
    + rewrite (flat_listen_old_wf fuel behavef behavef_inert n _ _ _ _ set) by done. simpl.
      case_bool_decide as Hk; [|done]. subst e.
      by rewrite (flat_state_present n this (key ev) Hwf) by eauto.
    + rewrite flat_listen_new by (done || lia). simpl.
      case_bool_decide as Hk.
      * subst e. rewrite lookup_insert_eq.
        destruct (Flat.notifierState this !! key ev) eqn:Hn; [|done].
        assert (is_Some (Flat.listeners this !! key ev)) as [? Hx]
          by (apply (Flat.wf_events _ _ Hwf); eauto).
        by rewrite Hl in Hx.
      * by rewrite lookup_insert_ne.
  - destruct (validateEvent ev) eqn:Hev;
      [|by rewrite flat_unsubscribe_invalid_store by auto].
    destruct (Flat.listeners this !! key ev) as [set|] eqn:Hl;
      [|by rewrite flat_unsubscribe_invalid_store by auto].
    by rewrite (flat_unsubscribe_accepted _ _ _ set).
Qed.

End readers.

(** X14. The state of a key is a function of the history of plain calls: it is
    absent until the first accepted [listen] on the key, which seeds it
    with its initial state ([{}] for [undefined]); from then on every
    [notify] with a valid event name on the key replaces it by the merge
    with its data, in the order of the calls, and no other call changes it:
    not a later [listen], not an [unsubscribe], not a call on another key,
    not a call that throws.  Sliced registry. *)
Theorem X14_state_is_the_fold_of_the_history
    (fuel : nat) (behave : ListenerCallback → value → M Sliced.ChangeNotifier unit)
    (h : list Sliced.call) (e s : string) :
  inert behave → forallb Sliced.plainCall h = true → (List.length h ≤ fuel)%nat →
  plain e = true → plain s = true →
  Sliced.stateAt (Sliced.after fuel behave h) e s = stateAfter e s h
  ∧ result (Sliced.getState e s (Sliced.after fuel behave h))
    = inr (default VUndefined (stateAfter e s h)).
Proof.
  intros Hb Hplain Hlen Hp Hq.
  assert (Sliced.stateAt (Sliced.after fuel behave h) e s = stateAfter e s h) as H.
  { clear Hp Hq. induction h as [|c h IH] using rev_ind; [done|].
    rewrite forallb_app in Hplain. simpl in Hplain. rewrite andb_true_r in Hplain.
    apply andb_true_iff in Hplain as [Hh Hc]. rewrite length_app in Hlen. simpl in Hlen.
    rewrite after_snoc.
    rewrite (exec_stateAt fuel behave Hb (List.length h));
      [|apply wf_after; [done..|lia]|lia|done].
    unfold stateAfter. rewrite foldl_app. simpl. rewrite IH by (done || lia). done. }
  split; [done|]. rewrite sliced_getState_eq by done. simpl. by rewrite H.
Qed.

(** X14 at a sample history. *)
Lemma X14_witness :
  let h := [Sliced.Notify (VStr "evt") (count 9) "sliceA" "early";
            Sliced.Listen (VStr "evt") (VFun (Fn 1)) VUndefined "sliceA";
            Sliced.Notify (VStr "evt") (count 1) "sliceA" "test";
            Sliced.Listen (VStr "evt") (VFun (Fn 2)) (count 5) "sliceA";
            Sliced.Notify (VStr "evt") (VObj {["extra" := VNum 2]}) "sliceA" "test";
            Sliced.Notify (VStr "evt") (count 7) "sliceB" "test"] in
  Sliced.stateAt (Sliced.after 7 quiet h) "evt" "sliceA"
  = Some (VObj (<["extra" := VNum 2]> {["count" := VNum 1]}))
  ∧ result (Sliced.getState "evt" "sliceB" (Sliced.after 7 quiet h)) = inr VUndefined.
Proof.
  intros h.
  pose proof (X14_state_is_the_fold_of_the_history 7 quiet h "evt" "sliceA"
                ltac:(intros ???; reflexivity) eq_refl ltac:(simpl; lia) eq_refl eq_refl)
    as [H1 _].
  pose proof (X14_state_is_the_fold_of_the_history 7 quiet h "evt" "sliceB"
                ltac:(intros ???; reflexivity) eq_refl ltac:(simpl; lia) eq_refl eq_refl)
    as [_ H2].
  split; (etrans; [eassumption|vm_compute; reflexivity]).
Defined.

(** X15. Whether a function is subscribed to a key is decided by the last
    call about it: after any history of plain calls it is in the callback set of the key
    exactly when some accepted [listen] registered it there and no
    [unsubscribe] of it with a valid event name on that key came later.
    Calls on other keys, calls with other callbacks, [notify] and
    [getState] never subscribe or unsubscribe anyone.  Sliced registry. *)
Theorem X15_subscription_is_decided_by_the_last_call
    (fuel : nat) (behave : ListenerCallback → value → M Sliced.ChangeNotifier unit)
    (h : list Sliced.call) (e s : string) (f : ListenerCallback) :
  inert behave → forallb Sliced.plainCall h = true → (List.length h ≤ fuel)%nat →
  (∃ set, Sliced.callbacksAt (Sliced.after fuel behave h) e s = Some set ∧ f ∈ members set)
  ↔ subscribedAfter e s f h = true.
Proof.
  intros Hb. induction h as [|c h IH] using rev_ind; intros Hplain Hlen.
  - unfold Sliced.after, Sliced.callbacksAt. simpl. rewrite lookup_empty. simpl.
    split; [by intros (? & [=] & _)|done].
  - rewrite forallb_app in Hplain. simpl in Hplain. rewrite andb_true_r in Hplain.
    apply andb_true_iff in Hplain as [Hh Hc]. rewrite length_app in Hlen. simpl in Hlen.
    rewrite after_snoc. unfold subscribedAfter. rewrite foldl_app. simpl.
    apply (exec_subscribed fuel behave Hb (List.length h));
      [apply wf_after; [done..|lia]|lia|done|apply IH; [done|lia]].
Qed.

(** X15 at a sample history. *)
Lemma X15_witness :
  let h := [Sliced.Listen (VStr "evt") (VFun (Fn 1)) (count 0) "sliceA";
            Sliced.Listen (VStr "evt") (VFun (Fn 2)) (count 0) "sliceA";
            Sliced.Unsubscribe (VStr "evt") (VFun (Fn 1)) "sliceA";
            Sliced.Unsubscribe (VStr "evt") (VFun (Fn 2)) "sliceB";
            Sliced.Listen (VStr "evt") (VFun (ForeignFn 3)) (count 0) "sliceA"] in
  members <$> Sliced.callbacksAt (Sliced.after 6 quiet h) "evt" "sliceA" = Some [Fn 2]
  ∧ (∃ set, Sliced.callbacksAt (Sliced.after 6 quiet h) "evt" "sliceA" = Some set
            ∧ Fn 2 ∈ members set)
  ∧ ¬ (∃ set, Sliced.callbacksAt (Sliced.after 6 quiet h) "evt" "sliceA" = Some set
              ∧ Fn 1 ∈ members set)
  ∧ ¬ (∃ set, Sliced.callbacksAt (Sliced.after 6 quiet h) "evt" "sliceA" = Some set
              ∧ ForeignFn 3 ∈ members set).
Proof.
  intros h.
  pose proof (λ f, X15_subscription_is_decided_by_the_last_call 6 quiet h "evt" "sliceA" f
                ltac:(intros ???; reflexivity) eq_refl ltac:(simpl; lia)) as H.
  split_and!.
  - vm_compute. reflexivity.
  - apply H. reflexivity.
  - intros Hx%H. discriminate Hx.
  - intros Hx%H. discriminate Hx.
Defined.

(** X16. In the flat registry too the state of an event is a function of
    the history of plain calls: absent until the first accepted [listen], which seeds it
    with its initial state ([{}] for [undefined]), then merged with the
    data of every [notify] with a valid name of the event, in order.  The
    replays that [listen] triggers never change it, nor does any other
    call. *)
Theorem X16_flat_state_is_the_fold_of_the_history
    (fuel : nat) (behave : ListenerCallback → value → M Flat.ChangeNotifier unit)
    (h : list Flat.call) (e : string) :
  inert behave → forallb Flat.plainCall h = true → (List.length h < fuel)%nat →
  Flat.notifierState (Flat.after fuel behave h) !! e = flatStateAfter e h.
Proof.
  intros Hb. induction h as [|c h IH] using rev_ind; intros Hplain Hlen; [done|].
  rewrite forallb_app in Hplain. simpl in Hplain. rewrite andb_true_r in Hplain.
  apply andb_true_iff in Hplain as [Hh Hc]. rewrite length_app in Hlen. simpl in Hlen.
  rewrite flat_after_snoc.
  rewrite (flat_exec_state fuel behave Hb (List.length h));
    [|apply flat_wf_after; [done..|lia]|lia|done].
  unfold flatStateAfter. rewrite foldl_app. simpl. rewrite IH by (done || lia). done.
Qed.

(** X16 at a sample history. *)
Lemma X16_witness :
  let h := [Flat.Notify (VStr "evt") (count 9) "early";
            Flat.Listen (VStr "evt") (VFun (Fn 1)) VUndefined;
            Flat.Notify (VStr "evt") (count 1) "test";
            Flat.Listen (VStr "evt") (VFun (Fn 2)) (count 5);
            Flat.Notify (VStr "evt") (VObj {["extra" := VNum 2]}) "test";
            Flat.Notify (VStr "evt") (VNum 7) "test"] in
  Flat.notifierState (Flat.after 8 quiet (take 5 h)) !! "evt"
  = Some (VObj (<["extra" := VNum 2]> {["count" := VNum 1]}))
  ∧ Flat.notifierState (Flat.after 8 quiet h) !! "evt" = Some (VNum 7).
Proof.
  intros h.
  pose proof (X16_flat_state_is_the_fold_of_the_history 8 quiet (take 5 h) "evt"
                ltac:(intros ???; reflexivity) eq_refl ltac:(simpl; lia)) as H1.
  pose proof (X16_flat_state_is_the_fold_of_the_history 8 quiet h "evt"
                ltac:(intros ???; reflexivity) eq_refl ltac:(simpl; lia)) as H2.
  split; (etrans; [eassumption|vm_compute; reflexivity]).
Defined.

(** ** Listeners that change the set they are called from *)

(** X20. [notify] iterates the set itself, not a copy of it: a callback
    that a listener unsubscribes before its turn is not called by the
    running [notify], and a callback that a listener subscribes is called
    by it, after the others.  On the pair ("evt", "sliceA") with the
    listeners [Fn 1] and [Fn 2], where [Fn 1] unsubscribes [Fn 2] and
    subscribes [Fn 3]: [notify] returns, has called [Fn 1] and [Fn 3] with
    the stored state, and leaves these two subscribed. *)
Theorem X20_notify_iterates_the_live_set :
  let this := Sliced.after 5 swaps
                [Sliced.Listen (VStr "evt") (VFun (Fn 1)) (count 0) "sliceA";
                 Sliced.Listen (VStr "evt") (VFun (Fn 2)) (count 0) "sliceA"] in
  let r := Sliced.notify 5 swaps (VStr "evt") (count 1) "sliceA" "test" this in
  members <$> Sliced.callbacksAt this "evt" "sliceA" = Some [Fn 1; Fn 2]
  ∧ result r = inr tt
  ∧ calls (trace r) = [(Fn 1, count 1); (Fn 3, count 1)]
  ∧ Sliced.stateAt (store r) "evt" "sliceA" = Some (count 1)
  ∧ members <$> Sliced.callbacksAt (store r) "evt" "sliceA" = Some [Fn 1; Fn 3].
Proof. vm_compute. done. Qed.
